(** * Ingestion pipeline: rate limiter, checkpoints, schema drift, dual upsert
      and the extractor driver.

    A shallow embedding of the Python sources under [services/] and
    [ingestion/].  Conventions used throughout:

    - Python [float] values (clock readings, back-off delays, similarity
      scores) are exact rationals [Q]: rounding and overflow of binary64 are
      not modelled (the powers of [2.0] the limiter computes are exact in
      binary64 up to exponent 1023).
    - Python [int] is [Z]; [str] is [string], read as a sequence of code
      points below 256, so that [String.ltb] is Python's [<] on [str].
    - Objects that the source mutates in place live in an explicit state that
      the functions thread through a state-and-exception monad: a raised
      exception keeps the mutations made before the [raise].
    - [time.time()], [datetime.utcnow()], [uuid.uuid4()] and the faults of the
      database session are read from oracles carried by the state, one
      reading per call in the source. *)

From Stdlib Require Import QArith Qround Lqa Ascii String.
From stdpp Require Import base gmap strings list pretty sorting.

Local Open Scope Z_scope.

(** ** Exceptions ([core/exceptions.py]) *)

Inductive exn_class :=
  | Exception_            (* any exception raised by a library *)
  | KasperoException
  | ETLException
  | ExtractionError
  | TransformationError
  | LoadError
  | SchemaValidationError
  | SchemaDriftError
  | RateLimitError
  | CheckpointError
  | APIError
  | AuthenticationError
  | DatabaseError.

#[global] Instance exn_class_eq_dec : EqDecision exn_class.
Proof. solve_decision. Defined.

(** An exception object: its class and the text [str(e)] yields. *)
Record exn := mkExn { exn_cls : exn_class; exn_str : string }.

#[global] Instance exn_eq_dec : EqDecision exn.
Proof. solve_decision. Defined.

(** The direct base class of each exception class. *)
Definition base_class (c : exn_class) : option exn_class :=
  match c with
  | Exception_ => None
  | KasperoException => Some Exception_
  | ETLException | APIError | DatabaseError => Some KasperoException
  | ExtractionError | TransformationError | LoadError | SchemaValidationError
  | SchemaDriftError | RateLimitError | CheckpointError => Some ETLException
  | AuthenticationError => Some APIError
  end.

(** [isinstance(e, c)]: the class hierarchy has depth three. *)
Definition isinstance (e : exn) (c : exn_class) : bool :=
  let up o := match o with Some k => base_class k | None => None end in
  let c0 := Some (exn_cls e) in
  let c1 := up c0 in
  let c2 := up c1 in
  let c3 := up c2 in
  bool_decide (c0 = Some c) || bool_decide (c1 = Some c)
  || bool_decide (c2 = Some c) || bool_decide (c3 = Some c).

(** ** The state-and-exception monad *)

Inductive result (A : Type) :=
  | Ok (a : A)
  | Raise (e : exn).
Arguments Ok {A} a.
Arguments Raise {A} e.

Definition M (S A : Type) : Type := S -> result A * S.

Definition ret {S A} (a : A) : M S A := fun s => (Ok a, s).

Definition bind {S A B} (c : M S A) (k : A -> M S B) : M S B :=
  fun s =>
    match c s with
    | (Ok a, s') => k a s'
    | (Raise e, s') => (Raise e, s')
    end.

Definition raise {S A} (e : exn) : M S A := fun s => (Raise e, s).

(** [try: c except Exception as e: h e] *)
Definition try_except {S A} (c : M S A) (h : exn -> M S A) : M S A :=
  fun s =>
    match c s with
    | (Ok a, s') => (Ok a, s')
    | (Raise e, s') => h e s'
    end.

Definition get {S} : M S S := fun s => (Ok s, s).
Definition modify {S} (f : S -> S) : M S unit := fun s => (Ok tt, f s).

Declare Scope py_scope.
Delimit Scope py_scope with py.
Notation "x <~ c ;; k" := (bind c (fun x => k))
  (at level 100, c at next level, k at level 200, right associativity) : py_scope.
Notation "c ;;; k" := (bind c (fun _ => k))
  (at level 100, k at level 200, right associativity) : py_scope.

(** ** Clock oracle *)

(** Successive readings of the wall clock, in seconds. *)
Record Clock := mkClock { readings : nat -> Q; ticks : nat }.

Definition clock_read (c : Clock) : Q * Clock :=
  (readings c (ticks c), mkClock (readings c) (S (ticks c))).

(** Strict comparison on floats. *)
Definition Qltb (x y : Q) : bool := negb (Qle_bool y x).

(** ** Rate limiter ([services/rate_limiter.py]) *)

Module RateLimiter.

Record RateLimiterState := mkState {
  requests_made : Z;
  window_start : Q;
  current_backoff : Q;
  retry_count : Z;
  last_request_time : Q
}.

Record RateLimiter := mkLimiter {
  requests_per_minute : Z;
  max_retries : Z;
  backoff_base : Q;
  _states : gmap string RateLimiterState
}.

(** Settings defaults of [core/config.py]. *)
Definition RATE_LIMIT_REQUESTS_PER_MINUTE : Z := 60.
Definition RATE_LIMIT_RETRY_MAX : Z := 5.
Definition RATE_LIMIT_BACKOFF_BASE : Q := 2.

(** [x or d] on an optional number: [None] and zero are falsy. *)
Definition or_int (x : option Z) (d : Z) : Z :=
  match x with
  | Some v => if v =? 0 then d else v
  | None => d
  end.

Definition or_float (x : option Q) (d : Q) : Q :=
  match x with
  | Some v => if Qeq_bool v 0 then d else v
  | None => d
  end.

Definition __init__ (requests_per_minute max_retries : option Z)
    (backoff_base : option Q) : RateLimiter :=
  {| requests_per_minute := or_int requests_per_minute RATE_LIMIT_REQUESTS_PER_MINUTE;
     max_retries := or_int max_retries RATE_LIMIT_RETRY_MAX;
     backoff_base := or_float backoff_base RATE_LIMIT_BACKOFF_BASE;
     _states := ∅ |}.

(** What the limiter's methods act on: the limiter object, the clock, and
    the delays handed to [time.sleep]. *)
Record World := mkWorld {
  clock : Clock;
  slept : list Q;
  self : RateLimiter
}.

Definition time_time : M World Q := fun w =>
  let '(t, c) := clock_read (clock w) in
  (Ok t, mkWorld c (slept w) (self w)).

(** [time.sleep(d)] is recorded, not performed: the readings of the clock are
    given beforehand, and what relates them to the delays is said where a
    statement needs it.  [time.sleep] raises [ValueError] on a negative delay
    and [OverflowError] on one beyond 2^63 nanoseconds, and [**] raises
    [OverflowError] beyond the range of a float; the statements about a
    back-off that is slept or returned bound the delay accordingly. *)
Definition time_sleep (d : Q) : M World unit :=
  modify (fun w => mkWorld (clock w) (slept w ++ [d]) (self w)).

(** A state object is shared between the caller and [self._states]; the
    model names the object by its key and writes every mutation back. *)
Definition store (source_key : string) (st : RateLimiterState) : M World unit :=
  modify (fun w =>
    mkWorld (clock w) (slept w)
      (mkLimiter (requests_per_minute (self w)) (max_retries (self w))
         (backoff_base (self w)) (<[source_key := st]> (_states (self w))))).

Local Open Scope py_scope.

Definition _get_state (source_key : string) : M World RateLimiterState :=
  w <~ get ;;
  match _states (self w) !! source_key with
  | Some st => ret st
  | None =>
      now <~ time_time ;;
      let st := mkState 0 now 0 0 0 in
      store source_key st ;;;
      ret st
  end.

Definition _reset_window_if_needed (source_key : string)
    (state : RateLimiterState) : M World RateLimiterState :=
  current_time <~ time_time ;;
  if Qle_bool 60 (current_time - window_start state) then
    let state' := mkState 0 current_time 0 0 (last_request_time state) in
    store source_key state' ;;;
    ret state'
  else ret state.

(** [max(0, wait_time)] *)
Definition max0 (wait_time : Q) : Q := if Qltb 0 wait_time then wait_time else 0.

Definition check_rate_limit (source_key : string) : M World Q :=
  state <~ _get_state source_key ;;
  state <~ _reset_window_if_needed source_key state ;;
  w <~ get ;;
  if requests_per_minute (self w) <=? requests_made state then
    now <~ time_time ;;
    let wait_time := (60 - (now - window_start state))%Q in
    ret (max0 wait_time)
  else ret 0%Q.

Definition record_request (source_key : string) : M World unit :=
  state <~ _get_state source_key ;;
  let made := requests_made state + 1 in
  now <~ time_time ;;
  store source_key
    (mkState made (window_start state) (current_backoff state)
       (retry_count state) now).

Definition record_success (source_key : string) : M World unit :=
  state <~ _get_state source_key ;;
  store source_key
    (mkState (requests_made state) (window_start state) 0 0
       (last_request_time state)).

Definition max_retries_message (max_retries : Z) (source_key : string) : string :=
  "Max retries (" +:+ pretty max_retries +:+ ") exceeded for " +:+ source_key.

Definition record_failure (source_key : string) : M World Q :=
  state <~ _get_state source_key ;;
  let state := mkState (requests_made state) (window_start state)
                 (current_backoff state) (retry_count state + 1)
                 (last_request_time state) in
  store source_key state ;;;
  w <~ get ;;
  if max_retries (self w) <? retry_count state then
    raise (mkExn RateLimitError
             (max_retries_message (max_retries (self w)) source_key))
  else
    let backoff := (backoff_base (self w) ^ retry_count state)%Q in
    store source_key
      (mkState (requests_made state) (window_start state) backoff
         (retry_count state) (last_request_time state)) ;;;
    ret backoff.

Definition wait_if_needed (source_key : string) : M World unit :=
  wait_time <~ check_rate_limit source_key ;;
  if Qltb 0 wait_time then time_sleep wait_time else ret tt.

(** The loop of [test_basic_rate_limiting], for [n] calls: a request is
    recorded exactly when the check let it through ([wait == 0]). *)
Fixpoint drive_calls (n : nat) (source_key : string) : M World (list Q) :=
  match n with
  | O => ret []
  | S n' =>
      wait <~ check_rate_limit source_key ;;
      (if Qeq_bool wait 0 then record_request source_key else ret tt) ;;;
      rest <~ drive_calls n' source_key ;;
      ret (wait :: rest)
  end.

(** The world after [n] consecutive calls of [record_failure]. *)
Fixpoint after_failures (n : nat) (source_key : string) (w : World) : World :=
  match n with
  | O => w
  | S n' => snd (record_failure source_key (after_failures n' source_key w))
  end.

(** The dictionary [get_stats] returns, entry by entry. *)
Record LimiterStats := mkLimiterStats {
  stats_source_key : string;
  stats_requests_made : Z;
  stats_requests_limit : Z;
  stats_retry_count : Z;
  stats_current_backoff : Q;
  stats_window_remaining_seconds : Q
}.

Definition get_stats (source_key : string) : M World LimiterStats :=
  state <~ _get_state source_key ;;
  w <~ get ;;
  now <~ time_time ;;
  ret (mkLimiterStats source_key (requests_made state) (requests_per_minute (self w))
         (retry_count state) (current_backoff state)
         (max0 (60 - (now - window_start state)))).

(** [with_rate_limit(source_key, limiter)(func)], for a function that is not
    a coroutine: the body of [sync_wrapper], where [func] stands for the call
    of the decorated function on its arguments and [limiter] is the limiter
    of the world. *)
Definition with_rate_limit {A} (source_key : string) (func : M World A) : M World A :=
  wait_if_needed source_key ;;;
  record_request source_key ;;;
  try_except
    (result <~ func ;;
     record_success source_key ;;;
     ret result)
    (fun e =>
       backoff <~ record_failure source_key ;;
       time_sleep backoff ;;;
       raise e).

End RateLimiter.

(** ** Python values *)

(** The values a raw record can hold: what [json], [csv] and the XML parser
    produce, plus [datetime] and a catch-all for other objects, which the
    drift detector tags by class name. *)
#[local] Set Warnings "-register-all".

Inductive pyval :=
  | PyNone
  | PyBool (b : bool)
  | PyInt (n : Z)
  | PyFloat (x : Q)
  | PyStr (s : string)
  | PyList (l : list pyval)
  | PyDict (d : list (string * pyval))
  | PyDatetime (t : Q)
  | PyObject (type_name : string).

(** A record as the extractors pass it around: [Dict[str, Any]]. *)
Abbreviation pydict := (gmap string pyval).

(** Truth value of an object, as [if v] and [v or w] test it. *)
Definition truthy (v : pyval) : bool :=
  match v with
  | PyNone => false
  | PyBool b => b
  | PyInt n => negb (n =? 0)
  | PyFloat x => negb (Qeq_bool x 0)
  | PyStr s => negb (String.eqb s "")
  | PyList l => match l with [] => false | _ => true end
  | PyDict d => match d with [] => false | _ => true end
  | PyDatetime _ => true
  | PyObject _ => true
  end.

(** [d.get(k)] and [d.get(k, default)] *)
Definition dict_get (d : pydict) (k : string) : pyval :=
  default PyNone (d !! k).

Definition dict_get_default (d : pydict) (k : string) (dflt : pyval) : pyval :=
  default dflt (d !! k).

(** Functions of the Python runtime and standard library that the sources
    call and whose code is not part of the repository. *)
Class PyRuntime := {
  (** [str(v)], also what an f-string field without format spec yields *)
  py_str : pyval -> string;
  (** [s.lower()] *)
  str_lower : string -> string;
  (** [difflib.SequenceMatcher(None, a, b).ratio()] *)
  SequenceMatcher_ratio : string -> string -> Q;
  (** [json.dumps(data, sort_keys=True, default=str)] *)
  json_dumps : pydict -> string;
  (** [hashlib.sha256(s.encode()).hexdigest()] *)
  sha256_hexdigest : string -> string;
  (** [traceback.format_exc()] while the exception is being handled *)
  format_exc : exn -> string;
  (** [t.isoformat()] of a [datetime] *)
  datetime_isoformat : Q -> string;
  (** [datetime.strptime(s, fmt)] tried over the formats of the CSV
      transform, in their order; [None] when every format raises *)
  strptime_formats : string -> option Q;
  (** [[t.strip() for t in s.split(",") if t.strip()]] *)
  split_strip : string -> list string
}.

(** [s[:n]] *)
Definition str_prefix (n : nat) (s : string) : string := String.substring 0 n s.

(** ** Models ([core/models.py]) *)

Inductive SourceType := API | CSV | RSS.

#[global] Instance SourceType_eq_dec : EqDecision SourceType.
Proof. solve_decision. Defined.

Definition SourceType_value (t : SourceType) : string :=
  match t with API => "api" | CSV => "csv" | RSS => "rss" end.

Inductive RunStatus := RUNNING | SUCCESS | FAILED | PARTIAL.

#[global] Instance RunStatus_eq_dec : EqDecision RunStatus.
Proof. solve_decision. Defined.

Definition RunStatus_value (s : RunStatus) : string :=
  match s with
  | RUNNING => "running" | SUCCESS => "success"
  | FAILED => "failed" | PARTIAL => "partial"
  end.

Module ETLCheckpoint.
Record t := mk {
  id : Z;
  source_type : SourceType;
  last_source_id : option string;
  last_processed_at : option Q;
  last_offset : Z;
  checkpoint_metadata : option pydict;
  updated_at : Q
}.
End ETLCheckpoint.

Module ETLRun.
Record t := mk {
  id : Z;
  run_id : string;
  source_type : SourceType;
  status : RunStatus;
  started_at : Q;
  completed_at : option Q;
  duration_seconds : option Q;
  records_extracted : Z;
  records_transformed : Z;
  records_loaded : Z;
  records_skipped : Z;
  records_failed : Z;
  error_message : option string;
  error_traceback : option string;
  checkpoint_data : option pydict;
  run_metadata : pydict
}.
End ETLRun.

Module SchemaDrift.
Record t := mk {
  id : Z;
  source_type : SourceType;
  detected_at : Q;
  field_name : string;
  expected_type : option string;
  actual_type : option string;
  drift_type : string;
  confidence_score : Q;
  sample_value : option string;
  resolved : bool;
  resolved_at : option Q
}.
End SchemaDrift.

(** ** The database session *)

(** The metadata tables, each with the sequence behind its primary key, and
    the oracles the session's methods read: the UTC clock, [uuid4], and the
    fault (if any) that the n-th statement sent to the database meets.
    Changes reach the tables when [commit] succeeds; [rollback] itself is
    taken to succeed and drops what was pending. *)
Record Session := mkSession {
  utc : Clock;
  faults : nat -> option exn;
  statements : nat;
  uuids : nat -> string;
  uuid_count : nat;
  etl_checkpoints : list ETLCheckpoint.t;
  etl_checkpoints_seq : Z;
  etl_runs : list ETLRun.t;
  etl_runs_seq : Z;
  schema_drift : list SchemaDrift.t;
  schema_drift_seq : Z
}.

Definition set_utc (c : Clock) (s : Session) : Session :=
  mkSession c (faults s) (statements s) (uuids s) (uuid_count s)
    (etl_checkpoints s) (etl_checkpoints_seq s) (etl_runs s) (etl_runs_seq s)
    (schema_drift s) (schema_drift_seq s).

Definition set_statements (n : nat) (s : Session) : Session :=
  mkSession (utc s) (faults s) n (uuids s) (uuid_count s)
    (etl_checkpoints s) (etl_checkpoints_seq s) (etl_runs s) (etl_runs_seq s)
    (schema_drift s) (schema_drift_seq s).

Definition set_uuid_count (n : nat) (s : Session) : Session :=
  mkSession (utc s) (faults s) (statements s) (uuids s) n
    (etl_checkpoints s) (etl_checkpoints_seq s) (etl_runs s) (etl_runs_seq s)
    (schema_drift s) (schema_drift_seq s).

Definition set_etl_checkpoints (rows : list ETLCheckpoint.t) (seq : Z)
    (s : Session) : Session :=
  mkSession (utc s) (faults s) (statements s) (uuids s) (uuid_count s)
    rows seq (etl_runs s) (etl_runs_seq s) (schema_drift s) (schema_drift_seq s).

Definition set_etl_runs (rows : list ETLRun.t) (seq : Z) (s : Session) : Session :=
  mkSession (utc s) (faults s) (statements s) (uuids s) (uuid_count s)
    (etl_checkpoints s) (etl_checkpoints_seq s) rows seq
    (schema_drift s) (schema_drift_seq s).

Definition set_schema_drift (rows : list SchemaDrift.t) (seq : Z)
    (s : Session) : Session :=
  mkSession (utc s) (faults s) (statements s) (uuids s) (uuid_count s)
    (etl_checkpoints s) (etl_checkpoints_seq s) (etl_runs s) (etl_runs_seq s)
    rows seq.

Definition utcnow : M Session Q := fun s =>
  let '(t, c) := clock_read (utc s) in (Ok t, set_utc c s).

Definition uuid4 : M Session string := fun s =>
  (Ok (uuids s (uuid_count s)), set_uuid_count (S (uuid_count s)) s).

(** One statement sent to the database: it goes through, or raises the
    fault the oracle holds for it. *)
Definition db_statement : M Session unit := fun s =>
  let s' := set_statements (S (statements s)) s in
  match faults s (statements s) with
  | Some e => (Raise e, s')
  | None => (Ok tt, s')
  end.

(** The session with another fault oracle. *)
Definition with_faults (f : nat -> option exn) (s : Session) : Session :=
  mkSession (utc s) f (statements s) (uuids s) (uuid_count s)
    (etl_checkpoints s) (etl_checkpoints_seq s) (etl_runs s) (etl_runs_seq s)
    (schema_drift s) (schema_drift_seq s).

(** *** The transaction of the session

    The statements of the load functions go through the same SQLAlchemy
    session as those of the checkpoint manager, the run tracker and the drift
    detector.  When one of them fails and nothing rolls the session back, the
    transaction stays aborted and every later statement of the session
    fails.  [X] is what the load functions act on: [pending_error] is the
    error that a statement of the session meets in the state the load
    functions left, and [rollback] is [Session.rollback()]. *)
Class SessionState (X : Type) := {
  pending_error : X -> option exn;
  rollback : X -> X
}.

(** ** Checkpoint manager ([services/checkpoint.py]) *)

Module CheckpointManager.
Import ETLCheckpoint.
Local Open Scope py_scope.

Definition get_checkpoint (source_type : SourceType) : M Session (option t) :=
  try_except
    (db_statement ;;;
     s <~ get ;;
     ret (List.find (fun c => bool_decide (ETLCheckpoint.source_type c = source_type))
            (etl_checkpoints s)))
    (fun e => raise (mkExn CheckpointError ("Failed to get checkpoint: " +:+ exn_str e))).

Definition get_last_source_id (source_type : SourceType) : M Session (option string) :=
  checkpoint <~ get_checkpoint source_type ;;
  ret (match checkpoint with Some c => last_source_id c | None => None end).

Definition get_last_offset (source_type : SourceType) : M Session Z :=
  checkpoint <~ get_checkpoint source_type ;;
  ret (match checkpoint with Some c => last_offset c | None => 0 end).

(** [db.add(checkpoint); db.commit()]: the INSERT takes the next value of the
    sequence and the column default of [updated_at]. *)
Definition commit_new (c : t) : M Session t :=
  db_statement ;;;
  stamp <~ utcnow ;;
  s <~ get ;;
  let row := mk (etl_checkpoints_seq s) (source_type c) (last_source_id c)
               (last_processed_at c) (last_offset c) (checkpoint_metadata c) stamp in
  modify (set_etl_checkpoints (etl_checkpoints s ++ [row]) (etl_checkpoints_seq s + 1)) ;;;
  ret row.

(** [db.commit()] with a modified object: an UPDATE of the row with that
    primary key, which also fires [onupdate] of [updated_at]. *)
Definition commit_changed (c : t) : M Session t :=
  db_statement ;;;
  stamp <~ utcnow ;;
  s <~ get ;;
  let row := mk (id c) (source_type c) (last_source_id c)
               (last_processed_at c) (last_offset c) (checkpoint_metadata c) stamp in
  modify (set_etl_checkpoints
            (map (fun r => if bool_decide (id r = id c) then row else r) (etl_checkpoints s))
            (etl_checkpoints_seq s)) ;;;
  ret row.

(** [db.refresh(checkpoint)] *)
Definition refresh (c : t) : M Session t :=
  db_statement ;;; ret c.

Definition update_checkpoint (source_type : SourceType)
    (last_source_id : option string) (last_offset : option Z)
    (metadata : option pydict) : M Session t :=
  try_except
    (checkpoint <~ get_checkpoint source_type ;;
     checkpoint <~
       match checkpoint with
       | None =>
           now <~ utcnow ;;
           commit_new (mk 0 source_type last_source_id (Some now)
                         (match last_offset with
                          | Some o => if o =? 0 then 0 else o
                          | None => 0
                          end)
                         metadata now)
       | Some c =>
           let c := match last_source_id with
                    | Some v => mk (id c) (ETLCheckpoint.source_type c) (Some v)
                                  (last_processed_at c) (ETLCheckpoint.last_offset c)
                                  (checkpoint_metadata c) (updated_at c)
                    | None => c
                    end in
           let c := match last_offset with
                    | Some v => mk (id c) (ETLCheckpoint.source_type c)
                                  (ETLCheckpoint.last_source_id c)
                                  (last_processed_at c) v
                                  (checkpoint_metadata c) (updated_at c)
                    | None => c
                    end in
           let c := match metadata with
                    | Some v => mk (id c) (ETLCheckpoint.source_type c)
                                  (ETLCheckpoint.last_source_id c)
                                  (last_processed_at c) (ETLCheckpoint.last_offset c)
                                  (Some v) (updated_at c)
                    | None => c
                    end in
           now <~ utcnow ;;
           commit_changed (mk (id c) (ETLCheckpoint.source_type c)
                             (ETLCheckpoint.last_source_id c) (Some now)
                             (ETLCheckpoint.last_offset c)
                             (checkpoint_metadata c) (updated_at c))
       end ;;
     refresh checkpoint)
    (fun e =>
       raise (mkExn CheckpointError ("Failed to update checkpoint: " +:+ exn_str e))).

Definition reset_checkpoint (source_type : SourceType) : M Session unit :=
  try_except
    (checkpoint <~ get_checkpoint source_type ;;
     match checkpoint with
     | Some c =>
         commit_changed (mk (id c) (ETLCheckpoint.source_type c) None None 0 None
                           (updated_at c)) ;;;
         ret tt
     | None => ret tt
     end)
    (fun e =>
       raise (mkExn CheckpointError ("Failed to reset checkpoint: " +:+ exn_str e))).

(** One value of the dictionary [get_all_checkpoints] returns. *)
Record CheckpointSummary := mkSummary {
  summary_last_source_id : option string;
  summary_last_offset : Z;
  summary_last_processed_at : option string;
  summary_metadata : option pydict;
  summary_updated_at : option string
}.

Section Summaries.
Context `{PyRuntime}.

Definition summary_of (cp : t) : CheckpointSummary :=
  mkSummary (last_source_id cp) (last_offset cp)
    (datetime_isoformat <$> last_processed_at cp)
    (checkpoint_metadata cp)
    (Some (datetime_isoformat (updated_at cp))).

(** The dict comprehension runs over the rows in the order the query
    returns them, here the order of the table; a later row with the same
    source type replaces the entry of an earlier one. *)
Definition get_all_checkpoints : M Session (gmap string CheckpointSummary) :=
  try_except
    (db_statement ;;;
     s <~ get ;;
     ret (foldl (fun d cp => <[SourceType_value (source_type cp) := summary_of cp]> d)
            ∅ (etl_checkpoints s)))
    (fun e => raise (mkExn CheckpointError ("Failed to get checkpoints: " +:+ exn_str e))).

End Summaries.

End CheckpointManager.

(** [BaseExtractor.should_process], for an extractor of the given source
    type ([ingestion/base.py]). *)
Definition should_process (source_type : SourceType) (source_id : string)
    : M Session bool :=
  (last_id <~ CheckpointManager.get_last_source_id source_type ;;
   match last_id with
   | None => ret true
   | Some last_id => ret (String.ltb last_id source_id)
   end)%py.

(** ** Data tables and the extractors' dual upsert
       ([ingestion/csv_extractor.py], [api_extractor.py], [rss_extractor.py],
       [coingecko_extractor.py]) *)

(** A row of [raw_api_data], [raw_csv_data] or [raw_rss_data]; the columns
    that only one of the three tables has are optional. *)
Module RawData.
Record t := mk {
  id : Z;
  source_id : string;
  raw_payload : pydict;
  ingested_at : Q;
  checksum : option string;
  source_file : option pyval;
  row_number : option pyval;
  feed_url : option string
}.
End RawData.

(** A row of [unified_data]; [columns] holds the normalized fields
    ([title] ... [extra_data]) by column name. *)
Module UnifiedData.
Record t := mk {
  id : Z;
  source_type : SourceType;
  source_id : string;
  columns : pydict;
  raw_id : Z;
  created_at : Q;
  updated_at : Q
}.
End UnifiedData.

(** A table with the sequence that feeds its primary key. *)
Record Table (Row : Type) := mkTable { rows : list Row; seq : Z }.
Arguments mkTable {Row} rows seq.
Arguments rows {Row} t.
Arguments seq {Row} t.

(** A fault of a data statement: the exception, and whether it leaves the
    transaction of the session aborted.  An error of the database does (a
    value it refuses, a lost connection); an error that SQLAlchemy raises
    before the statement is sent (a column the table does not have, a value
    it cannot bind) does not. *)
Record Fault := mkFault { fault_error : exn; fault_aborts : bool }.

(** What the load functions act on: the data tables, the UTC clock, the
    faults that the statements sent to the database meet, one entry per
    statement, and the state of the transaction. *)
Record Store := mkStore {
  store_utc : Clock;
  store_faults : nat -> option Fault;
  store_statements : nat;
  transaction_aborted : bool;
  raw_api_data : Table RawData.t;
  raw_csv_data : Table RawData.t;
  raw_rss_data : Table RawData.t;
  unified_data : Table UnifiedData.t
}.

Definition store_utcnow : M Store Q := fun st =>
  let '(t, c) := clock_read (store_utc st) in
  (Ok t, mkStore c (store_faults st) (store_statements st) (transaction_aborted st)
           (raw_api_data st) (raw_csv_data st) (raw_rss_data st) (unified_data st)).

(** What a statement meets in an aborted transaction, until the session is
    rolled back: PostgreSQL's "current transaction is aborted", which
    SQLAlchemy raises as [InternalError], or SQLAlchemy's own
    [PendingRollbackError]. *)
Definition in_failed_transaction : exn :=
  mkExn Exception_
    "current transaction is aborted, commands ignored until end of transaction block".

(** [String(n)] columns: PostgreSQL refuses a longer string ([DataError]). *)
Definition value_too_long (n : nat) : exn :=
  mkExn Exception_ ("value too long for type character varying(" +:+ pretty n +:+ ")").

Definition sent (aborted : bool) (st : Store) : Store :=
  mkStore (store_utc st) (store_faults st) (S (store_statements st))
    (transaction_aborted st || aborted)
    (raw_api_data st) (raw_csv_data st) (raw_rss_data st) (unified_data st).

(** [self.db.execute(stmt)] for an upsert whose strings have the lengths
    [lengths], each with the bound of its column.  What the statement does
    to its table is applied by the caller once the statement has passed. *)
Definition db_execute (lengths : list (nat * nat)) : M Store unit := fun st =>
  if transaction_aborted st then (Raise in_failed_transaction, sent false st)
  else
    match store_faults st (store_statements st) with
    | Some fault => (Raise (fault_error fault), sent (fault_aborts fault) st)
    | None =>
        match List.find (fun l => (l.2 <? l.1)%nat) lengths with
        | Some l => (Raise (value_too_long l.2), sent true st)
        | None => (Ok tt, sent false st)
        end
    end.

(** [self.db.commit()] after such a statement: [written] makes the rows
    visible; when the commit fails the rows are gone and [discarded] is what
    stays (the sequence does not go back). *)
Definition db_commit (written discarded : Store -> Store) : M Store unit := fun st =>
  match store_faults st (store_statements st) with
  | Some fault => (Raise (fault_error fault), discarded (sent (fault_aborts fault) st))
  | None => (Ok tt, written (sent false st))
  end.

(** [Session.rollback()] *)
Definition store_rollback (st : Store) : Store :=
  mkStore (store_utc st) (store_faults st) (store_statements st) false
    (raw_api_data st) (raw_csv_data st) (raw_rss_data st) (unified_data st).

#[global] Instance store_session : SessionState Store :=
  {| pending_error := fun st =>
       if transaction_aborted st then Some in_failed_transaction else None;
     rollback := store_rollback |}.

(** *** Calendar date of a clock reading *)

(** Days since 1970-01-01 to (year, month, day) of the proleptic Gregorian
    calendar. *)
Definition civil_from_days (z : Z) : Z * Z * Z :=
  let z := z + 719468 in
  let era := z / 146097 in
  let doe := z - era * 146097 in
  let yoe := (doe - doe / 1460 + doe / 36524 - doe / 146096) / 365 in
  let doy := doe - (365 * yoe + yoe / 4 - yoe / 100) in
  let mp := (5 * doy + 2) / 153 in
  let d := doy - (153 * mp + 2) / 5 + 1 in
  let m := if mp <? 10 then mp + 3 else mp - 9 in
  let y := yoe + era * 400 in
  (if m <=? 2 then y + 1 else y, m, d).

Definition zero_pad (width : nat) (n : Z) : string :=
  let digits := pretty n in
  String.concat "" (replicate (width - String.length digits) "0") +:+ digits.

(** [t.strftime("%Y-%m-%d")] for a UTC time given in seconds since the epoch *)
Definition strftime_ymd (t : Q) : string :=
  let '(y, m, d) := civil_from_days (Qfloor (t / 86400)) in
  zero_pad 4 y +:+ "-" +:+ zero_pad 2 m +:+ "-" +:+ zero_pad 2 d.

(** *** Extractors *)

Inductive Extractor :=
  | CSVExtractor
  | APIExtractor
  | RSSExtractor (feed_url : string)
  | CoinGeckoExtractor.

Definition source_type_of (x : Extractor) : SourceType :=
  match x with
  | CSVExtractor => CSV
  | APIExtractor => API
  | RSSExtractor _ => RSS
  | CoinGeckoExtractor => RSS
  end.

Definition raw_table (x : Extractor) (st : Store) : Table RawData.t :=
  match x with
  | CSVExtractor => raw_csv_data st
  | APIExtractor => raw_api_data st
  | RSSExtractor _ | CoinGeckoExtractor => raw_rss_data st
  end.

Definition set_raw_table (x : Extractor) (t : Table RawData.t) (st : Store) : Store :=
  match x with
  | CSVExtractor =>
      mkStore (store_utc st) (store_faults st) (store_statements st)
        (transaction_aborted st) (raw_api_data st) t (raw_rss_data st) (unified_data st)
  | APIExtractor =>
      mkStore (store_utc st) (store_faults st) (store_statements st)
        (transaction_aborted st) t (raw_csv_data st) (raw_rss_data st) (unified_data st)
  | RSSExtractor _ | CoinGeckoExtractor =>
      mkStore (store_utc st) (store_faults st) (store_statements st)
        (transaction_aborted st) (raw_api_data st) (raw_csv_data st) t (unified_data st)
  end.

Definition set_unified_data (t : Table UnifiedData.t) (st : Store) : Store :=
  mkStore (store_utc st) (store_faults st) (store_statements st)
    (transaction_aborted st) (raw_api_data st) (raw_csv_data st) (raw_rss_data st) t.

(** The same rows with the sequence where a discarded statement left it. *)
Definition sequence_at {Row} (n : Z) (t : Table Row) : Table Row := mkTable (rows t) n.

(** The length of a value that goes into a [String(n)] column, where the
    value is a string. *)
Definition str_length (v : option pyval) : nat :=
  match v with
  | Some (PyStr s) => String.length s
  | _ => O
  end.

(** The strings of a raw row, with the bounds of [core/models.py]. *)
Definition raw_lengths (values : RawData.t) : list (nat * nat) :=
  [(String.length (RawData.source_id values), 255%nat);
   (from_option String.length O (RawData.checksum values), 64%nat);
   (str_length (RawData.source_file values), 255%nat);
   (from_option String.length O (RawData.feed_url values), 512%nat)].

(** The strings of a unified row. *)
Definition unified_lengths (source_id : string) (transformed_data : pydict)
    : list (nat * nat) :=
  [(String.length source_id, 255%nat);
   (str_length (transformed_data !! "title"), 500%nat);
   (str_length (transformed_data !! "author"), 255%nat);
   (str_length (transformed_data !! "category"), 255%nat);
   (str_length (transformed_data !! "url"), 1024%nat)].

Section Extractors.
Context `{PyRuntime}.
Local Open Scope py_scope.

(** [BaseExtractor.compute_checksum] *)
Definition compute_checksum (data : pydict) : string :=
  sha256_hexdigest (json_dumps data).

Definition get_source_id (x : Extractor) (raw_data : pydict) : M Store string :=
  match x with
  | CSVExtractor =>
      let row_num := dict_get_default raw_data "_row_number" (PyInt 0) in
      let source_file := dict_get_default raw_data "_source_file" (PyStr "unknown") in
      ret (py_str source_file +:+ ":" +:+ py_str row_num)
  | APIExtractor =>
      let coin_id := dict_get_default raw_data "id" (PyStr "") in
      now <~ store_utcnow ;;
      let date_str := strftime_ymd now in
      ret ("coinpaprika:" +:+ py_str coin_id +:+ ":" +:+ date_str)
  | RSSExtractor _ =>
      ret (py_str (dict_get_default raw_data "guid" (PyStr (compute_checksum raw_data))))
  | CoinGeckoExtractor =>
      let coin_id := dict_get_default raw_data "id" (PyStr "") in
      now <~ store_utcnow ;;
      let date_str := strftime_ymd now in
      ret ("coingecko:" +:+ py_str coin_id +:+ ":" +:+ date_str)
  end.

(** [k.startswith("_")] *)
Definition starts_with_underscore (k : string) : bool :=
  match k with
  | String c _ => bool_decide (c = "_"%char)
  | EmptyString => false
  end.

Definition COINGECKO_FEED_URL : string :=
  "https://api.coingecko.com/api/v3/coins/markets".

(** [INSERT ... ON CONFLICT (source_id) DO UPDATE SET raw_payload, checksum,
    ingested_at ... RETURNING id].  The sequence advances whether or not the
    row was there. *)
Definition upsert_raw (values : RawData.t) (set_ingested_at : Q)
    (t : Table RawData.t) : Z * Table RawData.t :=
  let same r := String.eqb (RawData.source_id r) (RawData.source_id values) in
  match List.find same (rows t) with
  | Some existing =>
      let update r :=
        if same r then
          RawData.mk (RawData.id r) (RawData.source_id r)
            (RawData.raw_payload values) set_ingested_at (RawData.checksum values)
            (RawData.source_file r) (RawData.row_number r) (RawData.feed_url r)
        else r in
      (RawData.id existing, mkTable (map update (rows t)) (seq t + 1))
  | None =>
      let row :=
        RawData.mk (seq t) (RawData.source_id values) (RawData.raw_payload values)
          (RawData.ingested_at values) (RawData.checksum values)
          (RawData.source_file values) (RawData.row_number values)
          (RawData.feed_url values) in
      (seq t, mkTable (rows t ++ [row]) (seq t + 1))
  end.

(** The statement that [load_raw] builds: the values of the INSERT, and the
    [ingested_at] of the UPDATE. *)
Definition raw_statement (x : Extractor) (raw_data : pydict) : M Store (RawData.t * Q) :=
  source_id <~ get_source_id x raw_data ;;
  let checksum := compute_checksum raw_data in
  let payload :=
    match x with
    | CSVExtractor => filter (fun kv => negb (starts_with_underscore kv.1) = true) raw_data
    | _ => raw_data
    end in
  let source_file :=
    match x with
    | CSVExtractor => Some (dict_get_default raw_data "_source_file" (PyStr "unknown"))
    | _ => None
    end in
  let row_number :=
    match x with
    | CSVExtractor => Some (dict_get_default raw_data "_row_number" (PyInt 0))
    | _ => None
    end in
  let feed_url :=
    match x with
    | RSSExtractor url => Some url
    | CoinGeckoExtractor => Some COINGECKO_FEED_URL
    | _ => None
    end in
  ingested_at <~ store_utcnow ;;
  set_ingested_at <~ store_utcnow ;;
  ret (RawData.mk 0 source_id payload ingested_at (Some checksum)
         source_file row_number feed_url, set_ingested_at).

Definition load_raw (x : Extractor) (raw_data : pydict) : M Store Z :=
  stmt <~ raw_statement x raw_data ;;
  (* result = self.db.execute(stmt) *)
  db_execute (raw_lengths stmt.1) ;;;
  st <~ get ;;
  let '(raw_id, t) := upsert_raw stmt.1 stmt.2 (raw_table x st) in
  (* self.db.commit() *)
  db_commit (set_raw_table x t)
    (set_raw_table x (sequence_at (seq t) (raw_table x st))) ;;;
  (* return result.scalar_one() *)
  ret raw_id.

(** [INSERT INTO unified_data ... ON CONFLICT ON CONSTRAINT uq_unified_source
    DO UPDATE SET raw_id, updated_at, <transformed columns> RETURNING id] *)
Definition upsert_unified (source_type : SourceType) (source_id : string)
    (raw_id : Z) (transformed_data : pydict) (set_updated_at created updated : Q)
    (t : Table UnifiedData.t) : Z * Table UnifiedData.t :=
  let same r :=
    bool_decide (UnifiedData.source_type r = source_type)
    && String.eqb (UnifiedData.source_id r) source_id in
  match List.find same (rows t) with
  | Some existing =>
      let update r :=
        if same r then
          UnifiedData.mk (UnifiedData.id r) (UnifiedData.source_type r)
            (UnifiedData.source_id r) (transformed_data ∪ UnifiedData.columns r)
            raw_id (UnifiedData.created_at r) set_updated_at
        else r in
      (UnifiedData.id existing, mkTable (map update (rows t)) (seq t + 1))
  | None =>
      let row := UnifiedData.mk (seq t) source_type source_id transformed_data
                   raw_id created updated in
      (seq t, mkTable (rows t ++ [row]) (seq t + 1))
  end.

(** The four extractors share the text of [load_unified].  Neither load
    function has a handler: what [execute] or [commit] raises comes out as it
    is, and the session is not rolled back. *)
Definition load_unified (x : Extractor) (transformed_data : pydict) (raw_id : Z)
    : M Store Z :=
  let source_id := py_str (PyInt raw_id) in
  set_updated_at <~ store_utcnow ;;
  created <~ store_utcnow ;;
  updated <~ store_utcnow ;;
  (* result = self.db.execute(stmt) *)
  db_execute (unified_lengths source_id transformed_data) ;;;
  st <~ get ;;
  let '(unified_id, t) :=
    upsert_unified (source_type_of x) source_id raw_id transformed_data
      set_updated_at created updated (unified_data st) in
  (* self.db.commit() *)
  db_commit (set_unified_data t)
    (set_unified_data (sequence_at (seq t) (unified_data st))) ;;;
  (* return result.scalar_one() *)
  ret unified_id.

(** [load_raw] followed by [load_unified], as [run] chains them. *)
Definition dual_upsert (x : Extractor) (record : pydict * pydict) : M Store Z :=
  raw_id <~ load_raw x record.1 ;;
  load_unified x record.2 raw_id.

Fixpoint dual_upsert_all (x : Extractor) (records : list (pydict * pydict))
    : M Store unit :=
  match records with
  | [] => ret tt
  | record :: rest => dual_upsert x record ;;; dual_upsert_all x rest
  end.

End Extractors.

(** The (source_type, source_id) pairs of the unified table, row by row. *)
Definition unified_keys (st : Store) : list (SourceType * string) :=
  map (fun r => (UnifiedData.source_type r, UnifiedData.source_id r))
    (rows (unified_data st)).

(** A runtime for closed examples.  [str] is exact on [None], booleans,
    integers and strings, the only values the examples format; the other
    library functions are stand-ins with the right type. *)
Definition example_str (v : pyval) : string :=
  match v with
  | PyNone => "None"
  | PyBool true => "True"
  | PyBool false => "False"
  | PyInt n => pretty n
  | PyStr s => s
  | PyFloat _ => "<float>"
  | PyList _ => "<list>"
  | PyDict _ => "<dict>"
  | PyDatetime t => strftime_ymd t
  | PyObject type_name => "<" +:+ type_name +:+ ">"
  end.

(** ** Schema drift detector ([services/schema_drift.py]) *)

Module SchemaDriftDetector.

Record DriftResult := mkDrift {
  field_name : string;
  drift_type : string;
  expected_type : option string;
  actual_type : option string;
  confidence_score : Q;
  sample_value : option string
}.

(** The class attribute [EXPECTED_SCHEMAS] as the module defines it. *)
Definition EXPECTED_SCHEMAS : gmap string (gmap string string) :=
  {[ "api" := {[ "id" := "str"; "title" := "str"; "description" := "str";
                 "content" := "str"; "author" := "str"; "category" := "str";
                 "tags" := "list"; "url" := "str"; "created_at" := "datetime";
                 "updated_at" := "datetime" ]};
     "csv" := {[ "id" := "str"; "name" := "str"; "description" := "str";
                 "category" := "str"; "value" := "float"; "date" := "datetime";
                 "active" := "bool" ]};
     "rss" := {[ "guid" := "str"; "title" := "str"; "description" := "str";
                 "link" := "str"; "author" := "str"; "pubDate" := "datetime";
                 "category" := "str" ]} ]}.

Definition SCHEMA_DRIFT_CONFIDENCE_THRESHOLD : Q := 8 # 10.

(** A detector and what it reads: the threshold, and [EXPECTED_SCHEMAS] as it
    stands when the detector is used.  That dictionary is an attribute of the
    class, one object for all detectors; [update_expected_schema] writes an
    entry of it, for every detector at once.  [__init__] gives the dictionary
    as the class defines it. *)
Record SchemaDriftDetector := mkDetector {
  schemas : gmap string (gmap string string);
  confidence_threshold : Q
}.

Definition __init__ (confidence_threshold : option Q) : SchemaDriftDetector :=
  mkDetector EXPECTED_SCHEMAS
    (match confidence_threshold with
     | Some v => if Qeq_bool v 0 then SCHEMA_DRIFT_CONFIDENCE_THRESHOLD else v
     | None => SCHEMA_DRIFT_CONFIDENCE_THRESHOLD
     end).

Definition _get_python_type (value : pyval) : string :=
  match value with
  | PyNone => "null"
  | PyBool _ => "bool"
  | PyInt _ => "int"
  | PyFloat _ => "float"
  | PyStr _ => "str"
  | PyList _ => "list"
  | PyDict _ => "dict"
  | PyDatetime _ => "datetime"
  | PyObject type_name => type_name
  end.

Definition compatible_pairs : list (string * string) :=
  [("int", "float"); ("float", "int"); ("str", "int"); ("str", "float");
   ("datetime", "str"); ("list", "str")].

Definition _types_compatible (expected : option string) (actual : string) : bool :=
  match expected with
  | None => false
  | Some expected =>
      if String.eqb expected actual then true
      else if bool_decide ((expected, actual) ∈ compatible_pairs)
              || bool_decide ((actual, expected) ∈ compatible_pairs) then true
      else false
  end.

Section Detector.
Context `{PyRuntime}.

(** The loop of [_fuzzy_match_field] over the fields in iteration order. *)
Fixpoint fuzzy_match_loop (field_name : string) (fields : list string)
    (best_match : option string) (best_score : Q) : option string * Q :=
  match fields with
  | [] => (best_match, best_score)
  | expected_field :: rest =>
      if String.eqb (str_lower field_name) (str_lower expected_field) then
        (Some expected_field, 1%Q)
      else
        let score :=
          SequenceMatcher_ratio (str_lower field_name) (str_lower expected_field) in
        if Qltb best_score score then fuzzy_match_loop field_name rest (Some expected_field) score
        else fuzzy_match_loop field_name rest best_match best_score
  end.

Definition _fuzzy_match_field (field_name : string) (expected_fields : gset string)
    : option string * Q :=
  fuzzy_match_loop field_name (elements expected_fields) None 0%Q.

(** [str(data.get(field))[:200] if data.get(field) else None] *)
Definition sample_of (data : pydict) (field : string) : option string :=
  if truthy (dict_get data field) then Some (str_prefix 200 (py_str (dict_get data field)))
  else None.

(** [x if match else y] *)
Definition match_truthy (m : option string) : bool :=
  match m with
  | Some s => negb (String.eqb s "")
  | None => false
  end.

Definition detect_drift (self : SchemaDriftDetector) (source_type : SourceType)
    (data : pydict) : list DriftResult :=
  let source_key := SourceType_value source_type in
  let expected_schema := default ∅ (schemas self !! source_key) in
  let expected_fields : gset string := dom expected_schema in
  let actual_fields : gset string := dom data in
  (* Check for new fields *)
  let new_fields :=
    map (fun field =>
           let '(m, score) := _fuzzy_match_field field expected_fields in
           if Qle_bool (confidence_threshold self) score then
             mkDrift field "renamed_field"
               (match m with Some m => expected_schema !! m | None => None end)
               (Some (_get_python_type (dict_get data field)))
               score (sample_of data field)
           else
             mkDrift field "new_field" None
               (Some (_get_python_type (dict_get data field)))
               (if match_truthy m then 1 - score else 1)%Q
               (sample_of data field))
      (elements (actual_fields ∖ expected_fields)) in
  (* Check for missing fields *)
  let missing_fields :=
    flat_map (fun field =>
           let '(m, score) := _fuzzy_match_field field actual_fields in
           if Qltb score (confidence_threshold self) then
             [mkDrift field "missing_field" (expected_schema !! field) None
                (if match_truthy m then 1 - score else 1)%Q None]
           else [])
      (elements (expected_fields ∖ actual_fields)) in
  (* Check for type changes in existing fields *)
  let type_changes :=
    flat_map (fun field =>
           let expected_type := expected_schema !! field in
           let actual_type := _get_python_type (dict_get data field) in
           if negb (_types_compatible expected_type actual_type) then
             [mkDrift field "type_change" expected_type (Some actual_type) 1%Q
                (sample_of data field)]
           else [])
      (elements (expected_fields ∩ actual_fields)) in
  new_fields ++ missing_fields ++ type_changes.

End Detector.

(** [record_drifts]: the rows are added to the session and committed in one
    go; a commit that fails is rolled back and logged, not raised. *)
Definition to_row (source_type : SourceType) (pk : Z) (detected_at : Q)
    (drift : DriftResult) : SchemaDrift.t :=
  SchemaDrift.mk pk source_type detected_at (field_name drift) (expected_type drift)
    (actual_type drift) (drift_type drift) (confidence_score drift)
    (sample_value drift) false None.

Local Open Scope py_scope.

Fixpoint insert_drifts (source_type : SourceType) (drifts : list DriftResult)
    : M Session (list SchemaDrift.t) :=
  match drifts with
  | [] => ret []
  | drift :: rest =>
      detected_at <~ utcnow ;;
      s <~ get ;;
      let row := to_row source_type (schema_drift_seq s) detected_at drift in
      modify (set_schema_drift (schema_drift s ++ [row]) (schema_drift_seq s + 1)) ;;;
      rows <~ insert_drifts source_type rest ;;
      ret (row :: rows)
  end.

Definition record_drifts (source_type : SourceType) (drifts : list DriftResult)
    : M Session (list SchemaDrift.t) :=
  match drifts with
  | [] => ret []
  | _ =>
      try_except
        (db_statement ;;; insert_drifts source_type drifts)
        (fun e => ret (map (to_row source_type 0 0%Q) drifts))
  end.

(** [get_unresolved_drifts] and [resolve_drift] have no handler of their
    own: a fault of the database comes out as it is. *)

(** [ORDER BY detected_at DESC] *)
Definition newer_first (a b : SchemaDrift.t) : Prop :=
  (SchemaDrift.detected_at b <= SchemaDrift.detected_at a)%Q.

#[global] Instance newer_first_dec : RelDecision newer_first.
Proof.
  intros a b. unfold newer_first.
  destruct (Qlt_le_dec (SchemaDrift.detected_at a) (SchemaDrift.detected_at b)) as [Hlt|Hle].
  - right. by apply Qlt_not_le.
  - by left.
Defined.

(** Rows with the same [detected_at] come in an order the database
    chooses; the model keeps them in the order of the table. *)
Definition get_unresolved_drifts (source_type : option SourceType)
    : M Session (list SchemaDrift.t) :=
  db_statement ;;;
  s <~ get ;;
  let query := filter (fun d => SchemaDrift.resolved d = false) (schema_drift s) in
  let query :=
    match source_type with
    | Some st => filter (fun d => SchemaDrift.source_type d = st) query
    | None => query
    end in
  ret (merge_sort newer_first query).

Definition resolve_drift (drift_id : Z) : M Session bool :=
  db_statement ;;;
  s <~ get ;;
  match List.find (fun d => bool_decide (SchemaDrift.id d = drift_id)) (schema_drift s) with
  | Some drift =>
      now <~ utcnow ;;
      db_statement ;;;
      s <~ get ;;
      let drift :=
        SchemaDrift.mk (SchemaDrift.id drift) (SchemaDrift.source_type drift)
          (SchemaDrift.detected_at drift) (SchemaDrift.field_name drift)
          (SchemaDrift.expected_type drift) (SchemaDrift.actual_type drift)
          (SchemaDrift.drift_type drift) (SchemaDrift.confidence_score drift)
          (SchemaDrift.sample_value drift) true (Some now) in
      modify (set_schema_drift
                (map (fun r => if bool_decide (SchemaDrift.id r = SchemaDrift.id drift)
                               then drift else r) (schema_drift s))
                (schema_drift_seq s)) ;;;
      ret true
  | None => ret false
  end.

End SchemaDriftDetector.

(** ** A runtime for closed examples *)

(** [difflib.SequenceMatcher(None, a, b).ratio()] without junk: the longest
    common block (earliest in [a], then earliest in [b]) is matched, then
    the pieces left and right of it, and the ratio is twice the number of
    matched characters over the total length. *)
Module Difflib.

Fixpoint common_prefix (a b : list ascii) : nat :=
  match a, b with
  | x :: a', y :: b' => if bool_decide (x = y) then S (common_prefix a' b') else O
  | _, _ => O
  end.

(** Best block starting at position [i] of [a] (its suffix [a]) against the
    suffixes of [b] from position [j] on; [best] is (i, j, k). *)
Fixpoint scan_b (i j : nat) (a b : list ascii) (best : nat * nat * nat)
    : nat * nat * nat :=
  match b with
  | [] => best
  | _ :: b' =>
      let k := common_prefix a b in
      let best := if (best.2 <? k)%nat then (i, j, k) else best in
      scan_b i (S j) a b' best
  end.

Fixpoint scan_a (i : nat) (a b : list ascii) (best : nat * nat * nat)
    : nat * nat * nat :=
  match a with
  | [] => best
  | _ :: a' => scan_a (S i) a' b (scan_b i O a b best)
  end.

Definition find_longest_match (a b : list ascii) : nat * nat * nat :=
  scan_a O a b (O, O, O).

Fixpoint matches (fuel : nat) (a b : list ascii) : nat :=
  match fuel with
  | O => O
  | S fuel =>
      let '(i, j, k) := find_longest_match a b in
      if (k =? 0)%nat then O
      else (matches fuel (take i a) (take j b) + k
            + matches fuel (drop (i + k) a) (drop (j + k) b))%nat
  end.

Definition ratio (a b : string) : Q :=
  let la := list_ascii_of_string a in
  let lb := list_ascii_of_string b in
  let total := (length la + length lb)%nat in
  match total with
  | O => 1%Q
  | S n => (2 * Z.of_nat (matches (S (length la)) la lb)) # Pos.of_succ_nat n
  end.

End Difflib.

Definition ascii_lower (c : ascii) : ascii :=
  let n := nat_of_ascii c in
  if ((65 <=? n) && (n <=? 90))%nat then ascii_of_nat (n + 32) else c.

Fixpoint example_lower (s : string) : string :=
  match s with
  | EmptyString => EmptyString
  | String c s' => String (ascii_lower c) (example_lower s')
  end.

(** Exact for ASCII field names and for the values the examples format;
    serialisation, hashing, traceback text, date parsing and tag splitting
    are placeholders, which the examples do not exercise. *)
Definition example_runtime : PyRuntime :=
  {| py_str := example_str;
     str_lower := example_lower;
     SequenceMatcher_ratio := Difflib.ratio;
     json_dumps := fun d => String.concat "," (map fst (map_to_list d));
     sha256_hexdigest := fun s => "sha256:" +:+ s;
     format_exc := fun e => "Traceback (most recent call last): " +:+ exn_str e;
     datetime_isoformat := strftime_ymd;
     strptime_formats := fun _ => None;
     split_strip := fun s => [s] |}.

(** ** Run tracker ([services/etl_tracker.py]) *)

(** The tracker has no error handling of its own: what the commit or the
    refresh of [start_run] and [complete_run] raises comes out as it is, and
    nothing rolls the session back.  The queries of [get_run] are read off
    the table. *)
Module ETLRunTracker.
Import ETLRun.
Local Open Scope py_scope.

Definition start_run (source_type : SourceType) (metadata : option pydict)
    : M Session t :=
  run_id <~ uuid4 ;;
  started_at <~ utcnow ;;
  (* self.db.add(run); self.db.commit() *)
  db_statement ;;;
  s <~ get ;;
  let run := mk (etl_runs_seq s) run_id source_type RUNNING started_at None None
               0 0 0 0 0 None None None
               (match metadata with
                | Some m => if bool_decide (m = ∅) then ∅ else m
                | None => ∅
                end) in
  modify (set_etl_runs (etl_runs s ++ [run]) (etl_runs_seq s + 1)) ;;;
  (* self.db.refresh(run) *)
  db_statement ;;;
  ret run.

Section Tracker.
Context `{PyRuntime}.

Definition complete_run (run : t) (status : RunStatus)
    (records_extracted records_transformed records_loaded records_skipped
       records_failed : Z)
    (error : option exn) (checkpoint_data : option pydict) : M Session t :=
  completed_at <~ utcnow ;;
  let run :=
    mk (id run) (run_id run) (source_type run) status (started_at run)
      (Some completed_at) (Some (completed_at - started_at run)%Q)
      records_extracted records_transformed records_loaded records_skipped
      records_failed
      (match error with Some e => Some (exn_str e) | None => error_message run end)
      (match error with Some e => Some (format_exc e) | None => error_traceback run end)
      (match checkpoint_data with
       | Some d => if bool_decide (d = ∅) then ETLRun.checkpoint_data run else Some d
       | None => ETLRun.checkpoint_data run
       end)
      (run_metadata run) in
  (* self.db.commit() *)
  db_statement ;;;
  s <~ get ;;
  modify (set_etl_runs
            (map (fun r => if bool_decide (id r = id run) then run else r) (etl_runs s))
            (etl_runs_seq s)) ;;;
  (* self.db.refresh(run) *)
  db_statement ;;;
  ret run.

End Tracker.

Definition get_run (run_id : string) : M Session (option t) :=
  s <~ get ;;
  ret (List.find (fun r => String.eqb (ETLRun.run_id r) run_id) (etl_runs s)).

(** The dictionaries [compare_runs] builds. *)
Record RunSummary := mkSummary {
  summary_run_id : string;
  summary_source_type : string;
  summary_status : string;
  summary_records_loaded : Z;
  summary_duration_seconds : option Q;
  summary_started_at : option string
}.

Record Difference := mkDifference { absolute : pyval; percentage : pyval }.

Record Anomaly := mkAnomaly {
  anomaly_type : string;
  description : string;
  severity : string
}.

Record Comparison := mkComparison {
  run_1 : RunSummary;
  run_2 : RunSummary;
  differences : gmap string Difference;
  anomalies : list Anomaly
}.

Inductive CompareResult :=
  | CompareError (error : string)
  | Compared (comparison : Comparison).

(** [abs(x)] on a float *)
Definition Qabs_float (x : Q) : Q := if Qltb x 0 then (- x)%Q else x.

Section Comparing.
Context `{PyRuntime}.
(** [f"{x:.1f}"] *)
Variable format_1f : Q -> string.

Definition summary (run : t) : RunSummary :=
  mkSummary (run_id run) (SourceType_value (source_type run))
    (RunStatus_value (status run)) (records_loaded run) (duration_seconds run)
    (Some (datetime_isoformat (started_at run))).

(** [x and y] as a condition, on two optional floats *)
Definition both_durations (a b : option Q) : bool :=
  match a, b with
  | Some x, Some y => negb (Qeq_bool x 0) && negb (Qeq_bool y 0)
  | _, _ => false
  end.

Definition compare_runs (run_id_1 run_id_2 : string) : M Session CompareResult :=
  run1 <~ get_run run_id_1 ;;
  run2 <~ get_run run_id_2 ;;
  match run1, run2 with
  | Some run1, Some run2 =>
      let comparison := mkComparison (summary run1) (summary run2) ∅ [] in
      (* Calculate differences *)
      let comparison :=
        if negb (records_loaded run1 =? 0) && negb (records_loaded run2 =? 0) then
          let records_diff := records_loaded run2 - records_loaded run1 in
          let records_pct : Q :=
            if 0 <? records_loaded run1
            then (inject_Z records_diff / inject_Z (records_loaded run1) * 100)%Q
            else 0%Q in
          let difference :=
            mkDifference (PyInt records_diff)
              (if 0 <? records_loaded run1 then PyFloat records_pct else PyInt 0) in
          mkComparison (run_1 comparison) (run_2 comparison)
            (<["records_loaded" := difference]> (differences comparison))
            (* Flag anomaly if > 50% change *)
            (if Qltb 50 (Qabs_float records_pct) then
               anomalies comparison ++
               [mkAnomaly "record_count_anomaly"
                  ("Record count changed by " +:+ format_1f records_pct +:+ "%")
                  (if Qltb 90 (Qabs_float records_pct) then "high" else "medium")]
             else anomalies comparison)
        else comparison in
      let comparison :=
        if both_durations (duration_seconds run1) (duration_seconds run2) then
          let d1 := default 0%Q (duration_seconds run1) in
          let d2 := default 0%Q (duration_seconds run2) in
          let duration_diff := (d2 - d1)%Q in
          let duration_pct : Q :=
            if Qltb 0 d1 then (duration_diff / d1 * 100)%Q else 0%Q in
          let difference :=
            mkDifference (PyFloat duration_diff)
              (if Qltb 0 d1 then PyFloat duration_pct else PyInt 0) in
          mkComparison (run_1 comparison) (run_2 comparison)
            (<["duration" := difference]> (differences comparison))
            (* Flag anomaly if > 100% slower *)
            (if Qltb 100 duration_pct then
               anomalies comparison ++
               [mkAnomaly "duration_anomaly"
                  ("Run took " +:+ format_1f duration_pct +:+ "% longer") "medium"]
             else anomalies comparison)
        else comparison in
      (* Status change anomaly *)
      let comparison :=
        if negb (bool_decide (status run1 = status run2)) then
          mkComparison (run_1 comparison) (run_2 comparison) (differences comparison)
            (anomalies comparison ++
             [mkAnomaly "status_change"
                ("Status changed from " +:+ RunStatus_value (status run1) +:+ " to "
                 +:+ RunStatus_value (status run2))
                (if bool_decide (status run2 = FAILED) then "high" else "low")])
        else comparison in
      ret (Compared comparison)
  | _, _ => ret (CompareError "One or both runs not found")
  end.

End Comparing.
End ETLRunTracker.

(** ** The extractor driver ([ingestion/base.py]) *)

Module BaseExtractor.
Import SchemaDriftDetector.
Local Open Scope py_scope.

(** What iterating [self.extract()] does, seen from [run]: the generator
    yields a record, bumps one of the instance counters on its own (the CSV
    generator counts the rows it skips, the RSS generator the items it
    cannot parse), and in the end is exhausted or raises.  What the
    generator reads on its way (file, network, the checkpoint it starts
    from) shows in the trace it produces; those reads are not statements of
    the session's fault oracle. *)
Inductive gen_event :=
  | Yield (raw_data : pydict)
  | CountSkipped
  | CountFailed.

Inductive gen_end :=
  | Exhausted
  | Raises (e : exn).

Record Extraction := mkExtraction { events : list gen_event; ending : gen_end }.

Record Counters := mkCounters {
  records_extracted : Z;
  records_transformed : Z;
  records_loaded : Z;
  records_skipped : Z;
  records_failed : Z
}.

(** The abstract methods and class attributes of an extractor; [X] is what
    the methods act on (the data tables and whatever else the subclass
    keeps), apart from the metadata tables of the session. *)
Record Methods (X : Type) := mkMethods {
  source_type : SourceType;
  drift_detector : option SchemaDriftDetector;
  get_source_id : pydict -> M X string;
  load_raw : pydict -> M X Z;
  transform : pydict -> M X pydict;
  load_unified : pydict -> Z -> M X Z
}.
Arguments source_type {X} _.
Arguments drift_detector {X} _.
Arguments get_source_id {X} _ _.
Arguments load_raw {X} _ _.
Arguments transform {X} _ _.
Arguments load_unified {X} _ _ _.

Record World (X : Type) := mkWorld {
  db : Session;
  ext : X;
  counters : Counters
}.
Arguments mkWorld {X} db ext counters.
Arguments db {X} _.
Arguments ext {X} _.
Arguments counters {X} _.

(** The returned statistics. *)
Record RunStats := mkStats {
  stats_run_id : string;
  stats_source_type : string;
  stats_status : string;
  stats_counters : Counters
}.

Section Driver.
Context `{PyRuntime} {X : Type} `{SessionState X} (self : Methods X).

(** The session as its next statement finds it: while a failed statement of
    the load functions has left the transaction aborted, every statement
    fails, whatever the fault oracle holds. *)
Definition session_view (w : World X) : Session :=
  match pending_error (ext w) with
  | Some e => with_faults (fun _ => Some e) (db w)
  | None => db w
  end.

(** A call of the checkpoint manager, the run tracker or the drift detector
    from the extractor. *)
Definition lift_db {A} (c : M Session A) : M (World X) A := fun w =>
  let '(r, s) := c (session_view w) in
  (r, mkWorld (with_faults (faults (db w)) s) (ext w) (counters w)).

(** [self.db.rollback()] *)
Definition rolled_back (w : World X) : World X :=
  mkWorld (db w) (rollback (ext w)) (counters w).

Definition lift_ext {A} (c : M X A) : M (World X) A := fun w =>
  let '(r, x) := c (ext w) in (r, mkWorld (db w) x (counters w)).

Definition count (f : Counters -> Counters) : M (World X) unit :=
  modify (fun w => mkWorld (db w) (ext w) (f (counters w))).

Definition incr_extracted (c : Counters) : Counters :=
  mkCounters (records_extracted c + 1) (records_transformed c) (records_loaded c)
    (records_skipped c) (records_failed c).
Definition incr_transformed (c : Counters) : Counters :=
  mkCounters (records_extracted c) (records_transformed c + 1) (records_loaded c)
    (records_skipped c) (records_failed c).
Definition incr_loaded (c : Counters) : Counters :=
  mkCounters (records_extracted c) (records_transformed c) (records_loaded c + 1)
    (records_skipped c) (records_failed c).
Definition incr_skipped (c : Counters) : Counters :=
  mkCounters (records_extracted c) (records_transformed c) (records_loaded c)
    (records_skipped c + 1) (records_failed c).
Definition incr_failed (c : Counters) : Counters :=
  mkCounters (records_extracted c) (records_transformed c) (records_loaded c)
    (records_skipped c) (records_failed c + 1).

(** The body of the [for] loop for one record: the inner [try] with its
    [except Exception], which does not roll the session back.  The result is
    the new value of the local [last_source_id].  ([record_drifts] rolls back
    when its commit fails; it is reached only after [should_process] has gone
    through, so with no aborted transaction to end.) *)
Definition process_record (raw_data : pydict) (last_source_id : option string)
    : M (World X) (option string) :=
  try_except
    (source_id <~ lift_ext (get_source_id self raw_data) ;;
     process <~ lift_db (should_process (source_type self) source_id) ;;
     if negb process then
       count incr_skipped ;;;
       ret last_source_id
     else
       count incr_extracted ;;;
       match drift_detector self with
       | Some detector =>
           let drifts := detect_drift detector (source_type self) raw_data in
           match drifts with
           | [] => ret tt
           | _ => lift_db (record_drifts (source_type self) drifts) ;;; ret tt
           end
       | None => ret tt
       end ;;;
       raw_id <~ lift_ext (load_raw self raw_data) ;;
       transformed <~ lift_ext (transform self raw_data) ;;
       count incr_transformed ;;;
       lift_ext (load_unified self transformed raw_id) ;;;
       count incr_loaded ;;;
       ret (Some source_id))
    (fun e =>
       count incr_failed ;;;
       ret last_source_id).

(** The [for] loop up to the end of the generator's events. *)
Fixpoint iterate (evs : list gen_event) (last_source_id : option string)
    : M (World X) (option string) :=
  match evs with
  | [] => ret last_source_id
  | Yield raw_data :: rest =>
      last_source_id <~ process_record raw_data last_source_id ;;
      iterate rest last_source_id
  | CountSkipped :: rest => count incr_skipped ;;; iterate rest last_source_id
  | CountFailed :: rest => count incr_failed ;;; iterate rest last_source_id
  end.

(** [if last_source_id:] *)
Definition str_truthy (s : option string) : bool :=
  match s with
  | Some v => negb (String.eqb v "")
  | None => false
  end.

Definition opt_str (s : option string) : pyval :=
  match s with Some v => PyStr v | None => PyNone end.

Definition checkpoint_info (checkpoint : option ETLCheckpoint.t) : pyval :=
  match checkpoint with
  | Some c =>
      PyDict [("last_source_id", opt_str (ETLCheckpoint.last_source_id c));
              ("last_offset", PyInt (ETLCheckpoint.last_offset c));
              ("last_processed_at",
               match ETLCheckpoint.last_processed_at c with
               | Some t => PyStr (datetime_isoformat t)
               | None => PyNone
               end)]
  | None => PyNone
  end.

(** [run] up to its [for] loop: the checkpoint is read and the run row
    written. *)
Definition begin_run : M (World X) ETLRun.t :=
  checkpoint <~ lift_db (CheckpointManager.get_checkpoint (source_type self)) ;;
  lift_db (ETLRunTracker.start_run (source_type self)
             (Some {[ "checkpoint" := checkpoint_info checkpoint ]})).

(** The handler of [update_checkpoint] rolls the session back before it
    raises [CheckpointError]; the tracker and [run] itself never do. *)
Definition run (extraction : Extraction) : M (World X) RunStats :=
  run <~ begin_run ;;
  outcome <~
    try_except
      (last_source_id <~ iterate (events extraction) None ;;
       match ending extraction with
       | Raises e => raise e
       | Exhausted => ret tt
       end ;;;
       (* Update checkpoint on success *)
       (if str_truthy last_source_id then
          w <~ get ;;
          try_except
            (lift_db (CheckpointManager.update_checkpoint (source_type self)
                        last_source_id None
                        (Some {[ "records_processed" :=
                                   PyInt (records_loaded (counters w)) ]})))
            (fun e => modify rolled_back ;;; raise e) ;;;
          ret tt
        else ret tt) ;;;
       w <~ get ;;
       let status := if records_failed (counters w) =? 0 then SUCCESS else PARTIAL in
       ret (status, last_source_id))
      (fun e =>
         w <~ get ;;
         let c := counters w in
         lift_db (ETLRunTracker.complete_run run FAILED
                    (records_extracted c) (records_transformed c) (records_loaded c)
                    (records_skipped c) (records_failed c) (Some e) None) ;;;
         raise e) ;;
  let '(status, last_source_id) := outcome in
  w <~ get ;;
  let c := counters w in
  lift_db (ETLRunTracker.complete_run run status
             (records_extracted c) (records_transformed c) (records_loaded c)
             (records_skipped c) (records_failed c) None
             (Some {[ "last_source_id" := opt_str last_source_id ]})) ;;;
  ret (mkStats (ETLRun.run_id run) (SourceType_value (source_type self))
         (RunStatus_value status) c).

End Driver.
End BaseExtractor.

(** ** Failure injection ([ingestion/orchestrator.py]) *)

Module ETLOrchestrator.
Import BaseExtractor.
Local Open Scope py_scope.

Definition injected (fail_at_record : Z) : exn :=
  mkExn ETLException ("Injected failure at record " +:+ pretty fail_at_record).

(** [failing_extract]: the wrapped generator, and the final value of
    [record_count]. *)
Fixpoint failing_extract (fail_at_record record_count : Z) (evs : list gen_event)
    (fin : gen_end) : Extraction * Z :=
  match evs with
  | [] => (mkExtraction [] fin, record_count)
  | Yield raw_data :: rest =>
      let record_count := record_count + 1 in
      if record_count =? fail_at_record then
        (mkExtraction [] (Raises (injected fail_at_record)), record_count)
      else
        let '(wrapped, n) := failing_extract fail_at_record record_count rest fin in
        (mkExtraction (Yield raw_data :: events wrapped) (ending wrapped), n)
  | ev :: rest =>
      let '(wrapped, n) := failing_extract fail_at_record record_count rest fin in
      (mkExtraction (ev :: events wrapped) (ending wrapped), n)
  end.

Inductive InjectionResult :=
  | Completed (stats : RunStats)
  | FailedInjection (records_before_failure : Z) (error : string).

(** An entry of [self.results]: the statistics of a run, or one of the two
    dictionaries that stand for a failure, the first built by
    [_run_extractor], the second by [run_all]. *)
Inductive RunResult :=
  | Stats (stats : RunStats)
  | ExtractorFailed (extractor error : string)
  | SourceFailed (source_type error : string).

Section Orchestrator.
Context `{PyRuntime} {X : Type} `{SessionState X}.

(** [with get_db_session() as db: body] ([core/database.py]): the session
    is a new one, so no transaction of it is aborted; it is committed when
    the body returns; an exception, of the body or of that commit, is raised
    again after a rollback. *)
Definition with_db_session {A} (body : M (World X) A) : M (World X) A :=
  (* db = SessionLocal() *)
  modify rolled_back ;;;
  try_except
    (result <~ body ;;
     lift_db db_statement ;;;
     ret result)
    (fun e => modify rolled_back ;;; raise e).

(** [run_with_failure_injection]: [record_count] is counted by the wrapped
    generator, so it is still zero when [run] raises before its loop. *)
Definition run_with_failure_injection (extractor : Methods X) (fail_at_record : Z)
    (original_extract : Extraction) : M (World X) InjectionResult :=
  with_db_session
    (w <~ get ;;
     let '(wrapped, pulled) :=
       failing_extract fail_at_record 0 (events original_extract)
         (ending original_extract) in
     let record_count :=
       match (begin_run extractor w).1 with
       | Ok _ => pulled
       | Raise _ => 0
       end in
     try_except
       (stats <~ run extractor wrapped ;; ret (Completed stats))
       (fun e =>
          if isinstance e ETLException then
            ret (FailedInjection (record_count - 1) (exn_str e))
          else raise e)).

(** [_run_extractor(extractor_class, db)]: a new extractor object starts
    with its counters at zero; [extractor_class] stands for the class name. *)
Definition _run_extractor (fail_on_error : bool) (extractor_class : string)
    (extractor : Methods X) (extraction : Extraction) : M (World X) RunResult :=
  try_except
    (modify (fun w => mkWorld (db w) (ext w) (mkCounters 0 0 0 0 0)) ;;;
     stats <~ run extractor extraction ;;
     ret (Stats stats))
    (fun e =>
       if fail_on_error then raise e
       else ret (ExtractorFailed extractor_class (exn_str e))).

(** One of the three blocks of the sequential branch of [run_all]. *)
Definition run_source (fail_on_error : bool) (extractor_class source : string)
    (extractor : Methods X) (extraction : Extraction) : M (World X) RunResult :=
  with_db_session
    (try_except
       (_run_extractor fail_on_error extractor_class extractor extraction)
       (fun e => ret (SourceFailed source (exn_str e)))).

(** [run_all] with [parallel = False]; the summary it logs is not part of
    what it returns. *)
Definition run_all (fail_on_error : bool) (api csv rss : Methods X)
    (api_extraction csv_extraction rss_extraction : Extraction)
    : M (World X) (list RunResult) :=
  start_time <~ lift_db utcnow ;;
  api_result <~ run_source fail_on_error "APIExtractor" "api" api api_extraction ;;
  csv_result <~ run_source fail_on_error "CSVExtractor" "csv" csv csv_extraction ;;
  rss_result <~ run_source fail_on_error "CoinGeckoExtractor" "rss" rss rss_extraction ;;
  now <~ lift_db utcnow ;;
  ret [api_result; csv_result; rss_result].

End Orchestrator.
End ETLOrchestrator.

(** ** The CSV transform ([ingestion/csv_extractor.py]) *)

Module CSVTransform.

(** [a or b] on objects *)
Definition py_or (a b : pyval) : pyval := if truthy a then a else b.

Definition date_fields : list string :=
  ["date"; "created_at"; "timestamp"; "published_at"; "created_date"].

Definition mapped_fields : list string :=
  ["title"; "name"; "headline"; "subject"; "description"; "summary"; "desc";
   "abstract"; "content"; "body"; "text"; "message"; "author"; "creator"; "user";
   "writer"; "by"; "category"; "type"; "group"; "section"; "tags"; "url"; "link";
   "href"; "date"; "created_at"; "timestamp"; "published_at"; "created_date"].

Section Transform.
Context `{PyRuntime}.

(** The loop over the date fields: the first field that is present, truthy
    and parses gives [published_at]. *)
Fixpoint parse_published_at (data : pydict) (fields : list string) : option Q :=
  match fields with
  | [] => None
  | date_field :: rest =>
      match data !! date_field with
      | Some v =>
          if truthy v then
            match match v with
                  | PyDatetime t => Some t
                  | _ => strptime_formats (py_str v)
                  end with
            | Some t => Some t
            | None => parse_published_at data rest
            end
          else parse_published_at data rest
      | None => parse_published_at data rest
      end
  end.

Definition transform (raw_data : pydict) : pydict :=
  let data : pydict :=
    filter (fun kv => negb (starts_with_underscore kv.1) = true) raw_data in
  let published_at := parse_published_at data date_fields in
  let g := dict_get data in
  let title := py_or (py_or (py_or (g "title") (g "name")) (g "headline")) (g "subject") in
  let description :=
    py_or (py_or (py_or (g "description") (g "summary")) (g "desc")) (g "abstract") in
  let content := py_or (py_or (py_or (g "content") (g "body")) (g "text")) (g "message") in
  let author :=
    py_or (py_or (py_or (py_or (g "author") (g "creator")) (g "user")) (g "writer")) (g "by") in
  let category := py_or (py_or (py_or (g "category") (g "type")) (g "group")) (g "section") in
  let tags := match g "tags" with
              | PyStr s => PyList (map PyStr (split_strip s))
              | v => v
              end in
  let url := py_or (py_or (g "url") (g "link")) (g "href") in
  let extra_data : pydict :=
    filter (fun kv => str_lower kv.1 ∉ mapped_fields) data in
  {[ "title" := title;
     "description" := description;
     "content" := content;
     "author" := author;
     "category" := category;
     "tags" := (if truthy tags then tags else PyNone);
     "url" := url;
     "published_at" := (match published_at with Some t => PyDatetime t | None => PyNone end);
     "extra_data" := (if bool_decide (extra_data = ∅) then PyNone
                      else PyDict (map_to_list extra_data)) ]}.

End Transform.
End CSVTransform.

(** The CSV extractor as an instance of the driver's interface. *)
Definition csv_methods `{PyRuntime} (drift_detector : option SchemaDriftDetector.SchemaDriftDetector)
    : BaseExtractor.Methods Store :=
  BaseExtractor.mkMethods Store CSV drift_detector
    (get_source_id CSVExtractor) (load_raw CSVExtractor)
    (fun raw_data => ret (CSVTransform.transform raw_data))
    (load_unified CSVExtractor).

(** ** The CSV source ([ingestion/csv_extractor.py]) *)

(** String functions of the runtime that [_clean_value] calls. *)
Class PyStrings := {
  (** [s.strip()] *)
  str_strip : string -> string;
  (** [int(s)]; [None] when it raises [ValueError] *)
  int_of_str : string -> option Z;
  (** [float(s)]; [None] when it raises [ValueError] *)
  float_of_str : string -> option Q
}.

Module CSVSource.
Import BaseExtractor.

(** ["." in value] *)
Fixpoint contains_dot (value : string) : bool :=
  match value with
  | EmptyString => false
  | String c rest => bool_decide (c = "."%char) || contains_dot rest
  end.

Definition null_words : list string := [""; "null"; "none"; "n/a"; "na"; "-"].
Definition true_words : list string := ["true"; "yes"; "1"].
Definition false_words : list string := ["false"; "no"; "0"].

Section Source.
Context `{PyRuntime} `{PyStrings}.

Definition _clean_value (value : pyval) : pyval :=
  match value with
  | PyNone => PyNone
  | PyStr value =>
      let value := str_strip value in
      if bool_decide (str_lower value ∈ null_words) then PyNone
      else
        (* Try to convert to number *)
        match (if contains_dot value then PyFloat <$> float_of_str value
               else PyInt <$> int_of_str value) with
        | Some number => number
        | None =>
            (* Try to parse as boolean *)
            if bool_decide (str_lower value ∈ true_words) then PyBool true
            else if bool_decide (str_lower value ∈ false_words) then PyBool false
            else PyStr value
        end
  | value => value
  end.

(** The file as [extract] meets it: whether the path exists, its base
    name, the failure (if any) of opening it while the encoding is probed,
    the rows the [DictReader] produces, restricted to their string keys (the
    comprehension drops the key [None], under which surplus cells go), and
    the error that ends the reading, if one does. *)
Record CSVFile := mkFile {
  path_exists : bool;
  basename : string;
  open_error : option exn;
  reader_rows : list pydict;
  reader_error : option exn
}.

Definition cleaned_row (file : CSVFile) (row_num : Z) (row : pydict) : pydict :=
  <["_source_file" := PyStr (basename file)]>
    (<["_row_number" := PyInt row_num]> (_clean_value <$> row)).

(** The [for] loop over [enumerate(reader, start=1)], from row [row_num]. *)
Fixpoint extract_rows (file : CSVFile) (last_row row_num : Z) (rows : list pydict)
    : list gen_event :=
  match rows with
  | [] => []
  | row :: rest =>
      (if row_num <=? last_row then CountSkipped
       else Yield (cleaned_row file row_num row))
      :: extract_rows file last_row (row_num + 1) rest
  end.

(** What iterating [extract()] does, and the session after the generator
    has read its checkpoint. *)
Definition extract (file : CSVFile) (s : Session) : Extraction * Session :=
  if negb (path_exists file) then (mkExtraction [] Exhausted, s)
  else
    match CheckpointManager.get_checkpoint CSV s with
    | (Raise e, s') => (mkExtraction [] (Raises e), s')
    | (Ok checkpoint, s') =>
        let last_row :=
          match checkpoint with
          | Some c => ETLCheckpoint.last_offset c
          | None => 0
          end in
        match open_error file with
        | Some e => (mkExtraction [] (Raises e), s')
        | None =>
            (mkExtraction (extract_rows file last_row 1 (reader_rows file))
               (match reader_error file with
                | Some e =>
                    Raises (mkExn ExtractionError
                              ("CSV extraction failed: " +:+ exn_str e))
                | None => Exhausted
                end),
             s')
        end
    end.

End Source.
End CSVSource.

(** A runtime for closed examples: [strip] for the white space below code
    point 256; [int] recognises an optional sign followed by decimal digits
    and nothing else (Python also takes underscores between digits); [float]
    is a placeholder that rejects everything. *)
Definition is_space (c : ascii) : bool :=
  let n := nat_of_ascii c in
  ((9 <=? n) && (n <=? 13) || (28 <=? n) && (n <=? 32) || (n =? 133) || (n =? 160))%nat.

Fixpoint lstrip (s : string) : string :=
  match s with
  | String c rest => if is_space c then lstrip rest else s
  | EmptyString => EmptyString
  end.

Fixpoint rstrip (s : string) : string :=
  match s with
  | String c rest =>
      match rstrip rest with
      | EmptyString => if is_space c then EmptyString else String c EmptyString
      | rest' => String c rest'
      end
  | EmptyString => EmptyString
  end.

Fixpoint digits_value (s : string) (acc : Z) : option Z :=
  match s with
  | EmptyString => Some acc
  | String c rest =>
      let n := nat_of_ascii c in
      if ((48 <=? n) && (n <=? 57))%nat then
        digits_value rest (10 * acc + Z.of_nat (n - 48))
      else None
  end.

Definition example_int (s : string) : option Z :=
  match s with
  | EmptyString => None
  | String "-" (String c rest) => Z.opp <$> digits_value (String c rest) 0
  | String "+" (String c rest) => digits_value (String c rest) 0
  | String "-" EmptyString | String "+" EmptyString => None
  | _ => digits_value s 0
  end.

Definition example_strings : PyStrings :=
  {| str_strip := fun s => rstrip (lstrip s);
     int_of_str := example_int;
     float_of_str := fun _ => None |}.

(** ** The API source ([ingestion/api_extractor.py]) *)

Module APISource.
Import RateLimiter.
Local Open Scope py_scope.

(** What [_make_request] reads of a response: the status code, the value of
    [float(h)] for the header [Retry-After] when it is present, the text of
    the [HTTPStatusError] that [raise_for_status()] raises when it does, and
    the outcome of [json()]. *)
Record Response := mkResponse {
  status_code : Z;
  retry_after_header : option (result Q);
  status_error : option string;
  json : result pyval
}.

(** What [client.get] does: it returns a response, raises an
    [httpx.HTTPError] with the given text, or raises something else. *)
Inductive Reply :=
  | Answer (response : Response)
  | HTTPError (text : string)
  | OtherError (e : exn).

Record Request := mkRequest {
  url : string;
  headers : gmap string string;
  params : option pydict
}.

Record APIExtractor := mkExtractor {
  api_url : string;
  api_key : option string
}.

(** The limiter with its clock, the server as the replies it gives to the
    successive requests, and the requests sent so far. *)
Record Api := mkApi {
  limiter : World;
  replies : nat -> Reply;
  requested : list Request
}.

Definition lift_limiter {A} (c : M World A) : M Api A := fun a =>
  let '(r, w) := c (limiter a) in (r, mkApi w (replies a) (requested a)).

Definition client_get (url : string) (headers : gmap string string)
    (params : option pydict) : M Api Reply := fun a =>
  (Ok (replies a (length (requested a))),
   mkApi (limiter a) (replies a) (requested a ++ [mkRequest url headers params])).

Definition request_headers (self : APIExtractor) : gmap string string :=
  let headers : gmap string string :=
    {[ "Content-Type" := "application/json"; "Accept" := "application/json" ]} in
  match api_key self with
  | Some key =>
      if String.eqb key "" then headers
      else <["Authorization" := "Bearer " +:+ key]> headers
  | None => headers
  end.

(** [params if params else None] *)
Definition params_or_none (params : option pydict) : option pydict :=
  match params with
  | Some p => if bool_decide (p = ∅) then None else Some p
  | None => None
  end.

(** [max(backoff, retry_after)] *)
Definition max_float (x y : Q) : Q := if Qltb x y then y else x.

(** [_make_request(endpoint, params)], to a nesting depth of [depth] calls:
    the result is [None] when the call at that depth calls itself again.
    The [except httpx.HTTPError] clause is written at the two places where
    such an error arises, [client.get] and [raise_for_status]; what the
    nested call raises is never one. *)
Fixpoint _make_request (depth : nat) (self : APIExtractor) (endpoint : string)
    (params : option pydict) : M Api (option pyval) :=
  match depth with
  | O => ret None
  | S depth =>
      let url := api_url self +:+ endpoint in
      (* Rate limiting *)
      lift_limiter (wait_if_needed "api") ;;;
      lift_limiter (record_request "api") ;;;
      reply <~ client_get url (request_headers self) (params_or_none params) ;;
      match reply with
      | HTTPError text =>
          raise (mkExn ExtractionError ("API request failed: " +:+ text))
      | OtherError e => raise e
      | Answer response =>
          if status_code response =? 401 then
            raise (mkExn AuthenticationError "API authentication failed")
          else if status_code response =? 429 then
            match default (Ok 60%Q) (retry_after_header response) with
            | Raise e => raise e
            | Ok retry_after =>
                backoff <~ lift_limiter (record_failure "api") ;;
                lift_limiter (time_sleep (max_float backoff retry_after)) ;;;
                _make_request depth self endpoint params
            end
          else
            match status_error response with
            | Some text =>
                raise (mkExn ExtractionError ("API request failed: " +:+ text))
            | None =>
                lift_limiter (record_success "api") ;;;
                match json response with
                | Ok data => ret (Some data)
                | Raise e => raise e
                end
            end
      end
  end.

End APISource.

(** * Vocabulary of the statements, and the inputs of the closed examples *)

(** ** Rate limiter *)

Module RateLimiterSpec.
Import RateLimiter.

(** The retry counter the limiter holds for a key; a key without a state
    object counts as zero, which is what [_get_state] would create. *)
Definition retries (source_key : string) (w : World) : Z :=
  from_option retry_count 0 (_states (self w) !! source_key).

Definition same_config (w w' : World) : Prop :=
  requests_per_minute (self w') = requests_per_minute (self w) /\
  max_retries (self w') = max_retries (self w) /\
  backoff_base (self w') = backoff_base (self w).

Definition in_window (f : nat -> Q) (ws : Q) : Prop :=
  forall i, (f i - ws < 60)%Q.

(** On a fresh key [_get_state] creates the state object, stamped with the
    current reading; the rest of the call runs as if it had been there. *)
Definition created (key : string) (w : World) : World := snd (_get_state key w).

Definition w_fresh : World :=
  mkWorld (mkClock (fun _ => 1700000000%Q) 0) [] (__init__ None (Some 5) (Some 2%Q)).

(** A limiter for five requests a minute, on a clock that advances with
    every reading and stays below one second past its first reading. *)
Definition w_five : World :=
  mkWorld (mkClock (fun i => 1700000000 + (Z.of_nat i # Pos.of_succ_nat i))%Q 0) []
    (__init__ (Some 5) None None).

(** Four failures on record, then a check 61 seconds after the window
    start. *)
Definition w_streak : World :=
  mkWorld (mkClock (fun _ => 1700000061%Q) 0) []
    (mkLimiter 60 5 2 {[ "api" := mkState 3 1700000000 16 4 1700000001 ]}).

(** Successive readings of the clock never go back. *)
Definition monotone (f : nat -> Q) : Prop :=
  forall i j, (i <= j)%nat -> (f i <= f j)%Q.

(** The delays [time.sleep] takes: none below zero, none beyond 2^63
    nanoseconds.  A power that is beyond the range of a float is beyond
    this bound as well. *)
Definition max_sleep : Q := 9223372036.

Definition sleepable (d : Q) : bool := Qle_bool 0 d && Qle_bool d max_sleep.

(** The limiter's methods that take a source key, as the worlds they lead
    to. *)
Definition after_call (key : string) (w : World) : list World :=
  [snd (check_rate_limit key w); snd (wait_if_needed key w);
   snd (record_request key w); snd (record_success key w);
   snd (record_failure key w); snd (get_stats key w)].

(** Two keys in use, one of them with failures on record. *)
Definition w_two_keys : World :=
  mkWorld (mkClock (fun i => 1700000010 + inject_Z (Z.of_nat i))%Q 0) []
    (mkLimiter 2 5 2 {[ "api" := mkState 2 1700000000 4 2 1700000005;
                        "rss" := mkState 1 1700000001 0 0 1700000002 ]}).

End RateLimiterSpec.

(** ** Checkpoint manager *)

Module CheckpointSpec.
Import ETLCheckpoint CheckpointManager.

(** The fault waiting for the j-th statement from now. *)
Definition fault_at (s : Session) (j : nat) : option exn :=
  faults s (j + statements s)%nat.

Definition checkpoint_of (st : SourceType) (s : Session) : option t :=
  List.find (fun c => bool_decide (source_type c = st)) (etl_checkpoints s).

(** [r] is a [CheckpointError] whose message ends in the text of [cause]. *)
Definition wraps {A} (r : result A) (cause : exn) : Prop :=
  exists prefix, r = Raise (mkExn CheckpointError (prefix +:+ exn_str cause)).

(** What [update_checkpoint] stores for an existing row [c]. *)
Definition patched (c : t) (lsid : option string) (off : option Z)
    (md : option pydict) (now stamp : Q) : t :=
  mk (id c) (source_type c)
    (match lsid with Some v => Some v | None => last_source_id c end)
    (Some now)
    (match off with Some v => v | None => last_offset c end)
    (match md with Some v => Some v | None => checkpoint_metadata c end)
    stamp.

(** A session holding the checkpoint of [test_update_existing_checkpoint],
    with a database that answers every statement. *)
Definition stored_checkpoint : t :=
  mk 1 CSV (Some "test:100") (Some 1700000000%Q) 100 None 1700000000%Q.

Definition s_one_checkpoint : Session :=
  mkSession (mkClock (fun i => 1700000100 + inject_Z (Z.of_nat i))%Q 0)
    (fun _ => None) 0 (fun _ => "") 0
    [stored_checkpoint] 2 [] 1 [] 1.

(** The constraints of the table [etl_checkpoints]: [source_type] is
    unique, [id] is the primary key, and the sequence is ahead of the keys
    in use. *)
Definition well_formed (s : Session) : Prop :=
  NoDup (map source_type (etl_checkpoints s)) /\
  NoDup (map id (etl_checkpoints s)) /\
  Forall (fun c => id c < etl_checkpoints_seq s) (etl_checkpoints s).

(** What a call has written to the checkpoint table: nothing, a new row, or
    a row in the place of the one for the source type. *)
Inductive written (st : SourceType) (s s' : Session) : option t -> Prop :=
  | written_nothing :
      etl_checkpoints s' = etl_checkpoints s ->
      etl_checkpoints_seq s' = etl_checkpoints_seq s ->
      written st s s' None
  | written_new row :
      checkpoint_of st s = None ->
      etl_checkpoints s' = etl_checkpoints s ++ [row] ->
      etl_checkpoints_seq s' = etl_checkpoints_seq s + 1 ->
      id row = etl_checkpoints_seq s ->
      source_type row = st ->
      written st s s' (Some row)
  | written_over c row :
      checkpoint_of st s = Some c ->
      etl_checkpoints s'
      = map (fun r => if bool_decide (id r = id c) then row else r) (etl_checkpoints s) ->
      etl_checkpoints_seq s' = etl_checkpoints_seq s ->
      id row = id c ->
      source_type row = st ->
      written st s s' (Some row).

(** A database whose third statement from now fails: the query and the
    commit of [update_checkpoint] go through, its [refresh] does not. *)
Definition s_refresh_fault : Session :=
  mkSession (mkClock (fun i => 1700000100 + inject_Z (Z.of_nat i))%Q 0)
    (fun n => if (n =? 2)%nat then Some (mkExn Exception_ "connection lost") else None)
    0 (fun _ => "") 0 [stored_checkpoint] 2 [] 1 [] 1.

(** Checkpoints of two source types. *)
Definition s_two_checkpoints : Session :=
  mkSession (mkClock (fun i => 1700000100 + inject_Z (Z.of_nat i))%Q 0)
    (fun _ => None) 0 (fun _ => "") 0
    [stored_checkpoint;
     mk 2 API (Some "coinpaprika:btc-bitcoin:2023-11-14") (Some 1700000000%Q) 0 None
       1700000000%Q] 3 [] 1 [] 1.

(** The session of [test_should_process_with_checkpoint]. *)
Definition s_test_50 : Session :=
  mkSession (mkClock (fun _ => 1700000100%Q) 0) (fun _ => None) 0 (fun _ => "") 0
    [mk 1 CSV (Some "test:50") (Some 1700000000%Q) 0 None 1700000000%Q] 2 [] 1 [] 1.

End CheckpointSpec.

(** ** Dual upsert *)

Module UpsertSpec.








Section WithRuntime.
Context `{PyRuntime}.









End WithRuntime.

Definition empty_store (f : nat -> Q) : Store :=
  mkStore (mkClock f 0) (fun _ => None) 0 false
    (mkTable [] 1) (mkTable [] 1) (mkTable [] 1) (mkTable [] 1).

(** A title of 501 characters, one more than the column takes. *)
Definition long_title : pydict * pydict :=
  ({[ "id" := PyStr "ltc-litecoin"; "name" := PyStr "Litecoin" ]},
   {[ "title" := PyStr (String.concat "" (replicate 501 "x")) ]}).

Definition bitcoin : pydict * pydict :=
  ({[ "id" := PyStr "btc-bitcoin"; "name" := PyStr "Bitcoin" ]},
   {[ "title" := PyStr "Bitcoin (BTC)"; "author" := PyStr "CoinPaprika" ]}).

Definition ethereum : pydict * pydict :=
  ({[ "id" := PyStr "eth-ethereum"; "name" := PyStr "Ethereum" ]},
   {[ "title" := PyStr "Ethereum (ETH)"; "author" := PyStr "CoinPaprika" ]}).

(** Both passes on 2023-11-14. *)
Definition one_day : nat -> Q := fun _ => 1700000000%Q.

(** The first pass (six readings) on 2023-11-14, the second a day later. *)
Definition two_days : nat -> Q :=
  fun i => if (i <? 6)%nat then 1700000000%Q else 1700086400%Q.

End UpsertSpec.

(** ** Schema drift detector *)

Module DriftSpec.
Import SchemaDriftDetector.

(** The drifts of one kind, in the order [detect_drift] emitted them. *)
Definition of_type (ty : string) (drifts : list DriftResult) : list DriftResult :=
  filter (fun d => drift_type d = ty) drifts.

(** One field the API schema does not know, sharing no character with any
    expected field name. *)
Definition record_new_field : pydict :=
  {[ "id" := PyStr "123"; "title" := PyStr "Test"; "mkw" := PyStr "value" ]}.

(** The API schema's fields except [tags]. *)
Definition record_without_tags : pydict :=
  {[ "id" := PyStr "123"; "title" := PyStr "Test"; "description" := PyStr "d";
     "content" := PyStr "c"; "author" := PyStr "a"; "category" := PyStr "news";
     "url" := PyStr "http://example.org"; "created_at" := PyDatetime 1700000000;
     "updated_at" := PyDatetime 1700000000 ]}.

(** All fields of the API schema, each with a value of the expected type. *)
Definition record_conforming : pydict :=
  <["tags" := PyList [PyStr "news"]]> record_without_tags.

(** The field [title] arrives capitalised. *)
Definition record_capital_title : pydict :=
  {[ "id" := PyStr "123"; "Title" := PyStr "Test" ]}.

(** Two drifts on record, the second detected later, and a database that
    answers every statement. *)
Definition s_two_drifts : Session :=
  mkSession (mkClock (fun i => 1700000100 + inject_Z (Z.of_nat i))%Q 0)
    (fun _ => None) 0 (fun _ => "") 0 [] 1 [] 1
    [SchemaDrift.mk 1 API 1700000000 "mkw" None (Some "str") "new_field" 1
       (Some "value") false None;
     SchemaDrift.mk 2 API 1700000050 "tags" (Some "list") None "missing_field" 1
       None false None] 3.

End DriftSpec.

(** ** The extractor driver *)

Module DriverSpec.
Import SchemaDriftDetector BaseExtractor ETLOrchestrator.

(** The checkpoint and run tables (and their sequences) are the same. *)
Definition same_meta (s s' : Session) : Prop :=
  etl_checkpoints s' = etl_checkpoints s /\
  etl_checkpoints_seq s' = etl_checkpoints_seq s /\
  etl_runs s' = etl_runs s /\
  etl_runs_seq s' = etl_runs_seq s.

(** The number of records a generator yields. *)
Fixpoint count_yields (evs : list gen_event) : Z :=
  match evs with
  | [] => 0
  | Yield _ :: rest => 1 + count_yields rest
  | _ :: rest => count_yields rest
  end.

Section WithDriver.
Context `{PyRuntime} {X : Type} `{SessionState X} (self : Methods X).

(** The run row after [complete_run]. *)
Definition completed (run0 : ETLRun.t) (status : RunStatus) (c : Counters)
    (error : option exn) (checkpoint_data : option pydict) (s : Session) : ETLRun.t :=
  ETLRun.mk (ETLRun.id run0) (ETLRun.run_id run0) (ETLRun.source_type run0) status
    (ETLRun.started_at run0)
    (Some (readings (utc s) (ticks (utc s))))
    (Some (readings (utc s) (ticks (utc s)) - ETLRun.started_at run0)%Q)
    (records_extracted c) (records_transformed c) (records_loaded c)
    (records_skipped c) (records_failed c)
    (match error with Some e => Some (exn_str e) | None => ETLRun.error_message run0 end)
    (match error with Some e => Some (format_exc e) | None => ETLRun.error_traceback run0 end)
    (match checkpoint_data with
     | Some d => if bool_decide (d = ∅) then ETLRun.checkpoint_data run0 else Some d
     | None => ETLRun.checkpoint_data run0
     end)
    (ETLRun.run_metadata run0).

(** Across the loop: metadata tables as they were, and the loaded counter
    does not go down. *)
Definition kept (w w' : World X) : Prop :=
  same_meta (db w) (db w') /\
  records_loaded (counters w) <= records_loaded (counters w').

(** Between two readings of the counters, [n] records came by: each was
    skipped, failed or loaded, a loaded record was transformed and a
    transformed one extracted before, and what was extracted and not loaded
    has failed. *)
Definition accounted (n : Z) (c c' : Counters) : Prop :=
  (records_skipped c' - records_skipped c)
  + (records_failed c' - records_failed c)
  + (records_loaded c' - records_loaded c) = n /\
  0 <= records_skipped c' - records_skipped c /\
  0 <= records_loaded c' - records_loaded c /\
  records_loaded c' - records_loaded c
  <= records_transformed c' - records_transformed c /\
  records_transformed c' - records_transformed c
  <= records_extracted c' - records_extracted c /\
  (records_extracted c' - records_extracted c)
  - (records_loaded c' - records_loaded c)
  <= records_failed c' - records_failed c.

(** The counters a run row holds. *)
Definition row_counters (r : ETLRun.t) : Counters :=
  mkCounters (ETLRun.records_extracted r) (ETLRun.records_transformed r)
    (ETLRun.records_loaded r) (ETLRun.records_skipped r) (ETLRun.records_failed r).

(** How [run] returns. *)
Definition final_status (c : Counters) : RunStatus :=
  if records_failed c =? 0 then SUCCESS else PARTIAL.

(** The run row that [run] writes: [start_run] appends it to the table. *)
Definition run_row (w w' : World X) : option ETLRun.t :=
  etl_runs (db w') !! length (etl_runs (db w)).

(** The bookkeeping of the session has gone through: in the world [w'] that
    a call leaves, the transaction is not aborted and the last statement
    that the session sent met no fault. *)
Definition bookkeeping_done (w' : World X) : Prop :=
  pending_error (ext w') = None /\
  faults (db w') (pred (statements (db w'))) = None.


(** The checkpoint update of [run], in the world [w] the loop has left. *)
Definition checkpoint_update (last : option string) (w : World X)
    : result ETLCheckpoint.t * World X :=
  lift_db (CheckpointManager.update_checkpoint (source_type self) last None
             (Some {[ "records_processed" := PyInt (records_loaded (counters w)) ]})) w.



(** How [run] leaves through the outer [except]: the run row is completed
    as failed, with the exception, which is raised again. *)
Definition fail_with {A} (run0 : ETLRun.t) (e : exn) : M (World X) A :=
  (w <~ get ;;
   let c := counters w in
   lift_db (ETLRunTracker.complete_run run0 FAILED (records_extracted c)
              (records_transformed c) (records_loaded c) (records_skipped c)
              (records_failed c) (Some e) None) ;;;
   raise e)%py.

(** How [run] returns. *)
Definition finish (run0 : ETLRun.t) (last_source_id : option string)
    : M (World X) RunStats :=
  (w <~ get ;;
   let c := counters w in
   lift_db (ETLRunTracker.complete_run run0 (final_status c) (records_extracted c)
              (records_transformed c) (records_loaded c) (records_skipped c)
              (records_failed c) None
              (Some {[ "last_source_id" := opt_str last_source_id ]})) ;;;
   ret (mkStats (ETLRun.run_id run0) (SourceType_value (source_type self))
          (RunStatus_value (final_status c)) c))%py.

(** The start of a [with get_db_session()] block that runs an extractor: a
    new session, and a new extractor object with its counters at zero. *)
Definition opened (w : World X) : World X :=
  mkWorld (db w) (rollback (ext w)) (mkCounters 0 0 0 0 0).

(** The end of a [with get_db_session()] block whose body has returned [v]:
    the commit, and the rollback when the commit raises. *)
Definition closing {A} (v : A) : M (World X) A :=
  try_except (lift_db db_statement ;;; ret v)%py
    (fun e => modify rolled_back ;;; raise e)%py.

End WithDriver.

(** The entry that the outcome of a source's run leaves in the results. *)
Definition entry (fail_on_error : bool) (extractor_class source : string)
    (outcome : result RunStats) : RunResult :=
  match outcome with
  | Ok stats => Stats stats
  | Raise e =>
      if fail_on_error then SourceFailed source (exn_str e)
      else ExtractorFailed extractor_class (exn_str e)
  end.

Definition example_session (faults : nat -> option exn)
    (checkpoints : list ETLCheckpoint.t) : Session :=
  mkSession (mkClock (fun i => 1700000000 + inject_Z (Z.of_nat i))%Q 0) faults 0
    (fun i => "run-" +:+ pretty i) 0 checkpoints 2 [] 1 [] 1.

Definition example_world (faults : nat -> option exn)
    (checkpoints : list ETLCheckpoint.t) : World Store :=
  mkWorld (example_session faults checkpoints) (UpsertSpec.empty_store UpsertSpec.one_day)
    (mkCounters 0 0 0 0 0).

Definition csv_row (n : Z) (name : string) : pydict :=
  {[ "name" := PyStr name; "_row_number" := PyInt n; "_source_file" := PyStr "data.csv" ]}.

Definition three_rows : Extraction :=
  mkExtraction [Yield (csv_row 1 "Alpha"); Yield (csv_row 2 "Beta"); Yield (csv_row 3 "Gamma")]
    Exhausted.

(** One row, then the reader fails. *)
Definition one_row_then_error : Extraction :=
  mkExtraction [Yield (csv_row 1 "Alpha")]
    (Raises (mkExn ExtractionError "CSV extraction failed: bad line")).

Definition csv_extractor : Methods Store :=
  csv_methods (H := example_runtime) (Some (SchemaDriftDetector.__init__ None)).

Definition no_faults : nat -> option exn := fun _ => None.


(** Three rows, the second with a title of 501 characters. *)
Definition long_second_row : Extraction :=
  mkExtraction [Yield (csv_row 1 "Alpha");
                Yield (csv_row 2 (String.concat "" (replicate 501 "x")));
                Yield (csv_row 3 "Gamma")]
    Exhausted.

(** One row with such a title. *)
Definition long_row : Extraction :=
  mkExtraction [Yield (csv_row 1 (String.concat "" (replicate 501 "x")))] Exhausted.

(** A checkpoint beyond the rows of the file: every row is skipped. *)
Definition checkpoint_row_9 : ETLCheckpoint.t :=
  ETLCheckpoint.mk 1 CSV (Some "data.csv:9") (Some 1690000000%Q) 0 None 1690000000%Q.

End DriverSpec.

(** ** The CSV source *)

Module CSVSpec.
Import CSVTransform CSVSource.

(** The keys of a transformed record. *)
Definition unified_fields : gset string :=
  {[ "title"; "description"; "content"; "author"; "category"; "tags"; "url";
     "published_at"; "extra_data" ]}.

(** The columns of a row that [transform] can read: no metadata. *)
Definition data_of (raw_data : pydict) : pydict :=
  filter (fun kv => negb (starts_with_underscore kv.1) = true) raw_data.

(** A column [transform] has no use for: metadata, or a name that is a
    mapped name only up to case. *)
Definition unread `{PyRuntime} (k : string) : Prop :=
  starts_with_underscore k = true \/
  ((k ∉ mapped_fields) /\ (str_lower k ∈ mapped_fields)).

(** The columns left over for [extra_data]. *)
Definition extra_of `{PyRuntime} (raw_data : pydict) : pydict :=
  filter (fun kv => str_lower kv.1 ∉ mapped_fields) (data_of raw_data).

(** A file of two rows, and a checkpoint whose offset covers the first. *)
Definition two_row_file : CSVFile :=
  mkFile true "data.csv" None
    [ {[ "name" := PyStr "Alpha"; "value" := PyStr " 42 " ]};
      {[ "name" := PyStr "Beta"; "value" := PyStr "N/A" ]} ]
    None.

Definition s_offset_1 : Session :=
  mkSession (mkClock (fun _ => 1700000100%Q) 0) (fun _ => None) 0 (fun _ => "") 0
    [ETLCheckpoint.mk 1 CSV None (Some 1700000000%Q) 1 None 1700000000%Q] 2 [] 1 [] 1.

End CSVSpec.

(** ** Run tracker *)

Module TrackerSpec.
Import ETLRun ETLRunTracker.

Definition has_anomaly (ty : string) (c : Comparison) : Prop :=
  exists a, a ∈ anomalies c /\ anomaly_type a = ty.

(** The row [get_run] returns. *)
Definition run_of (run_id : string) (s : Session) : option t :=
  List.find (fun r => String.eqb (ETLRun.run_id r) run_id) (etl_runs s).

(** A stand-in for the format [.1f]: the integral part only. *)
Definition example_format_1f (x : Q) : string := pretty (Qfloor x).

(** A run that loaded a hundred records and a later one that loaded none
    and failed. *)
Definition run_a : t :=
  mk 1 "run-a" CSV SUCCESS 1700000000 (Some 1700000010%Q) (Some 10%Q)
    100 100 100 0 0 None None None ∅.

Definition run_b : t :=
  mk 2 "run-b" CSV FAILED 1700003600 (Some 1700003601%Q) (Some 1%Q)
    0 0 0 0 0 (Some "CSV extraction failed: bad line") None None ∅.

Definition s_two_runs : Session :=
  mkSession (mkClock (fun _ => 1700007200%Q) 0) (fun _ => None) 0 (fun _ => "") 0
    [] 1 [run_a; run_b] 3 [] 1.

End TrackerSpec.

(** ** API source *)

Module APISpec.
Import RateLimiter RateLimiterSpec APISource.

(** The server answers 429, with a [Retry-After] header that [float] takes
    when there is one. *)
Definition throttled (reply : Reply) : Prop :=
  match reply with
  | Answer response =>
      status_code response = 429 /\
      forall e, retry_after_header response <> Some (Raise e)
  | _ => False
  end.



Definition coinpaprika : APIExtractor :=
  mkExtractor "https://api.coinpaprika.com/v1" None.



Definition try_again_soon : Response :=
  mkResponse 429 (Some (Ok 1%Q)) (Some "Client error '429 Too Many Requests'")
    (Ok PyNone).

(** A server that answers 429 with [Retry-After: 1] to everything, a limiter
    with five retries and a back-off base of 1.5 whose window for the key
    opened at 1700000000, and a clock that follows the delays slept: each
    request reads it twice, one second after the window opened and then
    1.5, 2.25, 3.375, 5.0625 and 7.59375 seconds after the request
    before. *)
Definition readings_in_window : list Q :=
  [1700000001; 1700000001 + (3 # 2); 1700000001 + (15 # 4); 1700000001 + (57 # 8);
   1700000001 + (195 # 16)]%Q.

Definition a_throttled_in_window : Api :=
  mkApi (mkWorld (mkClock (fun i => nth (Nat.div2 i) readings_in_window
                                      (1700000001 + (633 # 32))%Q) 0) []
           (mkLimiter 60 5 (3 # 2) {[ "api" := mkState 0 1700000000 0 0 0 ]}))
    (fun _ => Answer try_again_soon) [].

End APISpec.

(** * Properties *)

Lemma Qltb_lt x y : Qltb x y = true <-> (x < y)%Q.
Proof.
  unfold Qltb. rewrite negb_true_iff. split.
  - intros H. apply Qnot_le_lt. intros Hle.
    apply Qle_bool_iff in Hle. congruence.
  - intros H. destruct (Qle_bool y x) eqn:E; [|done].
    apply Qle_bool_iff in E. exfalso. apply (Qlt_not_le _ _ H E).
Qed.

Lemma Qltb_ge x y : Qltb x y = false <-> (y <= x)%Q.
Proof.
  unfold Qltb. rewrite negb_false_iff. apply Qle_bool_iff.
Qed.

Lemma Qle_bool_false x y : (y < x)%Q -> Qle_bool x y = false.
Proof.
  intros H. destruct (Qle_bool x y) eqn:E; [|done].
  apply Qle_bool_iff in E. exfalso. apply (Qlt_not_le _ _ H E).
Qed.

Lemma string_app_assoc (a b c : string) : (a +:+ b) +:+ c = a +:+ (b +:+ c).
Proof.
  induction a as [|ch a IH]; [reflexivity|].
  change (String ch ((a +:+ b) +:+ c) = String ch (a +:+ (b +:+ c))).
  by rewrite IH.
Qed.

(** ** Rate limiter *)

Module RateLimiterProofs.
Import RateLimiter RateLimiterSpec.

Lemma same_config_refl w : same_config w w.
Proof. by repeat split. Qed.

Lemma same_config_trans w1 w2 w3 :
  same_config w1 w2 -> same_config w2 w3 -> same_config w1 w3.
Proof. unfold same_config. intros (?&?&?) (?&?&?). repeat split; congruence. Qed.

Ltac run_monad :=
  unfold bind, ret, raise, get, modify, store, time_time, time_sleep, clock_read;
  simpl.

Lemma get_state_present w key st :
  _states (self w) !! key = Some st -> _get_state key w = (Ok st, w).
Proof. intros H. unfold _get_state. run_monad. by rewrite H. Qed.

Lemma record_failure_result w key :
  fst (record_failure key w) =
    if max_retries (self w) <? retries key w + 1
    then Raise (mkExn RateLimitError (max_retries_message (max_retries (self w)) key))
    else Ok (backoff_base (self w) ^ (retries key w + 1))%Q.
Proof.
  unfold record_failure, _get_state, retries. run_monad.
  destruct (_states (self w) !! key) as [st|]; simpl;
    by destruct (_ <? _).
Qed.

Lemma record_failure_world w key :
  retries key (snd (record_failure key w)) = retries key w + 1 /\
  same_config w (snd (record_failure key w)).
Proof.
  unfold record_failure, _get_state, retries, same_config. run_monad.
  destruct (_states (self w) !! key) as [st|]; simpl;
    destruct (_ <? _); simpl; rewrite ?lookup_insert_eq; done.
Qed.

Lemma after_failures_world n w key :
  retries key (after_failures n key w) = retries key w + Z.of_nat n /\
  same_config w (after_failures n key w).
Proof.
  induction n as [|n [IHr IHc]]; simpl.
  - split; [lia | apply same_config_refl].
  - destruct (record_failure_world (after_failures n key w) key) as [Hr Hc].
    split; [lia | by eapply same_config_trans].
Qed.

Lemma message_names_key mr key :
  exists prefix, max_retries_message mr key = prefix +:+ key.
Proof.
  exists ("Max retries (" +:+ pretty mr +:+ ") exceeded for ").
  unfold max_retries_message. by rewrite !string_app_assoc.
Qed.

(** C4.  With [backoff_base = 2.0] and a fresh key, the k-th consecutive
    [record_failure] returns [2.0 ** k] as long as [k <= max_retries] and
    [k <= 1023], the largest power of two that is a float ([2.0 ** 1024]
    raises [OverflowError]); every call whose counter exceeds [max_retries]
    (the first one in particular) raises [RateLimitError] with a message that
    ends in the source key. *)
Theorem record_failure_backoff_sequence (w : World) (key : string) (k : nat) :
  _states (self w) !! key = None ->
  (backoff_base (self w) == 2)%Q ->
  (1 <= k)%nat ->
  let r := fst (record_failure key (after_failures (k - 1) key w)) in
  (Z.of_nat k <= max_retries (self w) -> (k <= 1023)%nat ->
     exists b, r = Ok b /\ (b == 2 ^ Z.of_nat k)%Q) /\
  (max_retries (self w) < Z.of_nat k ->
     exists prefix, r = Raise (mkExn RateLimitError (prefix +:+ key))).
Proof.
  intros Hfresh Hbase Hk r. subst r.
  rewrite record_failure_result.
  destruct (after_failures_world (k - 1) w key) as [Hr (_ & Hmr & Hbb)].
  assert (retries key w = 0) as H0 by (unfold retries; by rewrite Hfresh).
  rewrite Hr, Hmr, Hbb, H0.
  replace (0 + Z.of_nat (k - 1) + 1) with (Z.of_nat k) by lia.
  split; [intros Hcmp _|intros Hcmp].
  - destruct (Z.ltb_spec (max_retries (self w)) (Z.of_nat k)); [lia|].
    eexists; split; [reflexivity|]. rewrite Hbase. reflexivity.
  - destruct (Z.ltb_spec (max_retries (self w)) (Z.of_nat k)); [|lia].
    destruct (message_names_key (max_retries (self w)) key) as [p Hp].
    exists p. by rewrite Hp.
Qed.

Lemma record_failure_backoff_sequence_witness :
  let r := fst (record_failure "test" (after_failures (4 - 1) "test" w_fresh)) in
  (Z.of_nat 4 <= max_retries (self w_fresh) -> (4 <= 1023)%nat ->
     exists b, r = Ok b /\ (b == 2 ^ Z.of_nat 4)%Q) /\
  (max_retries (self w_fresh) < Z.of_nat 4 ->
     exists prefix, r = Raise (mkExn RateLimitError (prefix +:+ "test"))).
Proof.
  apply (record_failure_backoff_sequence w_fresh "test" 4);
    [reflexivity | reflexivity | lia].
Defined.

(** The values of [test_backoff_increases_exponentially] and the message of
    [test_rate_limit_error_contains_info], by evaluation. *)
Example record_failure_first_four :
  map (fun k => fst (record_failure "test" (after_failures k "test" w_fresh)))
      [0; 1; 2; 3]%nat
  = [Ok 2%Q; Ok 4%Q; Ok 8%Q; Ok 16%Q].
Proof. vm_compute. reflexivity. Qed.

Example record_failure_sixth_raises :
  fst (record_failure "test" (after_failures 5 "test" w_fresh))
  = Raise (mkExn RateLimitError "Max retries (5) exceeded for test").
Proof. vm_compute. reflexivity. Qed.

(** *** The request window *)

Lemma Qeq_bool_pos x : (0 < x)%Q -> Qeq_bool x 0 = false.
Proof.
  intros H. destruct (Qeq_bool x 0) eqn:E; [|done].
  apply Qeq_bool_iff in E. rewrite E in H. by apply Qlt_irrefl in H.
Qed.

Lemma max0_pos x : (0 < x)%Q -> max0 x = x.
Proof. intros H. unfold max0. apply Qltb_lt in H. by rewrite H. Qed.

(** A check inside the window leaves the limiter as it is and answers by the
    request counter alone. *)
Lemma check_in_window w key st :
  _states (self w) !! key = Some st ->
  in_window (readings (clock w)) (window_start st) ->
  exists wait w',
    check_rate_limit key w = (Ok wait, w') /\
    readings (clock w') = readings (clock w) /\
    self w' = self w /\
    ((requests_made st < requests_per_minute (self w) /\ wait = 0%Q) \/
     (requests_per_minute (self w) <= requests_made st /\ (0 < wait)%Q)).
Proof.
  intros Hst Hwin. unfold check_rate_limit, _get_state, _reset_window_if_needed.
  run_monad. rewrite Hst. simpl.
  rewrite (Qle_bool_false _ _ (Hwin _)). simpl.
  destruct (Z.leb_spec (requests_per_minute (self w)) (requests_made st)); simpl.
  - eexists _, _. split; [reflexivity|]. repeat split; [done..|].
    right. split; [done|]. rewrite max0_pos;
      pose proof (Hwin (S (ticks (clock w)))); lra.
  - eexists _, _. split; [reflexivity|]. repeat split; [done..|].
    left. done.
Qed.

Lemma record_request_present w key st :
  _states (self w) !! key = Some st ->
  exists st' w',
    record_request key w = (Ok tt, w') /\
    readings (clock w') = readings (clock w) /\
    same_config w w' /\
    _states (self w') !! key = Some st' /\
    requests_made st' = requests_made st + 1 /\
    window_start st' = window_start st.
Proof.
  intros Hst. unfold record_request, _get_state. run_monad. rewrite Hst. simpl.
  eexists _, _. split; [reflexivity|]. simpl.
  rewrite lookup_insert_eq. repeat split; done.
Qed.

Lemma drive_in_window n : forall w key st c,
  _states (self w) !! key = Some st ->
  in_window (readings (clock w)) (window_start st) ->
  0 < requests_per_minute (self w) ->
  0 <= c ->
  requests_made st = Z.min c (requests_per_minute (self w)) ->
  exists waits w',
    drive_calls n key w = (Ok waits, w') /\
    length waits = n /\
    forall (i : nat) wt, waits !! i = Some wt ->
      (c + Z.of_nat i < requests_per_minute (self w) -> wt = 0%Q) /\
      (requests_per_minute (self w) <= c + Z.of_nat i -> (0 < wt)%Q).
Proof.
  induction n as [|n IH]; intros w key st c Hst Hwin HN Hc Hmade.
  - exists [], w. repeat split; try done; intros; simplify_eq.
  - destruct (check_in_window w key st Hst Hwin)
      as (wait & w1 & Hchk & Hf1 & Hs1 & Hcase).
    simpl. unfold bind at 1. rewrite Hchk.
    destruct Hcase as [[Hlt ->] | [Hge Hpos]].
    + (* let through: the request is recorded *)
      assert (_states (self w1) !! key = Some st) as Hst1 by (by rewrite Hs1).
      destruct (record_request_present w1 key st Hst1)
        as (st2 & w2 & Hrec & Hf2 & (Hc1 & Hc2 & Hc3) & Hst2 & Hm2 & Hw2).
      unfold bind at 1. simpl. rewrite Hrec.
      destruct (IH w2 key st2 (c + 1)) as (waits & w3 & Hrun & Hlen & Hall).
      * done.
      * rewrite Hf2, Hf1, Hw2. done.
      * rewrite Hc1, Hs1. done.
      * lia.
      * rewrite Hc1, Hs1, Hm2, Hmade. lia.
      * unfold bind at 1. rewrite Hrun. unfold ret.
        eexists _, _. split; [reflexivity|]. split; [simpl; lia|].
        intros [|i] wt Hi; simpl in Hi.
        -- simplify_eq. split; [done|]. lia.
        -- destruct (Hall i wt Hi) as [Ha Hb].
           rewrite Hc1, Hs1 in Ha, Hb. split; intros; [apply Ha | apply Hb]; lia.
    + (* refused: nothing is recorded *)
      rewrite (Qeq_bool_pos _ Hpos). unfold bind at 1, ret at 1.
      assert (_states (self w1) !! key = Some st) as Hst1 by (by rewrite Hs1).
      destruct (IH w1 key st (c + 1)) as (waits & w3 & Hrun & Hlen & Hall).
      * done.
      * rewrite Hf1. done.
      * rewrite Hs1. done.
      * lia.
      * rewrite Hs1, Hmade. lia.
      * unfold bind at 1. rewrite Hrun. unfold ret.
        eexists _, _. split; [reflexivity|]. split; [simpl; lia|].
        intros [|i] wt Hi; simpl in Hi.
        -- simplify_eq. split; [lia|]. done.
        -- destruct (Hall i wt Hi) as [Ha Hb].
           rewrite Hs1 in Ha, Hb. split; intros; [apply Ha | apply Hb]; lia.
Qed.

Lemma created_fresh w key :
  _states (self w) !! key = None ->
  _states (self (created key w)) !! key
    = Some (mkState 0 (readings (clock w) (ticks (clock w))) 0 0 0) /\
  readings (clock (created key w)) = readings (clock w) /\
  same_config w (created key w).
Proof.
  intros H. unfold created, _get_state. run_monad. rewrite H. simpl.
  rewrite lookup_insert_eq. repeat split; done.
Qed.

Lemma check_created w key :
  check_rate_limit key w = check_rate_limit key (created key w).
Proof.
  unfold created, check_rate_limit, _get_state. run_monad.
  destruct (_states (self w) !! key) as [st|] eqn:E; simpl.
  - by rewrite E.
  - by rewrite lookup_insert_eq.
Qed.

(** Once the window has run out, a check starts a new one. *)
Lemma check_after_window w key st :
  _states (self w) !! key = Some st ->
  (60 <= readings (clock w) (ticks (clock w)) - window_start st)%Q ->
  let now := readings (clock w) (ticks (clock w)) in
  let st' := mkState 0 now 0 0 (last_request_time st) in
  exists wait w',
    check_rate_limit key w = (Ok wait, w') /\
    _states (self w') !! key = Some st' /\
    same_config w w' /\
    (0 < requests_per_minute (self w) -> wait = 0%Q).
Proof.
  intros Hst Hold now st'.
  unfold check_rate_limit, _get_state, _reset_window_if_needed.
  run_monad. rewrite Hst. simpl.
  apply Qle_bool_iff in Hold. rewrite Hold. simpl.
  destruct (Z.leb_spec (requests_per_minute (self w)) 0); simpl.
  - eexists _, _. split; [reflexivity|]. simpl.
    rewrite lookup_insert_eq. repeat split; try done. lia.
  - eexists _, _. split; [reflexivity|]. simpl.
    rewrite lookup_insert_eq. repeat split; done.
Qed.

(** C5.  With [N] requests per minute and a fresh key, while every clock
    reading stays within 60 seconds of the window start and each request that
    was let through is recorded, [check_rate_limit] returns 0 on the first
    [N] calls and a positive wait on every later one; a check made 60 seconds
    or more after the window start resets the window and returns 0. *)
Theorem check_rate_limit_window (w : World) (key : string) (n : nat) :
  _states (self w) !! key = None ->
  0 < requests_per_minute (self w) ->
  (forall i, readings (clock w) i - readings (clock w) (ticks (clock w)) < 60)%Q ->
  (exists waits w',
     drive_calls n key w = (Ok waits, w') /\
     length waits = n /\
     forall (i : nat) wt, waits !! i = Some wt ->
       (Z.of_nat i < requests_per_minute (self w) -> wt = 0%Q) /\
       (requests_per_minute (self w) <= Z.of_nat i -> (0 < wt)%Q)) /\
  (forall (w2 : World) st,
     _states (self w2) !! key = Some st ->
     0 < requests_per_minute (self w2) ->
     (60 <= readings (clock w2) (ticks (clock w2)) - window_start st)%Q ->
     exists w2' st',
       check_rate_limit key w2 = (Ok 0%Q, w2') /\
       _states (self w2') !! key = Some st' /\
       requests_made st' = 0 /\
       window_start st' = readings (clock w2) (ticks (clock w2))).
Proof.
  intros Hfresh HN Hwin. split.
  - destruct n as [|n].
    { exists [], w. repeat split; try done; intros; simplify_eq. }
    destruct (created_fresh w key Hfresh) as (Hst & Hf & (Hc1 & _)).
    destruct (drive_in_window (S n) (created key w) key _ 0 Hst)
      as (waits & w' & Hrun & Hlen & Hall).
    + simpl. intros i. rewrite Hf. apply Hwin.
    + by rewrite Hc1.
    + done.
    + simpl. rewrite Hc1. lia.
    + exists waits, w'. split; [|split; [done|]].
      * rewrite <- Hrun. simpl. unfold bind at 1 3.
        by rewrite (check_created w key).
      * intros i wt Hi. destruct (Hall i wt Hi) as [Ha Hb].
        rewrite Hc1 in Ha, Hb. split; intros; [apply Ha | apply Hb]; lia.
  - intros w2 st Hst HN2 Hold.
    destruct (check_after_window w2 key st Hst Hold)
      as (wait & w2' & Hchk & Hst' & _ & Hzero).
    rewrite (Hzero HN2) in Hchk.
    eexists _, _. split; [exact Hchk|]. split; [exact Hst'|]. done.
Qed.

Lemma w_five_in_window i :
  (readings (clock w_five) i
   - readings (clock w_five) (ticks (clock w_five)) < 60)%Q.
Proof.
  simpl. assert (Z.of_nat i # Pos.of_succ_nat i < 1)%Q as H.
  { unfold Qlt. simpl. lia. }
  assert ((0 # 1) == 0)%Q as H0 by reflexivity.
  rewrite H0. lra.
Defined.

Lemma check_rate_limit_window_witness :
  exists waits w',
    drive_calls 7 "test" w_five = (Ok waits, w') /\
    length waits = 7%nat /\
    forall (i : nat) wt, waits !! i = Some wt ->
      (Z.of_nat i < 5 -> wt = 0%Q) /\ (5 <= Z.of_nat i -> (0 < wt)%Q).
Proof.
  exact (proj1 (check_rate_limit_window w_five "test" 7
                  eq_refl eq_refl w_five_in_window)).
Defined.

(** [test_window_reset]: two requests used up, window start moved 61
    seconds into the past. *)
Example check_after_61_seconds :
  let w := mkWorld (mkClock (fun _ => 1700000061%Q) 0) []
             (mkLimiter 2 5 2 {[ "test" := mkState 2 1700000000 0 0 1700000001 ]}) in
  fst (check_rate_limit "test" w) = Ok 0%Q.
Proof. vm_compute. reflexivity. Qed.

(** *** Window reset and the retry counter *)

Lemma wait_if_needed_self w key :
  self (snd (wait_if_needed key w)) = self (snd (check_rate_limit key w)).
Proof.
  unfold wait_if_needed, bind.
  destruct (check_rate_limit key w) as [[wt|e] w1]; simpl; [|done].
  destruct (Qltb 0 wt); done.
Qed.

(** C9.  A check (directly or through [wait_if_needed]) made 60 seconds or
    more after the window start also zeroes the key's retry counter and
    back-off, whatever failure streak was pending and without any
    [record_success]; the next [record_failure] returns [backoff_base ** 1]. *)
Theorem window_reset_forgives_failures (w : World) (key : string)
    (st : RateLimiterState) :
  _states (self w) !! key = Some st ->
  (60 <= readings (clock w) (ticks (clock w)) - window_start st)%Q ->
  1 <= max_retries (self w) ->
  forall w',
    w' = snd (check_rate_limit key w) \/ w' = snd (wait_if_needed key w) ->
    (exists st', _states (self w') !! key = Some st' /\
                 retry_count st' = 0 /\ current_backoff st' = 0%Q) /\
    fst (record_failure key w') = Ok (backoff_base (self w) ^ 1)%Q.
Proof.
  intros Hst Hold Hmr w' Hw'.
  destruct (check_after_window w key st Hst Hold)
    as (wait & w1 & Hchk & Hst1 & (_ & Hc2 & Hc3) & _).
  assert (self w' = self w1) as Hself.
  { destruct Hw' as [-> | ->]; [|rewrite wait_if_needed_self]; by rewrite Hchk. }
  split.
  - rewrite Hself. eexists. split; [exact Hst1|]. split; reflexivity.
  - rewrite record_failure_result. unfold retries.
    rewrite Hself, Hst1, Hc2, Hc3. simpl.
    destruct (Z.ltb_spec (max_retries (self w)) (0 + 1)); [lia|reflexivity].
Qed.

Lemma window_reset_forgives_failures_witness :
  (exists st', _states (self (snd (wait_if_needed "api" w_streak))) !! "api" = Some st' /\
               retry_count st' = 0 /\ current_backoff st' = 0%Q) /\
  fst (record_failure "api" (snd (wait_if_needed "api" w_streak))) = Ok (2 ^ 1)%Q.
Proof.
  apply (window_reset_forgives_failures w_streak "api"
           (mkState 3 1700000000 16 4 1700000001));
    [reflexivity | vm_compute; discriminate | simpl; lia | right; reflexivity].
Defined.

(** *** Success, other keys, bounds of the wait, the decorator *)

Lemma record_success_world w key :
  exists st',
    record_success key w = (Ok tt, snd (record_success key w)) /\
    same_config w (snd (record_success key w)) /\
    slept (snd (record_success key w)) = slept w /\
    _states (self (snd (record_success key w))) !! key = Some st' /\
    retry_count st' = 0 /\ current_backoff st' = 0%Q /\
    forall st, _states (self w) !! key = Some st ->
      requests_made st' = requests_made st /\
      window_start st' = window_start st /\
      last_request_time st' = last_request_time st.
Proof.
  unfold record_success, _get_state. run_monad.
  destruct (_states (self w) !! key) as [st|] eqn:E; simpl;
    (eexists; split; [reflexivity|]; simpl; rewrite lookup_insert_eq;
     repeat split; try done; intros; by simplify_eq).
Qed.

(** X1.  [record_success] ends a failure streak of any length, also one
    that has already run into [RateLimitError]: the retry counter and the
    back-off of the key are zero afterwards, its request count and window are
    as before, and the next [record_failure] returns [backoff_base ** 1]. *)
Theorem record_success_restarts_backoff (w : World) (key : string) :
  1 <= max_retries (self w) ->
  let w1 := snd (record_success key w) in
  fst (record_success key w) = Ok tt /\
  retries key w1 = 0 /\
  fst (record_failure key w1) = Ok (backoff_base (self w) ^ 1)%Q /\
  forall st, _states (self w) !! key = Some st ->
    exists st', _states (self w1) !! key = Some st' /\
      current_backoff st' = 0%Q /\
      requests_made st' = requests_made st /\
      window_start st' = window_start st.
Proof.
  intros Hmr w1. subst w1.
  destruct (record_success_world w key)
    as (st' & Hrun & (_ & Hc2 & Hc3) & _ & Hst' & Hr & Hb & Hkeep).
  assert (retries key (snd (record_success key w)) = 0) as Hzero.
  { unfold retries. by rewrite Hst'. }
  split; [by rewrite Hrun|]. split; [exact Hzero|]. split.
  - rewrite record_failure_result, Hzero, Hc2, Hc3.
    destruct (Z.ltb_spec (max_retries (self w)) (0 + 1)); [lia | reflexivity].
  - intros st Hst. exists st'. destruct (Hkeep st Hst) as (? & ? & _). done.
Qed.

Lemma record_success_restarts_backoff_witness :
  let w1 := snd (record_success "test" (after_failures 6 "test" w_fresh)) in
  fst (record_failure "test" (after_failures 5 "test" w_fresh))
  = Raise (mkExn RateLimitError "Max retries (5) exceeded for test") /\
  retries "test" w1 = 0 /\
  fst (record_failure "test" w1) = Ok (2 ^ 1)%Q.
Proof.
  split; [vm_compute; reflexivity|].
  pose proof (record_success_restarts_backoff (after_failures 6 "test" w_fresh) "test")
    as Hx.
  destruct Hx as (_ & Hr & Hf & _); [vm_compute; discriminate|].
  split; [exact Hr | exact Hf].
Defined.

Lemma retry_state_other w key other st c :
  key <> other ->
  _states (mkLimiter (requests_per_minute (self w)) (max_retries (self w)) c
             (<[key := st]> (_states (self w)))) !! other
  = _states (self w) !! other.
Proof. intros Hne. simpl. by rewrite lookup_insert_ne. Qed.

Lemma check_rate_limit_other w key other :
  key <> other ->
  _states (self (snd (check_rate_limit key w))) !! other = _states (self w) !! other /\
  same_config w (snd (check_rate_limit key w)).
Proof.
  intros Hne. unfold check_rate_limit, _get_state, _reset_window_if_needed. run_monad.
  destruct (_states (self w) !! key) as [st|] eqn:E; simpl;
    repeat match goal with
           | |- context [if ?b then _ else _] => destruct b; simpl
           end;
    rewrite ?lookup_insert_ne by done; done.
Qed.

(** X2.  The limiter keeps one state per source key: a call of
    [check_rate_limit], [wait_if_needed], [record_request], [record_success],
    [record_failure] or [get_stats] for one key leaves the state of every
    other key, and the limiter's settings, as they were. *)
Theorem other_keys_untouched (w : World) (key other : string) :
  key <> other ->
  forall w', w' ∈ after_call key w ->
    _states (self w') !! other = _states (self w) !! other /\ same_config w w'.
Proof.
  intros Hne w' Hin. unfold after_call in Hin.
  repeat (apply elem_of_cons in Hin as [-> | Hin]).
  - by apply check_rate_limit_other.
  - rewrite wait_if_needed_self. destruct (check_rate_limit_other w key other Hne) as [? ?].
    split; [done|]. unfold same_config in *. by rewrite wait_if_needed_self.
  - unfold record_request, _get_state. run_monad.
    destruct (_states (self w) !! key) as [st|] eqn:E; simpl;
      rewrite ?lookup_insert_ne by done; done.
  - unfold record_success, _get_state. run_monad.
    destruct (_states (self w) !! key) as [st|] eqn:E; simpl;
      rewrite ?lookup_insert_ne by done; done.
  - unfold record_failure, _get_state. run_monad.
    destruct (_states (self w) !! key) as [st|] eqn:E; simpl;
      destruct (_ <? _); simpl; rewrite ?lookup_insert_ne by done; done.
  - unfold get_stats, _get_state. run_monad.
    destruct (_states (self w) !! key) as [st|] eqn:E; simpl;
      rewrite ?lookup_insert_ne by done; done.
  - by apply elem_of_nil in Hin.
Qed.

Lemma other_keys_untouched_witness :
  let w' := snd (record_failure "api" w_two_keys) in
  _states (self w') !! "rss" = _states (self w_two_keys) !! "rss" /\
  same_config w_two_keys w'.
Proof.
  apply (other_keys_untouched w_two_keys "api" "rss"); [discriminate|].
  unfold after_call. do 4 apply list_elem_of_further. apply list_elem_of_here.
Defined.

Lemma max0_nonneg x : (0 <= max0 x)%Q.
Proof.
  unfold max0. destruct (Qltb 0 x) eqn:E; [|lra].
  apply Qltb_lt in E. lra.
Qed.

Lemma max0_le x b : (0 <= b)%Q -> (x <= b)%Q -> (max0 x <= b)%Q.
Proof. intros Hb Hx. unfold max0. by destruct (Qltb 0 x). Qed.

(** X3.  [check_rate_limit] never raises and never returns a negative wait;
    on a clock that does not run backwards, with the window of the key not
    started in the future, the wait is at most the 60 seconds of a window. *)
Theorem check_rate_limit_wait_bounds (w : World) (key : string) :
  exists wait w',
    check_rate_limit key w = (Ok wait, w') /\
    (0 <= wait)%Q /\
    (monotone (readings (clock w)) ->
     (forall st, _states (self w) !! key = Some st ->
        (window_start st <= readings (clock w) (ticks (clock w)))%Q) ->
     (wait <= 60)%Q).
Proof.
  unfold check_rate_limit, _get_state, _reset_window_if_needed. run_monad.
  destruct (_states (self w) !! key) as [st|] eqn:E; simpl.
  - destruct (Qle_bool 60 _) eqn:Hreset; simpl.
    + destruct (_ <=? _); simpl; eexists _, _; (split; [reflexivity|]).
      * split; [apply max0_nonneg|]. intros Hmono _. apply max0_le; [lra|].
        pose proof (Hmono (ticks (clock w)) (S (ticks (clock w))) ltac:(lia)). lra.
      * split; [lra|]. intros; lra.
    + destruct (_ <=? _); simpl; eexists _, _; (split; [reflexivity|]).
      * split; [apply max0_nonneg|]. intros Hmono Hws. apply max0_le; [lra|].
        pose proof (Hmono (ticks (clock w)) (S (ticks (clock w))) ltac:(lia)).
        pose proof (Hws st eq_refl). lra.
      * split; [lra|]. intros; lra.
  - destruct (Qle_bool 60 _) eqn:Hreset; simpl.
    + destruct (_ <=? _); simpl; eexists _, _; (split; [reflexivity|]).
      * split; [apply max0_nonneg|]. intros Hmono _. apply max0_le; [lra|].
        pose proof (Hmono (S (ticks (clock w))) (S (S (ticks (clock w)))) ltac:(lia)). lra.
      * split; [lra|]. intros; lra.
    + destruct (_ <=? _); simpl; eexists _, _; (split; [reflexivity|]).
      * split; [apply max0_nonneg|]. intros Hmono _. apply max0_le; [lra|].
        pose proof (Hmono (ticks (clock w)) (S (S (ticks (clock w)))) ltac:(lia)). lra.
      * split; [lra|]. intros; lra.
Qed.

Lemma check_rate_limit_runs w key :
  exists wait, check_rate_limit key w = (Ok wait, snd (check_rate_limit key w)).
Proof.
  unfold check_rate_limit, _get_state, _reset_window_if_needed. run_monad.
  destruct (_states (self w) !! key) as [st|]; simpl;
    destruct (Qle_bool 60 _); simpl; destruct (_ <=? _); simpl;
    eexists; reflexivity.
Qed.

Lemma wait_if_needed_runs w key :
  wait_if_needed key w = (Ok tt, snd (wait_if_needed key w)).
Proof.
  unfold wait_if_needed, bind.
  destruct (check_rate_limit_runs w key) as (wait & ->).
  unfold time_sleep, modify, ret. by destruct (Qltb 0 wait).
Qed.

Lemma record_request_runs w key :
  record_request key w = (Ok tt, snd (record_request key w)).
Proof.
  unfold record_request, _get_state. run_monad.
  by destruct (_states (self w) !! key).
Qed.

Lemma record_failure_slept w key :
  slept (snd (record_failure key w)) = slept w.
Proof.
  unfold record_failure, _get_state. run_monad.
  destruct (_states (self w) !! key) as [st|]; simpl; by destruct (_ <? _).
Qed.

Lemma with_rate_limit_unfold {A} (w : World) (key : string) (func : M World A) :
  with_rate_limit key func w
  = match func (snd (record_request key (snd (wait_if_needed key w)))) with
    | (Ok v, w2) => (Ok v, snd (record_success key w2))
    | (Raise e, w2) =>
        match record_failure key w2 with
        | (Ok b, w3) => (Raise e, mkWorld (clock w3) (slept w3 ++ [b]) (self w3))
        | (Raise e', w3) => (Raise e', w3)
        end
    end.
Proof.
  unfold with_rate_limit, try_except, bind.
  pose proof (wait_if_needed_runs w key) as Hwait.
  destruct (wait_if_needed key w) as [r0 wa].
  cbn [fst snd] in *. injection Hwait as ->.
  pose proof (record_request_runs wa key) as Hreq.
  destruct (record_request key wa) as [r1 w1].
  cbn [fst snd] in *. injection Hreq as ->.
  destruct (func w1) as [[v|e] w2].
  - destruct (record_success_world w2 key) as (st' & Hrun & _).
    destruct (record_success key w2) as [r2 w3]. cbn [fst snd] in *.
    by injection Hrun as ->.
  - destruct (record_failure key w2) as [[b|e'] w3]; reflexivity.
Qed.

(** X4.  A function decorated by [with_rate_limit]: when it returns, the
    wrapper returns its value and the key's retry counter is zero; when it
    raises, the failure is counted, and either, with the retry budget used
    up, the wrapper raises [RateLimitError] in place of the function's
    exception, without sleeping, or, the back-off [backoff_base ** n] being
    a delay that [time.sleep] takes (not negative, not beyond 2^63
    nanoseconds), it sleeps the back-off and raises the function's exception
    again. *)
Theorem with_rate_limit_outcome {A} (w : World) (key : string) (func : M World A) :
  let w1 := snd (record_request key (snd (wait_if_needed key w))) in
  let r := with_rate_limit key func w in
  match func w1 with
  | (Ok v, w2) =>
      fst r = Ok v /\ retries key (snd r) = 0 /\ slept (snd r) = slept w2
  | (Raise e, w2) =>
      let n := retries key w2 + 1 in
      retries key (snd r) = n /\
      if max_retries (self w2) <? n then
        fst r = Raise (mkExn RateLimitError
                         (max_retries_message (max_retries (self w2)) key)) /\
        slept (snd r) = slept w2
      else
        sleepable (backoff_base (self w2) ^ n) = true ->
        fst r = Raise e /\
        slept (snd r) = slept w2 ++ [(backoff_base (self w2) ^ n)%Q]
  end.
Proof.
  intros w1 r. subst r. rewrite with_rate_limit_unfold. fold w1.
  destruct (func w1) as [[v|e] w2]; cbv beta iota zeta.
  - destruct (record_success_world w2 key) as (st' & _ & _ & Hsl & Hst' & Hr & _).
    cbn [fst snd].
    split; [done|]. split; [|done]. unfold retries. by rewrite Hst'.
  - pose proof (record_failure_result w2 key) as Hres.
    destruct (record_failure_world w2 key) as [Hret _].
    pose proof (record_failure_slept w2 key) as Hsl.
    destruct (record_failure key w2) as [[b|e'] w3]; cbn [fst snd] in *.
    + destruct (_ <? _); [done|]. simplify_eq.
      cbn [fst snd slept self].
      split; [done|]. intros _. split; [done|]. by rewrite Hsl.
    + destruct (_ <? _); [|done]. simplify_eq. done.
Qed.

End RateLimiterProofs.

(** ** Checkpoint manager *)

Module CheckpointProofs.
Import ETLCheckpoint CheckpointManager CheckpointSpec.

Ltac run_session :=
  unfold get_last_source_id, get_checkpoint, commit_new, commit_changed, refresh,
    try_except, bind, ret, raise, get, modify, db_statement, utcnow, clock_read;
  simpl.

Lemma get_checkpoint_ok s st :
  fault_at s 0 = None ->
  get_checkpoint st s = (Ok (checkpoint_of st s), set_statements (S (statements s)) s).
Proof. unfold fault_at. simpl. intros H. run_session. by rewrite H. Qed.

Lemma get_checkpoint_fault s st cause :
  fault_at s 0 = Some cause ->
  get_checkpoint st s
  = (Raise (mkExn CheckpointError ("Failed to get checkpoint: " +:+ exn_str cause)),
     set_statements (S (statements s)) s).
Proof. unfold fault_at. simpl. intros H. run_session. by rewrite H. Qed.

(** The manager only lets [CheckpointError] out. *)
Lemma get_checkpoint_raises s st e :
  fst (get_checkpoint st s) = Raise e -> exn_cls e = CheckpointError.
Proof.
  run_session. destruct (faults s (statements s)); simpl; intros H; by simplify_eq.
Qed.

Lemma try_except_wrap {S A} (c : M S A) (msg : exn -> string) s e :
  fst (try_except c (fun e => raise (mkExn CheckpointError (msg e))) s) = Raise e ->
  exn_cls e = CheckpointError.
Proof.
  unfold try_except, raise. destruct (c s) as [[a|e0] s']; simpl; intros H; by simplify_eq.
Qed.

Lemma update_checkpoint_raises s st lsid off md e :
  fst (update_checkpoint st lsid off md s) = Raise e -> exn_cls e = CheckpointError.
Proof. apply @try_except_wrap with (msg := fun e => _ +:+ exn_str e). Qed.

Lemma reset_checkpoint_raises s st e :
  fst (reset_checkpoint st s) = Raise e -> exn_cls e = CheckpointError.
Proof. apply @try_except_wrap with (msg := fun e => _ +:+ exn_str e). Qed.

Lemma update_checkpoint_creates s st lsid off md :
  checkpoint_of st s = None ->
  fault_at s 0 = None -> fault_at s 1 = None -> fault_at s 2 = None ->
  let now := readings (utc s) (ticks (utc s)) in
  exists row s',
    update_checkpoint st lsid off md s = (Ok row, s') /\
    etl_checkpoints s' = etl_checkpoints s ++ [row] /\
    source_type row = st /\
    last_source_id row = lsid /\
    last_offset row = default 0 off /\
    checkpoint_metadata row = md /\
    last_processed_at row = Some now.
Proof.
  intros Hnone H0 H1 H2 now. unfold fault_at, checkpoint_of in *. simpl in *.
  unfold update_checkpoint. run_session. rewrite H0. simpl. rewrite Hnone. simpl.
  rewrite H1. simpl. rewrite H2. simpl.
  eexists _, _. split; [reflexivity|]. simpl. repeat split; try done.
  destruct off as [o|]; simpl; [|done]. by destruct (Z.eqb_spec o 0).
Qed.

Lemma update_checkpoint_patches s st lsid off md c :
  checkpoint_of st s = Some c ->
  fault_at s 0 = None -> fault_at s 1 = None -> fault_at s 2 = None ->
  let now := readings (utc s) (ticks (utc s)) in
  let stamp := readings (utc s) (S (ticks (utc s))) in
  let row := patched c lsid off md now stamp in
  exists s',
    update_checkpoint st lsid off md s = (Ok row, s') /\
    etl_checkpoints s'
    = map (fun r => if bool_decide (id r = id c) then row else r) (etl_checkpoints s).
Proof.
  intros Hsome H0 H1 H2 now stamp row. unfold fault_at, checkpoint_of in *. simpl in *.
  unfold update_checkpoint. run_session. rewrite H0. simpl. rewrite Hsome. simpl.
  destruct lsid, off, md; simpl; rewrite H1; simpl; rewrite H2; simpl;
    (eexists; split; [reflexivity|]; simpl; done).
Qed.

Lemma update_checkpoint_fault s st lsid off md cause :
  fault_at s 0 = Some cause \/
  (fault_at s 0 = None /\ fault_at s 1 = Some cause) \/
  (fault_at s 0 = None /\ fault_at s 1 = None /\ fault_at s 2 = Some cause) ->
  wraps (fst (update_checkpoint st lsid off md s)) cause.
Proof.
  unfold fault_at, wraps. simpl.
  intros [H0 | [[H0 H1] | (H0 & H1 & H2)]];
    unfold update_checkpoint; run_session; rewrite H0; simpl.
  - exists "Failed to update checkpoint: Failed to get checkpoint: ".
    first [reflexivity | by rewrite string_app_assoc].
  - exists "Failed to update checkpoint: ".
    destruct (List.find _ _) as [c|]; simpl.
    + destruct lsid, off, md; simpl; by rewrite H1.
    + by rewrite H1.
  - exists "Failed to update checkpoint: ".
    destruct (List.find _ _) as [c|]; simpl.
    + destruct lsid, off, md; simpl; rewrite H1; simpl; by rewrite H2.
    + rewrite H1. simpl. by rewrite H2.
Qed.

Lemma reset_checkpoint_fault s st cause :
  fault_at s 0 = Some cause \/
  (fault_at s 0 = None /\ is_Some (checkpoint_of st s) /\ fault_at s 1 = Some cause) ->
  wraps (fst (reset_checkpoint st s)) cause.
Proof.
  unfold fault_at, wraps, checkpoint_of. simpl.
  intros [H0 | (H0 & [c Hc] & H1)];
    unfold reset_checkpoint; run_session; rewrite H0; simpl.
  - exists "Failed to reset checkpoint: Failed to get checkpoint: ".
    first [reflexivity | by rewrite string_app_assoc].
  - exists "Failed to reset checkpoint: ". rewrite Hc. simpl. by rewrite H1.
Qed.

(** C8.  [update_checkpoint] creates the row when the source type has none;
    on an existing row it overwrites exactly the cursor fields that were
    passed, leaves the others at their stored value, and stamps
    [last_processed_at] with the current time; a fault of the database in
    [get_checkpoint], [update_checkpoint] or [reset_checkpoint] comes out as a
    [CheckpointError] whose message carries the cause, and these functions
    raise nothing else. *)
Theorem update_checkpoint_upsert (s : Session) (st : SourceType)
    (lsid : option string) (off : option Z) (md : option pydict) :
  let now := readings (utc s) (ticks (utc s)) in
  (fault_at s 0 = None -> fault_at s 1 = None -> fault_at s 2 = None ->
   match checkpoint_of st s with
   | None =>
       exists row s',
         update_checkpoint st lsid off md s = (Ok row, s') /\
         etl_checkpoints s' = etl_checkpoints s ++ [row] /\
         source_type row = st /\
         last_source_id row = lsid /\
         last_offset row = default 0 off /\
         checkpoint_metadata row = md /\
         last_processed_at row = Some now
   | Some c =>
       exists row s',
         update_checkpoint st lsid off md s = (Ok row, s') /\
         etl_checkpoints s'
         = map (fun r => if bool_decide (id r = id c) then row else r)
             (etl_checkpoints s) /\
         id row = id c /\
         source_type row = source_type c /\
         last_source_id row
         = match lsid with Some v => Some v | None => last_source_id c end /\
         last_offset row = default (last_offset c) off /\
         checkpoint_metadata row
         = match md with Some v => Some v | None => checkpoint_metadata c end /\
         last_processed_at row = Some now
   end) /\
  (forall cause,
     (fault_at s 0 = Some cause -> wraps (fst (get_checkpoint st s)) cause) /\
     (fault_at s 0 = Some cause \/
      (fault_at s 0 = None /\ fault_at s 1 = Some cause) \/
      (fault_at s 0 = None /\ fault_at s 1 = None /\ fault_at s 2 = Some cause) ->
      wraps (fst (update_checkpoint st lsid off md s)) cause) /\
     (fault_at s 0 = Some cause \/
      (fault_at s 0 = None /\ is_Some (checkpoint_of st s) /\
       fault_at s 1 = Some cause) ->
      wraps (fst (reset_checkpoint st s)) cause)) /\
  (forall e,
     fst (get_checkpoint st s) = Raise e \/
     fst (update_checkpoint st lsid off md s) = Raise e \/
     fst (reset_checkpoint st s) = Raise e ->
     exn_cls e = CheckpointError).
Proof.
  intros now. split; [|split].
  - intros H0 H1 H2. destruct (checkpoint_of st s) as [c|] eqn:Hc.
    + destruct (update_checkpoint_patches s st lsid off md c Hc H0 H1 H2)
        as (s' & Hrun & Hrows).
      eexists _, s'. split; [exact Hrun|]. split; [exact Hrows|].
      repeat split; try done.
    + by apply update_checkpoint_creates.
  - intros cause. split; [|split].
    + intros H0. rewrite (get_checkpoint_fault _ _ _ H0). simpl.
      by exists "Failed to get checkpoint: ".
    + apply update_checkpoint_fault.
    + apply reset_checkpoint_fault.
  - intros e [H | [H | H]].
    + by eapply get_checkpoint_raises.
    + by eapply update_checkpoint_raises.
    + by eapply reset_checkpoint_raises.
Qed.

Lemma update_checkpoint_upsert_witness :
  exists row s',
    update_checkpoint CSV (Some "test:200") None None s_one_checkpoint = (Ok row, s') /\
    etl_checkpoints s'
    = map (fun r => if bool_decide (id r = id stored_checkpoint) then row else r)
        (etl_checkpoints s_one_checkpoint) /\
    id row = id stored_checkpoint /\
    source_type row = source_type stored_checkpoint /\
    last_source_id row = Some "test:200" /\
    last_offset row = default (last_offset stored_checkpoint) None /\
    checkpoint_metadata row = checkpoint_metadata stored_checkpoint /\
    last_processed_at row
    = Some (readings (utc s_one_checkpoint) (ticks (utc s_one_checkpoint))).
Proof.
  exact (proj1 (update_checkpoint_upsert s_one_checkpoint CSV (Some "test:200") None None)
           eq_refl eq_refl eq_refl).
Defined.

(** A statement that meets [OperationalError] on commit. *)
Example update_checkpoint_commit_fault :
  let s := mkSession (mkClock (fun _ => 0%Q) 0)
             (fun n => if (n =? 1)%nat then Some (mkExn Exception_ "connection lost")
                       else None)
             0 (fun _ => "") 0 [stored_checkpoint] 2 [] 1 [] 1 in
  update_checkpoint CSV (Some "test:200") None None s
  = (Raise (mkExn CheckpointError "Failed to update checkpoint: connection lost"),
     set_utc (mkClock (fun _ => 0%Q) 1) (set_statements 2 s)).
Proof. reflexivity. Qed.

(** *** Incremental filter *)

Lemma should_process_result s st sid :
  fault_at s 0 = None ->
  fst (should_process st sid s)
  = Ok (match checkpoint_of st s with
        | Some c =>
            match last_source_id c with
            | Some last_id => String.ltb last_id sid
            | None => true
            end
        | None => true
        end).
Proof.
  intros H0. unfold should_process, get_last_source_id, bind.
  rewrite (get_checkpoint_ok _ _ H0). unfold ret. simpl.
  destruct (checkpoint_of st s) as [c|]; simpl; [|done].
  by destruct (last_source_id c).
Qed.

(** C6.  Without a checkpoint for the source type [should_process] accepts
    every [source_id]; with [last_source_id = "test:50"] it accepts
    ["test:6"] and ["test:51"], since it compares strings character by
    character: the answer is [last_source_id < source_id] on [str], under
    which ["test:100"] is not accepted. *)
Theorem should_process_lexicographic (s : Session) (st : SourceType) :
  fault_at s 0 = None ->
  (checkpoint_of st s = None ->
   forall sid, fst (should_process st sid s) = Ok true) /\
  (forall c last_id,
     checkpoint_of st s = Some c -> last_source_id c = Some last_id ->
     (forall sid, fst (should_process st sid s) = Ok (String.ltb last_id sid)) /\
     (last_id = "test:50" ->
      fst (should_process st "test:6" s) = Ok true /\
      fst (should_process st "test:51" s) = Ok true /\
      fst (should_process st "test:100" s) = Ok false)).
Proof.
  intros H0. split.
  - intros Hnone sid. rewrite (should_process_result _ _ _ H0). by rewrite Hnone.
  - intros c last_id Hc Hlast.
    assert (forall sid, fst (should_process st sid s) = Ok (String.ltb last_id sid)) as Hcmp.
    { intros sid. rewrite (should_process_result _ _ _ H0). by rewrite Hc, Hlast. }
    split; [exact Hcmp|]. intros ->. rewrite !Hcmp. done.
Qed.

Lemma should_process_lexicographic_witness :
  fst (should_process CSV "test:6" s_test_50) = Ok true /\
  fst (should_process CSV "test:51" s_test_50) = Ok true /\
  fst (should_process CSV "test:100" s_test_50) = Ok false.
Proof.
  exact (proj2 (proj2 (should_process_lexicographic s_test_50 CSV eq_refl)
                  _ "test:50" eq_refl eq_refl) eq_refl).
Defined.

End CheckpointProofs.

(** ** Dual upsert *)

Module UpsertProofs.
Import UpsertSpec.


Lemma find_app_some {A} (p : A -> bool) (l l' : list A) a :
  List.find p l = Some a -> List.find p (l ++ l') = Some a.
Proof.
  induction l as [|b l IH]; simpl; [done|]. by destruct (p b).
Qed.

Lemma find_app_none {A} (p : A -> bool) (l l' : list A) :
  List.find p l = None -> List.find p (l ++ l') = List.find p l'.
Proof.
  induction l as [|b l IH]; simpl; [done|]. by destruct (p b).
Qed.

(** *** The raw table *)




(** *** The unified table *)




(** *** One record *)

Section WithRuntime.
Context `{PyRuntime}.

#[local] Arguments raw_lengths : simpl never.
#[local] Arguments unified_lengths : simpl never.
#[local] Arguments upsert_raw : simpl never.
#[local] Arguments upsert_unified : simpl never.
#[local] Arguments List.find : simpl never.












(** *** A list of records *)



End WithRuntime.

(** *** Closed instances *)



(** The two passes of that instance, by evaluation: two rows after each. *)
Example two_coins_twice :
  let once := (dual_upsert_all (H := example_runtime) APIExtractor [bitcoin; ethereum]
                 (empty_store one_day)).2 in
  (dual_upsert_all (H := example_runtime) APIExtractor [bitcoin; ethereum] once).1 = Ok tt /\
  unified_keys once = [(API, "1"); (API, "2")] /\
  unified_keys (dual_upsert_all (H := example_runtime) APIExtractor [bitcoin; ethereum]
                  once).2 = [(API, "1"); (API, "2")].
Proof. vm_compute. done. Qed.


Example dual_upsert_api_next_day_rows :
  let once := (dual_upsert_all (H := example_runtime) APIExtractor [bitcoin]
                 (empty_store two_days)).2 in
  let twice := (dual_upsert_all (H := example_runtime) APIExtractor [bitcoin] once).2 in
  map RawData.source_id (rows (raw_api_data twice))
  = ["coinpaprika:btc-bitcoin:2023-11-14"; "coinpaprika:btc-bitcoin:2023-11-15"] /\
  unified_keys once = [(API, "1")] /\
  unified_keys twice = [(API, "1"); (API, "2")].
Proof. vm_compute. done. Qed.

(** A title of 501 characters: [load_raw] stores the raw row, [load_unified]
    raises what the database says, no unified row is written, and the
    transaction stays aborted. *)
Example long_title_refused :
  let r := dual_upsert (H := example_runtime) APIExtractor long_title
             (empty_store one_day) in
  r.1 = Raise (value_too_long 500) /\
  length (rows (raw_api_data r.2)) = 1%nat /\
  unified_keys r.2 = [] /\
  transaction_aborted r.2 = true.
Proof. vm_compute. done. Qed.

End UpsertProofs.

(** ** Checkpoint manager: the table across calls *)

Module CheckpointTableProofs.
Import ETLCheckpoint CheckpointManager CheckpointSpec CheckpointProofs.

(** *** What a call writes *)

Ltac nothing_written :=
  exists None; split; [by constructor|]; split; [done|]; split; [done|]; intros; congruence.

Ltac row_written Hc Hst :=
  eexists (Some _); split;
  [ first [ eapply written_over; [exact Hc | reflexivity | reflexivity | reflexivity | exact Hst]
          | eapply written_new; [exact Hc | reflexivity ..] ] |];
  split; [intros ? ?; by simplify_eq|];
  split; [intros [?|?]; congruence|];
  intros _ _; eexists; split; [reflexivity|]; by split.

Lemma update_checkpoint_written s st lsid off md :
  exists o,
    written st s (update_checkpoint st lsid off md s).2 o /\
    (forall row, (update_checkpoint st lsid off md s).1 = Ok row -> o = Some row) /\
    (fault_at s 0 <> None \/ fault_at s 1 <> None -> o = None) /\
    (fault_at s 0 = None -> fault_at s 1 = None ->
     exists row, o = Some row /\
       last_processed_at row = Some (readings (utc s) (ticks (utc s))) /\
       last_source_id row
       = match lsid with
         | Some v => Some v
         | None => match checkpoint_of st s with Some c => last_source_id c | None => None end
         end).
Proof.
  unfold fault_at, checkpoint_of. simpl.
  unfold update_checkpoint. run_session.
  destruct (faults s (statements s)) as [e0|] eqn:H0; simpl; [nothing_written|].
  destruct (List.find _ (etl_checkpoints s)) as [c|] eqn:Hc; simpl.
  - assert (source_type c = st) as Hst.
    { apply List.find_some in Hc as [_ Hc]. by apply bool_decide_eq_true in Hc. }
    destruct lsid, off, md; simpl;
      (destruct (faults s (S (statements s))) as [e1|] eqn:H1; simpl; [nothing_written|]);
      destruct (faults s (S (S (statements s)))) as [e2|] eqn:H2; simpl;
      row_written Hc Hst.
  - destruct (faults s (S (statements s))) as [e1|] eqn:H1; simpl; [nothing_written|].
    destruct lsid;
      destruct (faults s (S (S (statements s)))) as [e2|] eqn:H2; simpl;
      row_written Hc Hc.
Qed.

Lemma reset_checkpoint_written s st :
  exists o,
    written st s (reset_checkpoint st s).2 o /\
    (fault_at s 0 = None -> fault_at s 1 = None ->
     (reset_checkpoint st s).1 = Ok tt /\
     match checkpoint_of st s with
     | Some c =>
         exists stamp, o = Some (mk (id c) (source_type c) None None 0 None stamp)
     | None => o = None
     end).
Proof.
  unfold fault_at, checkpoint_of. simpl.
  unfold reset_checkpoint. run_session.
  destruct (faults s (statements s)) as [e0|] eqn:H0; simpl.
  { exists None. split; [by constructor | congruence]. }
  destruct (List.find _ (etl_checkpoints s)) as [c|] eqn:Hc; simpl.
  - assert (source_type c = st) as Hst.
    { apply List.find_some in Hc as [_ Hc]. by apply bool_decide_eq_true in Hc. }
    destruct (faults s (S (statements s))) as [e1|] eqn:H1; simpl.
    + exists None. split; [by constructor | congruence].
    + eexists (Some _). split.
      * eapply written_over; [exact Hc | reflexivity | reflexivity | reflexivity | exact Hst].
      * intros _ _. split; [done|]. by eexists.
  - exists None. split; [by constructor|]. done.
Qed.

Lemma find_source_type_none st (l : list t) :
  List.find (fun c => bool_decide (source_type c = st)) l = None <->
  st ∉ map source_type l.
Proof.
  induction l as [|c l IH]; simpl.
  - split; [intros _; apply not_elem_of_nil | done].
  - rewrite not_elem_of_cons. destruct (bool_decide_reflect (source_type c = st)) as [Heq|Hne].
    + split; [done | intros [Hn _]; congruence].
    + rewrite IH. split; [intros ?; split; congruence | tauto].
Qed.

Lemma find_replace_same st (l : list t) c row :
  List.find (fun c => bool_decide (source_type c = st)) l = Some c ->
  source_type row = st ->
  List.find (fun c => bool_decide (source_type c = st))
    (map (fun r => if bool_decide (id r = id c) then row else r) l) = Some row.
Proof.
  intros Hfind Hrow. induction l as [|a l IH]; simpl in *; [done|].
  destruct (bool_decide_reflect (id a = id c)) as [Hid|Hid].
  - by rewrite bool_decide_eq_true_2.
  - destruct (bool_decide_reflect (source_type a = st)) as [Ha|Ha].
    + by simplify_eq.
    + by apply IH.
Qed.

(** The row for the source type after a write is the row written. *)
Lemma written_lookup st s s' row :
  written st s s' (Some row) -> checkpoint_of st s' = Some row.
Proof.
  inversion 1 as [| ? Hnone Hrows _ _ Hst | c ? Hsome Hrows _ _ Hst]; subst;
    unfold checkpoint_of in *; rewrite Hrows.
  - rewrite (UpsertProofs.find_app_none _ _ _ Hnone). simpl.
    by rewrite bool_decide_eq_true_2.
  - by apply find_replace_same.
Qed.

Lemma id_determines_row (l : list t) a c :
  NoDup (map id l) -> a ∈ l -> c ∈ l -> id a = id c -> a = c.
Proof.
  induction l as [|b l IH]; simpl; intros Hnd Ha Hc Hid.
  - by apply elem_of_nil in Ha.
  - apply NoDup_cons in Hnd as [Hb Hnd].
    apply elem_of_cons in Ha as [-> | Ha]; apply elem_of_cons in Hc as [-> | Hc].
    + done.
    + exfalso. apply Hb. rewrite Hid. by apply list_elem_of_fmap_2.
    + exfalso. apply Hb. rewrite <- Hid. by apply list_elem_of_fmap_2.
    + by apply IH.
Qed.

Lemma find_ext_in {A} (p : A -> bool) (g : A -> A) (l : list A) :
  (forall a, a ∈ l -> p (g a) = p a /\ (p a = true -> g a = a)) ->
  List.find p (map g l) = List.find p l.
Proof.
  induction l as [|a l IH]; intros Hg; simpl; [done|].
  destruct (Hg a) as [Hp Hfix]; [by left|]. rewrite Hp.
  destruct (p a) eqn:E.
  - by rewrite Hfix.
  - apply IH. intros b Hb. apply Hg. by right.
Qed.

Lemma map_ext_elem {A B} (f : A -> B) (g : A -> A) (l : list A) :
  (forall a, a ∈ l -> f (g a) = f a) -> map f (map g l) = map f l.
Proof.
  intros Hg. rewrite map_map. apply map_ext_in. intros a Ha. apply Hg.
  by apply list_elem_of_In.
Qed.

(** A write for one source type leaves the rows of the others alone. *)
Lemma written_other st s s' o other :
  well_formed s -> written st s s' o -> other <> st ->
  checkpoint_of other s' = checkpoint_of other s.
Proof.
  intros (_ & Hids & _) Hw Hne. unfold checkpoint_of.
  inversion Hw as [Hrows _ | row Hnone Hrows _ _ Hst | c row Hsome Hrows _ Hid Hst];
    subst; rewrite Hrows.
  - done.
  - destruct (List.find _ (etl_checkpoints s)) as [r|] eqn:E.
    + by apply UpsertProofs.find_app_some.
    + rewrite (UpsertProofs.find_app_none _ _ _ E). simpl.
      by rewrite bool_decide_eq_false_2.
  - apply List.find_some in Hsome as [Hin Hc].
    apply bool_decide_eq_true in Hc. apply list_elem_of_In in Hin.
    apply find_ext_in. intros a Ha.
    destruct (bool_decide_reflect (id a = id c)) as [Heq|Hneq]; [|done].
    assert (a = c) as -> by (by eapply id_determines_row).
    rewrite !bool_decide_eq_false_2 by congruence. done.
Qed.

(** The manager keeps the constraints of the table. *)
Lemma written_well_formed st s s' o :
  well_formed s -> written st s s' o -> well_formed s'.
Proof.
  intros (Htypes & Hids & Hseq) Hw. unfold well_formed.
  inversion Hw as [Hrows Hs | row Hnone Hrows Hs Hid Hst | c row Hsome Hrows Hs Hid Hst];
    subst; rewrite Hrows, Hs.
  - done.
  - rewrite !map_app. simpl. split; [|split].
    + apply NoDup_app. split; [done|]. split; [|apply NoDup_singleton].
      intros x Hx Hx'. apply list_elem_of_singleton in Hx'. subst x.
      by apply find_source_type_none in Hnone.
    + apply NoDup_app. split; [done|]. split; [|apply NoDup_singleton].
      intros x Hx Hx'. apply list_elem_of_singleton in Hx'. subst x.
      apply list_elem_of_fmap in Hx as (r & Hr & Hin).
      rewrite Forall_forall in Hseq. specialize (Hseq r Hin). lia.
    + apply Forall_app. split.
      * eapply Forall_impl; [exact Hseq|]. simpl. intros; lia.
      * apply Forall_singleton. lia.
  - apply List.find_some in Hsome as [Hin Hc].
    apply bool_decide_eq_true in Hc. apply list_elem_of_In in Hin.
    assert (forall a, a ∈ etl_checkpoints s ->
              (if bool_decide (id a = id c) then row else a) = a \/
              (a = c /\ (if bool_decide (id a = id c) then row else a) = row)) as Hg.
    { intros a Ha. destruct (bool_decide_reflect (id a = id c)) as [Heq|Hneq]; [|by left].
      right. split; [by eapply id_determines_row | done]. }
    rewrite !map_ext_elem.
    + split; [done|]. split; [done|].
      apply Forall_forall. intros x Hx. apply list_elem_of_fmap in Hx as (a & -> & Ha).
      rewrite Forall_forall in Hseq.
      destruct (Hg a Ha) as [-> | [-> ->]]; [by apply Hseq|].
      rewrite Hid. by apply Hseq.
    + intros a Ha. destruct (Hg a Ha) as [-> | [-> ->]]; done.
    + intros a Ha. destruct (Hg a Ha) as [-> | [-> ->]]; [done | congruence].
Qed.

Lemma update_checkpoint_ok s st lsid off md row s' :
  update_checkpoint st lsid off md s = (Ok row, s') ->
  fault_at s 0 = None /\ fault_at s 1 = None /\ fault_at s 2 = None.
Proof.
  unfold fault_at. simpl. unfold update_checkpoint. run_session.
  destruct (faults s (statements s)); simpl; [done|].
  destruct (List.find _ _) as [c|]; simpl.
  - destruct lsid, off, md; simpl;
      (destruct (faults s (S (statements s))); simpl; [done|]);
      destruct (faults s (S (S (statements s)))); simpl; done.
  - destruct (faults s (S (statements s))); simpl; [done|].
    destruct (faults s (S (S (statements s)))); simpl; done.
Qed.

(** The row a successful [update_checkpoint] returns is the stored one, and
    holds what was passed or, where [None] was passed, what was stored. *)
Lemma update_checkpoint_stored s st lsid off md row s' :
  update_checkpoint st lsid off md s = (Ok row, s') ->
  checkpoint_of st s' = Some row /\
  last_source_id row
  = match lsid with
    | Some v => Some v
    | None => checkpoint_of st s ≫= last_source_id
    end /\
  last_offset row
  = match off with
    | Some o => o
    | None => from_option last_offset 0 (checkpoint_of st s)
    end /\
  checkpoint_metadata row
  = match md with
    | Some v => Some v
    | None => checkpoint_of st s ≫= checkpoint_metadata
    end.
Proof.
  intros Hrun.
  destruct (update_checkpoint_ok _ _ _ _ _ _ _ Hrun) as (H0 & H1 & H2).
  destruct (update_checkpoint_written s st lsid off md) as (o & Hw & Hrow & _).
  rewrite Hrun in Hw, Hrow. simpl in Hw, Hrow. rewrite (Hrow row eq_refl) in Hw.
  split; [by eapply written_lookup|].
  destruct (checkpoint_of st s) as [c|] eqn:Hc.
  - destruct (update_checkpoint_patches s st lsid off md c Hc H0 H1 H2) as (s2 & Hrun2 & _).
    rewrite Hrun in Hrun2. injection Hrun2 as -> _. by destruct lsid, off, md.
  - destruct (update_checkpoint_creates s st lsid off md Hc H0 H1 H2)
      as (row2 & s2 & Hrun2 & _ & _ & Hl & Ho & Hm & _).
    rewrite Hrun in Hrun2. injection Hrun2 as -> _. rewrite Hl, Ho, Hm.
    by destruct lsid, off, md.
Qed.

(** X5.  What [update_checkpoint] has stored is what the readers return
    next: [get_checkpoint] gives the row that was returned,
    [get_last_source_id] and [get_last_offset] the values passed, or the
    stored ones where [None] was passed (no id and offset 0 without a row),
    and [should_process] compares with the new [last_source_id]. *)
Theorem update_checkpoint_round_trip (s s' : Session) (st : SourceType)
    (lsid : option string) (off : option Z) (md : option pydict) (row : t) :
  update_checkpoint st lsid off md s = (Ok row, s') ->
  fault_at s' 0 = None ->
  fst (get_checkpoint st s') = Ok (Some row) /\
  fst (get_last_source_id st s')
  = Ok (match lsid with
        | Some v => Some v
        | None => checkpoint_of st s ≫= last_source_id
        end) /\
  fst (get_last_offset st s')
  = Ok (match off with
        | Some o => o
        | None => from_option last_offset 0 (checkpoint_of st s)
        end) /\
  forall sid x, lsid = Some sid ->
    fst (should_process st x s') = Ok (String.ltb sid x).
Proof.
  intros Hrun Hnext.
  destruct (update_checkpoint_stored _ _ _ _ _ _ _ Hrun) as (Hlook & Hlsid & Hoff & _).
  split; [|split; [|split]].
  - by rewrite (get_checkpoint_ok _ _ Hnext), Hlook.
  - unfold get_last_source_id, bind.
    rewrite (get_checkpoint_ok _ _ Hnext), Hlook. unfold ret. simpl. by rewrite Hlsid.
  - unfold get_last_offset, bind.
    rewrite (get_checkpoint_ok _ _ Hnext), Hlook. unfold ret. simpl. by rewrite Hoff.
  - intros sid x ->. rewrite (should_process_result _ _ _ Hnext), Hlook. by rewrite Hlsid.
Qed.

Lemma update_checkpoint_round_trip_witness :
  exists row s',
    update_checkpoint CSV (Some "test:200") None None s_one_checkpoint = (Ok row, s') /\
    fst (get_checkpoint CSV s') = Ok (Some row) /\
    fst (get_last_source_id CSV s') = Ok (Some "test:200") /\
    fst (get_last_offset CSV s') = Ok 100 /\
    fst (should_process CSV "test:3" s') = Ok true.
Proof.
  eexists _, _. split; [reflexivity|].
  match goal with |- context [get_checkpoint CSV ?s'] =>
    destruct (update_checkpoint_round_trip s_one_checkpoint s' CSV (Some "test:200")
                None None _ eq_refl eq_refl) as (Hget & Hid & Hoff & Hsp)
  end.
  split; [exact Hget|]. split; [exact Hid|]. split; [exact Hoff|].
  exact (Hsp "test:200" "test:3" eq_refl).
Defined.

(** X6.  A fault of the database while [update_checkpoint] reads the
    checkpoint or commits leaves the checkpoint table as it was.  A fault
    of the [refresh] that follows the commit also raises [CheckpointError],
    but then the row is written: the stored checkpoint has the new
    [last_source_id] and time although the call failed. *)
Theorem update_checkpoint_failure_atomicity (s : Session) (st : SourceType)
    (lsid : option string) (off : option Z) (md : option pydict) (cause : exn) :
  let r := update_checkpoint st lsid off md s in
  (fault_at s 0 = Some cause \/ (fault_at s 0 = None /\ fault_at s 1 = Some cause) ->
   wraps r.1 cause /\
   etl_checkpoints r.2 = etl_checkpoints s /\
   etl_checkpoints_seq r.2 = etl_checkpoints_seq s) /\
  (fault_at s 0 = None /\ fault_at s 1 = None /\ fault_at s 2 = Some cause ->
   wraps r.1 cause /\
   exists row,
     checkpoint_of st r.2 = Some row /\
     last_processed_at row = Some (readings (utc s) (ticks (utc s))) /\
     last_source_id row
     = match lsid with
       | Some v => Some v
       | None => checkpoint_of st s ≫= last_source_id
       end).
Proof.
  intros r. subst r.
  destruct (update_checkpoint_written s st lsid off md) as (o & Hw & _ & Hnone & Hsome).
  split.
  - intros Hf. split; [apply update_checkpoint_fault; tauto|].
    rewrite Hnone in Hw by (destruct Hf as [-> | [_ ->]]; [by left | by right]).
    by inversion Hw.
  - intros (H0 & H1 & H2). split; [apply update_checkpoint_fault; tauto|].
    destruct (Hsome H0 H1) as (row & -> & Hat & Hlsid).
    exists row. split; [by eapply written_lookup|]. split; [done|].
    rewrite Hlsid. destruct lsid; [done|]. by destruct (checkpoint_of st s).
Qed.

Lemma update_checkpoint_failure_atomicity_witness :
  let r := update_checkpoint CSV (Some "test:200") None None s_refresh_fault in
  wraps r.1 (mkExn Exception_ "connection lost") /\
  exists row,
    checkpoint_of CSV r.2 = Some row /\
    last_processed_at row = Some 1700000100%Q /\
    last_source_id row = Some "test:200".
Proof.
  exact (proj2 (update_checkpoint_failure_atomicity s_refresh_fault CSV (Some "test:200")
                  None None (mkExn Exception_ "connection lost"))
           (conj eq_refl (conj eq_refl eq_refl))).
Defined.

(** X7.  [reset_checkpoint] keeps the row of the source type and clears its
    cursor: [last_source_id], [last_processed_at] and the metadata are
    [None] and [last_offset] is 0, no row is added or removed, and
    [should_process] then accepts every source id.  Without a row for the
    source type nothing is written. *)
Theorem reset_checkpoint_clears (s : Session) (st : SourceType) :
  fault_at s 0 = None -> fault_at s 1 = None ->
  let s' := (reset_checkpoint st s).2 in
  (reset_checkpoint st s).1 = Ok tt /\
  length (etl_checkpoints s') = length (etl_checkpoints s) /\
  match checkpoint_of st s with
  | Some c =>
      exists row,
        checkpoint_of st s' = Some row /\
        id row = id c /\
        last_source_id row = None /\
        last_offset row = 0 /\
        last_processed_at row = None /\
        checkpoint_metadata row = None
  | None => etl_checkpoints s' = etl_checkpoints s
  end /\
  (fault_at s' 0 = None -> forall sid, fst (should_process st sid s') = Ok true).
Proof.
  intros H0 H1 s'. subst s'.
  destruct (reset_checkpoint_written s st) as (o & Hw & Hres).
  destruct (Hres H0 H1) as [Hok Ho]. split; [exact Hok|].
  destruct (checkpoint_of st s) as [c|] eqn:Hc.
  - destruct Ho as (stamp & ->).
    pose proof (written_lookup _ _ _ _ Hw) as Hlook.
    split; [|split].
    + inversion Hw as [| row' Hn | c' row' Hs Hrows]; [congruence|].
      by rewrite Hrows, length_map.
    + eexists. split; [exact Hlook|]. done.
    + intros Hnext sid. by rewrite (should_process_result _ _ _ Hnext), Hlook.
  - subst o. inversion Hw as [Hrows _ | |].
    split; [by rewrite Hrows|]. split; [done|].
    intros Hnext sid. rewrite (should_process_result _ _ _ Hnext).
    unfold checkpoint_of in *. by rewrite Hrows, Hc.
Qed.

Lemma reset_checkpoint_clears_witness :
  let s' := (reset_checkpoint CSV s_one_checkpoint).2 in
  (reset_checkpoint CSV s_one_checkpoint).1 = Ok tt /\
  length (etl_checkpoints s') = 1%nat /\
  (exists row,
     checkpoint_of CSV s' = Some row /\
     id row = 1 /\
     last_source_id row = None /\
     last_offset row = 0 /\
     last_processed_at row = None /\
     checkpoint_metadata row = None) /\
  (fault_at s' 0 = None -> forall sid, fst (should_process CSV sid s') = Ok true).
Proof.
  exact (reset_checkpoint_clears s_one_checkpoint CSV eq_refl eq_refl).
Defined.

(** X8.  [update_checkpoint] and [reset_checkpoint] keep the constraints of
    the checkpoint table, whatever the database does to their statements:
    one row per source type, distinct primary keys below the sequence; and
    they leave the checkpoint of every other source type as it was. *)
Theorem checkpoint_writes_keep_constraints (s : Session) (st : SourceType)
    (lsid : option string) (off : option Z) (md : option pydict) :
  well_formed s ->
  forall s',
    s' = (update_checkpoint st lsid off md s).2 \/ s' = (reset_checkpoint st s).2 ->
    well_formed s' /\
    forall other, other <> st -> checkpoint_of other s' = checkpoint_of other s.
Proof.
  intros Hwf s' [-> | ->].
  - destruct (update_checkpoint_written s st lsid off md) as (o & Hw & _).
    split; [by eapply written_well_formed|]. intros other Hne. by eapply written_other.
  - destruct (reset_checkpoint_written s st) as (o & Hw & _).
    split; [by eapply written_well_formed|]. intros other Hne. by eapply written_other.
Qed.

Lemma s_two_checkpoints_well_formed : well_formed s_two_checkpoints.
Proof.
  unfold well_formed. simpl. split; [|split].
  - apply (bool_decide_unpack _). vm_compute. exact I.
  - apply (bool_decide_unpack _). vm_compute. exact I.
  - repeat constructor.
Defined.

Lemma checkpoint_writes_keep_constraints_witness :
  let s' := (update_checkpoint CSV (Some "test:200") (Some 7) None s_two_checkpoints).2 in
  well_formed s' /\
  forall other, other <> CSV -> checkpoint_of other s' = checkpoint_of other s_two_checkpoints.
Proof.
  exact (checkpoint_writes_keep_constraints s_two_checkpoints CSV (Some "test:200")
           (Some 7) None s_two_checkpoints_well_formed _ (or_introl eq_refl)).
Defined.

Section WithRuntime.
Context `{PyRuntime}.

Lemma SourceType_value_inj a b : SourceType_value a = SourceType_value b -> a = b.
Proof. by destruct a, b. Qed.

Lemma summaries_lookup (l : list t) : forall (d : gmap string CheckpointSummary) st,
  NoDup (map source_type l) ->
  foldl (fun d cp => <[SourceType_value (source_type cp) := summary_of cp]> d) d l
    !! SourceType_value st
  = match List.find (fun c => bool_decide (source_type c = st)) l with
    | Some c => Some (summary_of c)
    | None => d !! SourceType_value st
    end.
Proof.
  induction l as [|c l IH]; intros d st Hnd; simpl; [done|].
  apply NoDup_cons in Hnd as [Hc Hnd]. rewrite IH by done.
  destruct (bool_decide_reflect (source_type c = st)) as [<-|Hne].
  - apply find_source_type_none in Hc. rewrite Hc. by rewrite lookup_insert_eq.
  - destruct (List.find _ l); [done|].
    rewrite lookup_insert_ne; [done|]. intros Heq. by apply SourceType_value_inj in Heq.
Qed.

(** X9.  With one row per source type, [get_all_checkpoints] has, under
    the value of each source type, the summary of the row [get_checkpoint]
    returns for it, and no entry for a source type without a row. *)
Theorem get_all_checkpoints_agrees (s : Session) :
  NoDup (map source_type (etl_checkpoints s)) ->
  fault_at s 0 = None ->
  exists d,
    fst (get_all_checkpoints s) = Ok d /\
    forall st,
      d !! SourceType_value st = summary_of <$> checkpoint_of st s /\
      fst (get_checkpoint st s) = Ok (checkpoint_of st s).
Proof.
  intros Hnd H0. unfold get_all_checkpoints. unfold fault_at in H0. simpl in H0.
  run_session. rewrite H0. simpl. eexists. split; [reflexivity|].
  intros st. rewrite summaries_lookup by done. unfold checkpoint_of.
  by destruct (List.find _ _).
Qed.

End WithRuntime.

Lemma get_all_checkpoints_agrees_witness :
  exists d,
    fst (get_all_checkpoints (H := example_runtime) s_two_checkpoints) = Ok d /\
    forall st,
      d !! SourceType_value st
      = summary_of (H := example_runtime) <$> checkpoint_of st s_two_checkpoints /\
      fst (get_checkpoint st s_two_checkpoints) = Ok (checkpoint_of st s_two_checkpoints).
Proof.
  apply (get_all_checkpoints_agrees (H := example_runtime) s_two_checkpoints);
    [exact (proj1 s_two_checkpoints_well_formed) | reflexivity].
Defined.


End CheckpointTableProofs.

(** ** Schema drift detector *)

Module DriftProofs.
Import SchemaDriftDetector DriftSpec.

Section WithRuntime.
Context `{PyRuntime}.

Lemma of_type_none ty drifts :
  Forall (fun d => drift_type d <> ty) drifts -> of_type ty drifts = [].
Proof.
  unfold of_type. induction 1 as [|d l Hd _ IH]; [done|].
  rewrite filter_cons. by destruct (decide _).
Qed.

Lemma of_type_app ty l1 l2 : of_type ty (l1 ++ l2) = of_type ty l1 ++ of_type ty l2.
Proof. apply filter_app. Qed.

Lemma of_type_cons_same ty d l :
  drift_type d = ty -> of_type ty (d :: l) = d :: of_type ty l.
Proof. intros Hd. unfold of_type. rewrite filter_cons. by rewrite decide_True. Qed.

(** Nothing scores above zero: the loop keeps its initial answer. *)
Lemma fuzzy_match_loop_no_match field fields :
  (forall e, e ∈ fields ->
     str_lower field <> str_lower e /\
     (SequenceMatcher_ratio (str_lower field) (str_lower e) <= 0)%Q) ->
  fuzzy_match_loop field fields None 0%Q = (None, 0%Q).
Proof.
  induction fields as [|e fields IH]; intros Hall; simpl; [done|].
  destruct (Hall e) as [Hne Hle]; [by left|].
  apply String.eqb_neq in Hne. rewrite Hne.
  apply Qltb_ge in Hle. rewrite Hle.
  apply IH. intros e' He'. apply Hall. by right.
Qed.

(** Nothing reaches the threshold: neither does the best score. *)
Lemma fuzzy_match_loop_below field fields (t : Q) : forall best_match best_score,
  (best_score < t)%Q ->
  (forall a, a ∈ fields ->
     str_lower field <> str_lower a /\
     (SequenceMatcher_ratio (str_lower field) (str_lower a) < t)%Q) ->
  ((fuzzy_match_loop field fields best_match best_score).2 < t)%Q.
Proof.
  induction fields as [|a fields IH]; intros bm bs Hbs Hall; simpl; [done|].
  destruct (Hall a) as [Hne Hlt]; [by left|].
  apply String.eqb_neq in Hne. rewrite Hne.
  assert (forall a', a' ∈ fields ->
            str_lower field <> str_lower a' /\
            (SequenceMatcher_ratio (str_lower field) (str_lower a') < t)%Q) as Hrest.
  { intros a' Ha'. apply Hall. by right. }
  destruct (Qltb bs _); by apply IH.
Qed.

Lemma new_fields_types self data (expected_schema : gmap string string)
    (expected_fields : gset string) fields ty :
  ty <> "renamed_field" -> ty <> "new_field" ->
  Forall (fun d => drift_type d <> ty)
    (map (fun field =>
            let '(m, score) := _fuzzy_match_field field expected_fields in
            if Qle_bool (confidence_threshold self) score then
              mkDrift field "renamed_field"
                (match m with Some m => expected_schema !! m | None => None end)
                (Some (_get_python_type (dict_get data field)))
                score (sample_of data field)
            else
              mkDrift field "new_field" None
                (Some (_get_python_type (dict_get data field)))
                (if match_truthy m then 1 - score else 1)%Q
                (sample_of data field)) fields).
Proof.
  intros H1 H2. apply Forall_map, Forall_forall. intros field _.
  destruct (_fuzzy_match_field field expected_fields) as [m score].
  destruct (Qle_bool _ _); simpl; congruence.
Qed.

Lemma missing_fields_types self (expected_schema : gmap string string)
    (actual_fields : gset string) fields ty :
  ty <> "missing_field" ->
  Forall (fun d => drift_type d <> ty)
    (flat_map (fun field =>
            let '(m, score) := _fuzzy_match_field field actual_fields in
            if Qltb score (confidence_threshold self) then
              [mkDrift field "missing_field" (expected_schema !! field) None
                 (if match_truthy m then 1 - score else 1)%Q None]
            else []) fields).
Proof.
  intros H1. induction fields as [|field fields IH]; simpl; [done|].
  apply Forall_app. split; [|done].
  destruct (_fuzzy_match_field field actual_fields) as [m score].
  destruct (Qltb _ _); [|done]. apply Forall_singleton. simpl. congruence.
Qed.

Lemma type_changes_types data (expected_schema : gmap string string) fields ty :
  ty <> "type_change" ->
  Forall (fun d => drift_type d <> ty)
    (flat_map (fun field =>
            let expected_type := expected_schema !! field in
            let actual_type := _get_python_type (dict_get data field) in
            if negb (_types_compatible expected_type actual_type) then
              [mkDrift field "type_change" expected_type (Some actual_type) 1%Q
                 (sample_of data field)]
            else []) fields).
Proof.
  intros H1. induction fields as [|field fields IH]; simpl; [done|].
  apply Forall_app. split; [|done].
  destruct (negb _); [|done]. apply Forall_singleton. simpl. congruence.
Qed.

(** C3.  With a positive threshold: a record with exactly one field outside
    the expected schema, for which no expected field matches or scores above
    zero, gets exactly one [new_field] drift, for that field and with
    confidence 1.0; a record that lacks exactly one expected field, with no
    actual field matching it or scoring up to the threshold, gets exactly one
    [missing_field] drift, for that field. *)
Theorem detect_drift_single_field (self : SchemaDriftDetector)
    (source_type : SourceType) (data : pydict) (field : string) :
  let expected_fields : gset string :=
    dom (default ∅ (schemas self !! SourceType_value source_type)) in
  (0 < confidence_threshold self)%Q ->
  (dom data ∖ expected_fields = {[ field ]} ->
   (forall e, e ∈ expected_fields ->
      str_lower field <> str_lower e /\
      (SequenceMatcher_ratio (str_lower field) (str_lower e) <= 0)%Q) ->
   exists d,
     of_type "new_field" (detect_drift self source_type data) = [d] /\
     field_name d = field /\ confidence_score d = 1%Q) /\
  (expected_fields ∖ dom data = {[ field ]} ->
   (forall a, a ∈ dom data ->
      str_lower field <> str_lower a /\
      (SequenceMatcher_ratio (str_lower field) (str_lower a)
       < confidence_threshold self)%Q) ->
   exists d,
     of_type "missing_field" (detect_drift self source_type data) = [d] /\
     field_name d = field).
Proof.
  intros expected_fields Hpos. split.
  - intros Hone Hno. unfold detect_drift. fold expected_fields.
    rewrite Hone, elements_singleton. simpl map.
    unfold _fuzzy_match_field at 1.
    rewrite fuzzy_match_loop_no_match.
    2:{ intros e He. apply Hno. by apply elem_of_elements in He. }
    rewrite (Qle_bool_false _ _ Hpos). simpl.
    eexists. split.
    { rewrite of_type_cons_same by done. rewrite of_type_app.
      rewrite !of_type_none; [reflexivity | by apply type_changes_types
                                          | by apply missing_fields_types]. }
    split; reflexivity.
  - intros Hone Hno. unfold detect_drift. fold expected_fields.
    rewrite Hone, elements_singleton.
    rewrite !of_type_app.
    rewrite of_type_none by (by apply new_fields_types).
    rewrite (of_type_none _ (flat_map _ (elements (_ ∩ _))))
      by (by apply type_changes_types).
    simpl flat_map. rewrite !app_nil_r.
    assert (((_fuzzy_match_field field (dom data)).2 < confidence_threshold self)%Q) as Hlt.
    { apply fuzzy_match_loop_below; [done|].
      intros a Ha. apply Hno. by apply elem_of_elements in Ha. }
    destruct (_fuzzy_match_field field (dom data)) as [m score]. simpl in Hlt.
    apply Qltb_lt in Hlt. rewrite Hlt.
    eexists. split.
    { by rewrite of_type_cons_same. }
    reflexivity.
Qed.

End WithRuntime.

(** *** Closed instances *)

Ltac each_field He :=
  apply elem_of_elements in He; vm_compute elements in He;
  repeat (apply elem_of_cons in He as [-> | He]);
  [ split; [vm_compute; discriminate | vm_compute; first [discriminate | reflexivity]] ..
  | by apply elem_of_nil in He ].

Lemma detect_drift_single_field_witness :
  (exists d,
     of_type "new_field"
       (detect_drift (H := example_runtime) (__init__ None) API record_new_field) = [d] /\
     field_name d = "mkw" /\ confidence_score d = 1%Q) /\
  (exists d,
     of_type "missing_field"
       (detect_drift (H := example_runtime) (__init__ None) API record_without_tags) = [d] /\
     field_name d = "tags").
Proof.
  split.
  - apply (proj1 (detect_drift_single_field (H := example_runtime) (__init__ None)
                    API record_new_field "mkw" eq_refl)).
    + vm_compute. reflexivity.
    + intros e He. each_field He.
  - apply (proj2 (detect_drift_single_field (H := example_runtime) (__init__ None)
                    API record_without_tags "tags" eq_refl)).
    + vm_compute. reflexivity.
    + intros a Ha. each_field Ha.
Defined.

(** [test_detect_new_field]: the field name shares characters with expected
    names, so a best match exists and the confidence is [1 - score]. *)
Example detect_drift_new_unexpected_field :
  map (fun d => (field_name d, confidence_score d))
    (of_type "new_field"
       (detect_drift (H := example_runtime) (__init__ None) API
          {[ "id" := PyStr "123"; "title" := PyStr "Test";
             "new_unexpected_field" := PyStr "value" ]}))
  = [("new_unexpected_field", 18 # 30)].
Proof. vm_compute. reflexivity. Qed.

End DriftProofs.

(** ** Schema drift detector: the passes in detail, persisted drifts *)

Module DriftDetailProofs.
Import SchemaDriftDetector DriftSpec DriftProofs.

(** X10.  Type compatibility does not depend on which side is the expected
    type: it is reflexive and symmetric. *)
Theorem types_compatible_symmetric (a b : string) :
  _types_compatible (Some a) a = true /\
  _types_compatible (Some a) b = _types_compatible (Some b) a.
Proof.
  unfold _types_compatible. split.
  - by rewrite String.eqb_refl.
  - rewrite (String.eqb_sym b a). destruct (String.eqb a b); [done|].
    by rewrite orb_comm.
Qed.

Lemma null_incompatible ty :
  ty <> "null" -> _types_compatible (Some ty) "null" = false.
Proof.
  intros Hne. unfold _types_compatible.
  apply String.eqb_neq in Hne. rewrite Hne.
  rewrite !bool_decide_eq_false_2; [done| |];
    unfold compatible_pairs; intros Hin;
    repeat (apply elem_of_cons in Hin as [Hin | Hin]; [by simplify_eq|]);
    by apply elem_of_nil in Hin.
Qed.

Section WithRuntime.
Context `{PyRuntime}.

(** A field that is an expected one up to case is a direct match. *)
Lemma fuzzy_match_loop_direct field fields : forall best_match best_score,
  (exists a, a ∈ fields /\ str_lower field = str_lower a) ->
  exists a,
    fuzzy_match_loop field fields best_match best_score = (Some a, 1%Q) /\
    a ∈ fields /\ str_lower field = str_lower a.
Proof.
  induction fields as [|e fields IH]; intros bm bs (a & Ha & Hlow).
  - by apply elem_of_nil in Ha.
  - simpl. destruct (String.eqb (str_lower field) (str_lower e)) eqn:E.
    + apply String.eqb_eq in E. exists e. split; [done|]. split; [by left | done].
    + apply elem_of_cons in Ha as [-> | Ha].
      { apply String.eqb_neq in E. done. }
      assert (exists a, a ∈ fields /\ str_lower field = str_lower a) as Hex by eauto.
      destruct (Qltb bs _).
      * destruct (IH (Some e)
                    (SequenceMatcher_ratio (str_lower field) (str_lower e)) Hex)
          as (a' & -> & Ha' & Hl').
        exists a'. split; [done|]. split; [by right | done].
      * destruct (IH bm bs Hex) as (a' & -> & Ha' & Hl').
        exists a'. split; [done|]. split; [by right | done].
Qed.

(** The three passes of [detect_drift], as functions of one field. *)
Lemma detect_drift_parts self st data :
  exists new_of missing_of change_of,
    let schema := default ∅ (schemas self !! SourceType_value st) in
    detect_drift self st data
    = map new_of (elements (dom data ∖ dom schema))
      ++ flat_map missing_of (elements (dom schema ∖ dom data))
      ++ flat_map change_of (elements (dom schema ∩ dom data)) /\
    (forall f, field_name (new_of f) = f /\
               (drift_type (new_of f) = "renamed_field" \/ drift_type (new_of f) = "new_field")) /\
    (forall f d, d ∈ missing_of f -> field_name d = f /\ drift_type d = "missing_field") /\
    (forall f, length (missing_of f) <= 1)%nat /\
    (forall f,
       change_of f
       = if negb (_types_compatible (schema !! f) (_get_python_type (dict_get data f)))
         then [mkDrift f "type_change" (schema !! f)
                 (Some (_get_python_type (dict_get data f))) 1%Q (sample_of data f)]
         else []) /\
    ((confidence_threshold self <= 1)%Q ->
     (forall f, (exists e, e ∈ dom schema /\ str_lower f = str_lower e) ->
        exists e, e ∈ dom schema /\ str_lower f = str_lower e /\
          new_of f = mkDrift f "renamed_field" (schema !! e)
                       (Some (_get_python_type (dict_get data f))) 1%Q (sample_of data f)) /\
     (forall f, (exists a, a ∈ dom data /\ str_lower f = str_lower a) -> missing_of f = [])).
Proof.
  eexists _, _, _. split; [reflexivity|]. simpl. split; [|split; [|split; [|split]]].
  - intros f. destruct (_fuzzy_match_field f _) as [m score].
    destruct (Qle_bool _ _); simpl; auto.
  - intros f d. destruct (_fuzzy_match_field f _) as [m score].
    destruct (Qltb _ _); intros Hd.
    + apply list_elem_of_singleton in Hd. by subst.
    + by apply elem_of_nil in Hd.
  - intros f. destruct (_fuzzy_match_field f _) as [m score].
    destruct (Qltb _ _); simpl; lia.
  - done.
  - intros Hthr. split.
    + intros f (e & He & Hlow). unfold _fuzzy_match_field.
      destruct (fuzzy_match_loop_direct f (elements (dom (default ∅ (schemas self !! SourceType_value st))))
                  None 0%Q) as (e' & -> & He' & Hlow').
      { exists e. split; [by apply elem_of_elements | done]. }
      apply Qle_bool_iff in Hthr. rewrite Hthr.
      exists e'. split; [by apply elem_of_elements in He' | done].
    + intros f (a & Ha & Hlow). unfold _fuzzy_match_field.
      destruct (fuzzy_match_loop_direct f (elements (dom data)) None 0%Q)
        as (a' & -> & _).
      { exists a. split; [by apply elem_of_elements | done]. }
      apply Qltb_ge in Hthr. by rewrite Hthr.
Qed.

Lemma flat_map_nil {A B} (g : A -> list B) (l : list A) :
  (forall a, a ∈ l -> g a = []) -> flat_map g l = [].
Proof.
  induction l as [|a l IH]; intros Hg; simpl; [done|].
  rewrite (Hg a) by (by left). apply IH. intros b Hb. apply Hg. by right.
Qed.

(** X11.  A record whose fields are exactly those of the expected schema,
    each holding a value of a compatible type, has no drift. *)
Theorem detect_drift_conforming (self : SchemaDriftDetector) (st : SourceType)
    (data : pydict) :
  let schema := default ∅ (schemas self !! SourceType_value st) in
  dom data = dom schema ->
  (forall field ty,
     schema !! field = Some ty ->
     _types_compatible (Some ty) (_get_python_type (dict_get data field)) = true) ->
  detect_drift self st data = [].
Proof.
  intros schema Hdom Hty.
  destruct (detect_drift_parts self st data)
    as (new_of & missing_of & change_of & -> & _ & _ & _ & Hchange & _).
  fold schema. rewrite Hdom.
  rewrite !difference_diag_L, elements_empty. simpl.
  apply flat_map_nil. intros f Hf. rewrite Hchange. fold schema.
  apply elem_of_elements, elem_of_intersection in Hf as [Hf _].
  apply elem_of_dom in Hf as [ty Hf]. rewrite Hf, (Hty f ty Hf). done.
Qed.

Lemma elem_of_flat_map {A B} (g : A -> list B) (l : list A) b :
  b ∈ flat_map g l <-> exists a, a ∈ l /\ b ∈ g a.
Proof.
  rewrite !list_elem_of_In, in_flat_map.
  split; intros (a & Ha & Hb); exists a; by rewrite ?list_elem_of_In in *.
Qed.

(** X12.  The [type_change] drifts are exactly the fields the record and
    the schema share whose value has a type incompatible with the expected
    one, each with confidence 1.0.  A value [None] has the type ["null"],
    which no schema entry is compatible with: an expected field that is
    present with the value [None] is reported as a type change. *)
Theorem detect_drift_type_changes (self : SchemaDriftDetector) (st : SourceType)
    (data : pydict) :
  let schema := default ∅ (schemas self !! SourceType_value st) in
  (forall d,
     d ∈ of_type "type_change" (detect_drift self st data) <->
     exists field ty,
       schema !! field = Some ty /\ field ∈ dom data /\
       _types_compatible (Some ty) (_get_python_type (dict_get data field)) = false /\
       d = mkDrift field "type_change" (Some ty)
             (Some (_get_python_type (dict_get data field))) 1%Q (sample_of data field)) /\
  (forall field ty,
     schema !! field = Some ty -> ty <> "null" -> data !! field = Some PyNone ->
     mkDrift field "type_change" (Some ty) (Some "null") 1%Q None
     ∈ detect_drift self st data).
Proof.
  intros schema. subst schema.
  pose proof (detect_drift_parts self st data) as Hparts. cbv zeta in Hparts.
  remember (default ∅ (schemas self !! SourceType_value st)) as schema eqn:Hschema.
  assert (forall d,
     d ∈ of_type "type_change" (detect_drift self st data) <->
     exists field ty,
       schema !! field = Some ty /\ field ∈ dom data /\
       _types_compatible (Some ty) (_get_python_type (dict_get data field)) = false /\
       d = mkDrift field "type_change" (Some ty)
             (Some (_get_python_type (dict_get data field))) 1%Q (sample_of data field))
    as Hchar.
  { intros d.
    destruct Hparts
      as (new_of & missing_of & change_of & -> & Hnew & Hmiss & _ & Hchange & _).
    rewrite !of_type_app.
    rewrite (of_type_none _ (map new_of _)).
    2:{ apply Forall_map, Forall_forall. intros f _.
        destruct (Hnew f) as [_ [-> | ->]]; done. }
    rewrite (of_type_none _ (flat_map missing_of _)).
    2:{ apply Forall_forall. intros d' Hd'. apply elem_of_flat_map in Hd' as (f & _ & Hd').
        destruct (Hmiss f d' Hd') as [_ ->]. done. }
    rewrite !app_nil_l. unfold of_type. rewrite list_elem_of_filter, elem_of_flat_map. split.
    - intros (_ & f & Hf & Hd). rewrite Hchange in Hd.
      apply elem_of_elements, elem_of_intersection in Hf as [Hf Hfd].
      apply elem_of_dom in Hf as [ty Hf].
      rewrite Hf in Hd.
      destruct (_types_compatible _ _) eqn:E; simpl in Hd; [by apply elem_of_nil in Hd|].
      apply list_elem_of_singleton in Hd. by exists f, ty.
    - intros (f & ty & Hf & Hfd & Hinc & ->). split; [done|].
      exists f. split.
      + apply elem_of_elements, elem_of_intersection. split; [|done].
        apply elem_of_dom. by eexists.
      + rewrite Hchange, Hf, Hinc. simpl. by apply list_elem_of_singleton. }
  split; [exact Hchar|].
  intros field ty Hf Hne Hnone.
  assert (dict_get data field = PyNone) as Hget by (unfold dict_get; by rewrite Hnone).
  assert (mkDrift field "type_change" (Some ty) (Some "null") 1%Q None
          ∈ of_type "type_change" (detect_drift self st data)) as Hin.
  { apply Hchar. exists field, ty. split; [done|]. split.
    - apply elem_of_dom. by eexists.
    - rewrite Hget. simpl. split; [by apply null_incompatible|].
      unfold sample_of. by rewrite Hget. }
  unfold of_type in Hin. by apply list_elem_of_filter in Hin as [_ Hin].
Qed.

Lemma names_sublist (g : string -> list DriftResult) (l : list string) :
  (forall f d, d ∈ g f -> field_name d = f) ->
  (forall f, length (g f) <= 1)%nat ->
  sublist (map field_name (flat_map g l)) l.
Proof.
  intros Hname Hlen. induction l as [|f l IH]; simpl; [done|].
  rewrite map_app. pose proof (Hlen f) as Hl. pose proof (Hname f) as Hn.
  destruct (g f) as [|d [|d' rest]]; simpl in *.
  - by apply sublist_cons.
  - rewrite (Hn d) by (by left). by apply sublist_skip.
  - lia.
Qed.

(** X13.  [detect_drift] reports a field at most once: the field names of
    the drifts it returns are pairwise distinct. *)
Theorem detect_drift_fields_distinct (self : SchemaDriftDetector) (st : SourceType)
    (data : pydict) :
  NoDup (map field_name (detect_drift self st data)).
Proof.
  destruct (detect_drift_parts self st data)
    as (new_of & missing_of & change_of & -> & Hnew & Hmiss & Hlen & Hchange & _).
  cbv zeta in *.
  set (schema := default ∅ (schemas self !! SourceType_value st)) in *.
  assert (map field_name (map new_of (elements (dom data ∖ dom schema)))
          = elements (dom data ∖ dom schema)) as Hn.
  { rewrite map_map. rewrite <- (map_id (elements _)) at 2.
    apply map_ext. intros f. apply Hnew. }
  assert (sublist (map field_name (flat_map missing_of (elements (dom schema ∖ dom data))))
            (elements (dom schema ∖ dom data))) as Hm.
  { apply names_sublist; [|done]. intros f d Hd. by apply Hmiss. }
  assert (sublist (map field_name (flat_map change_of (elements (dom schema ∩ dom data))))
            (elements (dom schema ∩ dom data))) as Hc.
  { apply names_sublist; intros f; rewrite Hchange; destruct (negb _); simpl.
    - intros d Hd. apply list_elem_of_singleton in Hd. by subst.
    - intros d Hd. by apply elem_of_nil in Hd.
    - lia.
    - lia. }
  rewrite !map_app, Hn. apply NoDup_app. split; [apply NoDup_elements|]. split.
  - intros x Hx Hx'. rewrite elem_of_elements, elem_of_difference in Hx.
    apply elem_of_app in Hx' as [Hx' | Hx'].
    + eapply elem_of_sublist in Hx'; [|exact Hm].
      rewrite elem_of_elements, elem_of_difference in Hx'. tauto.
    + eapply elem_of_sublist in Hx'; [|exact Hc].
      rewrite elem_of_elements, elem_of_intersection in Hx'. tauto.
  - apply NoDup_app. split; [(eapply sublist_NoDup; [|exact Hm]; apply NoDup_elements)|]. split.
    + intros x Hx Hx'.
      eapply elem_of_sublist in Hx; [|exact Hm].
      rewrite elem_of_elements, elem_of_difference in Hx.
      eapply elem_of_sublist in Hx'; [|exact Hc].
      rewrite elem_of_elements, elem_of_intersection in Hx'. tauto.
    + eapply sublist_NoDup; [|exact Hc]; apply NoDup_elements.
Qed.

(** X14.  A field of the record that differs from an expected field only in
    case is a direct match: with a threshold of at most 1.0 it is reported as
    [renamed_field] with confidence 1.0 and the type expected for a field
    with that lower-case name, and an expected field the record has only in
    another case is not reported at all. *)
Theorem detect_drift_case_rename (self : SchemaDriftDetector) (st : SourceType)
    (data : pydict) (field e : string) :
  let schema := default ∅ (schemas self !! SourceType_value st) in
  (confidence_threshold self <= 1)%Q ->
  field ∈ dom data -> field ∉ dom schema -> e ∈ dom schema ->
  str_lower field = str_lower e ->
  (exists e',
     e' ∈ dom schema /\ str_lower field = str_lower e' /\
     mkDrift field "renamed_field" (schema !! e')
       (Some (_get_python_type (dict_get data field))) 1%Q (sample_of data field)
     ∈ detect_drift self st data) /\
  (e ∉ dom data -> forall d, d ∈ detect_drift self st data -> field_name d <> e).
Proof.
  intros schema Hthr Hfield Hnew He Hlow.
  destruct (detect_drift_parts self st data)
    as (new_of & missing_of & change_of & -> & Hnames & Hmiss & _ & Hchange & Hdirect).
  cbv zeta in *. fold schema in Hchange, Hdirect |- *.
  destruct (Hdirect Hthr) as [Hren Hnomiss]. split.
  - destruct (Hren field) as (e' & He' & Hlow' & Heq); [by exists e|].
    exists e'. split; [done|]. split; [done|]. rewrite <- Heq.
    apply elem_of_app. left. apply list_elem_of_fmap_2.
    apply elem_of_elements, elem_of_difference. done.
  - intros Hea d Hd Hname.
    apply elem_of_app in Hd as [Hd | Hd]; [|apply elem_of_app in Hd as [Hd | Hd]].
    + apply list_elem_of_fmap in Hd as (f & -> & Hf).
      rewrite elem_of_elements, elem_of_difference in Hf.
      rewrite (proj1 (Hnames f)) in Hname. subst f. tauto.
    + apply elem_of_flat_map in Hd as (f & Hf & Hd).
      destruct (Hmiss f d Hd) as [Hfd _]. rewrite Hfd in Hname. subst f.
      rewrite Hnomiss in Hd; [by apply elem_of_nil in Hd|]. by exists field.
    + apply elem_of_flat_map in Hd as (f & Hf & Hd).
      rewrite elem_of_elements, elem_of_intersection in Hf.
      rewrite Hchange in Hd. destruct (negb _); [|by apply elem_of_nil in Hd].
      apply list_elem_of_singleton in Hd. subst d. simpl in Hname. subst f. tauto.
Qed.

End WithRuntime.
(** *** Persisting and resolving drifts *)

Lemma insert_drifts_spec st drifts : forall s,
  exists rows s',
    insert_drifts st drifts s = (Ok rows, s') /\
    schema_drift s' = schema_drift s ++ rows /\
    map SchemaDrift.field_name rows = map field_name drifts /\
    Forall (fun r => SchemaDrift.resolved r = false /\ SchemaDrift.source_type r = st) rows /\
    etl_checkpoints s' = etl_checkpoints s /\
    etl_runs s' = etl_runs s /\
    faults s' = faults s /\ statements s' = statements s.
Proof.
  induction drifts as [|d drifts IH]; intros s; simpl.
  - exists [], s. rewrite app_nil_r. by repeat split.
  - unfold bind, utcnow, get, modify, ret, clock_read. simpl.
    lazymatch goal with |- context [insert_drifts st drifts ?s1] =>
      destruct (IH s1) as (rows & s' & -> & Hrows & Hnames & Hall & Hck & Hruns & Hf & Hn)
    end.
    simpl in *. eexists _, s'. split; [reflexivity|].
    rewrite Hrows, <- app_assoc. simpl. rewrite Hnames.
    repeat split; try done. by constructor.
Qed.

(** X15.  [record_drifts] never raises.  It returns one record per drift,
    in order, unresolved and of the given source type; the rows are in the
    table when the commit went through, and with a commit that failed the
    table is as it was.  The checkpoint and run tables are not touched. *)
Theorem record_drifts_never_raises (st : SourceType) (drifts : list DriftResult)
    (s : Session) :
  exists rows s',
    record_drifts st drifts s = (Ok rows, s') /\
    map SchemaDrift.field_name rows = map field_name drifts /\
    Forall (fun r => SchemaDrift.resolved r = false /\ SchemaDrift.source_type r = st) rows /\
    etl_checkpoints s' = etl_checkpoints s /\
    etl_runs s' = etl_runs s /\
    match drifts, CheckpointSpec.fault_at s 0 with
    | [], _ => s' = s
    | _, Some _ => schema_drift s' = schema_drift s
    | _, None => schema_drift s' = schema_drift s ++ rows
    end.
Proof.
  unfold record_drifts, CheckpointSpec.fault_at. simpl.
  destruct drifts as [|d drifts]; [by exists [], s|].
  remember (d :: drifts) as l eqn:Hl.
  unfold try_except, bind, db_statement, ret.
  destruct (faults s (statements s)) as [e|] eqn:Hf.
  - eexists _, _. split; [reflexivity|]. simpl.
    split; [by rewrite map_map|]. split; [by apply Forall_map, Forall_true|].
    subst l. done.
  - destruct (insert_drifts_spec st l (set_statements (S (statements s)) s))
      as (rows & s' & -> & Hrows & Hnames & Hall & Hck & Hruns & _).
    exists rows, s'. split; [reflexivity|]. subst l. done.
Qed.

Lemma newer_first_total : Total newer_first.
Proof.
  intros a b. unfold newer_first.
  destruct (Qlt_le_dec (SchemaDrift.detected_at a) (SchemaDrift.detected_at b)) as [Hlt|Hle].
  - right. by apply Qlt_le_weak.
  - by left.
Qed.

Lemma unresolved_after_resolve (rows : list SchemaDrift.t) (drift_id : Z)
    (row' : SchemaDrift.t) (r : SchemaDrift.t) :
  SchemaDrift.resolved row' = true ->
  r ∈ filter (fun d => SchemaDrift.resolved d = false)
        (map (fun r => if bool_decide (SchemaDrift.id r = drift_id) then row' else r) rows)
  <-> r ∈ filter (fun d => SchemaDrift.resolved d = false) rows /\
      SchemaDrift.id r <> drift_id.
Proof.
  intros Hres. rewrite !list_elem_of_filter, list_elem_of_fmap. split.
  - intros (Hun & a & -> & Ha).
    destruct (bool_decide_reflect (SchemaDrift.id a = drift_id)) as [Heq|Hne]; [congruence|].
    done.
  - intros ((Hun & Hr) & Hne). split; [done|]. exists r.
    by rewrite bool_decide_eq_false_2.
Qed.

Lemma find_id_none (rows : list SchemaDrift.t) (drift_id : Z) :
  List.find (fun d => bool_decide (SchemaDrift.id d = drift_id)) rows = None <->
  drift_id ∉ map SchemaDrift.id rows.
Proof.
  induction rows as [|a rows IH]; simpl.
  - split; [intros _; apply not_elem_of_nil | done].
  - rewrite not_elem_of_cons.
    destruct (bool_decide_reflect (SchemaDrift.id a = drift_id)) as [Heq|Hne].
    + split; [done | intros [Hn _]; congruence].
    + rewrite IH. split; [intros ?; split; congruence | tauto].
Qed.

(** X16.  With a database that answers, [resolve_drift] returns whether a
    drift with the given id exists, and afterwards [get_unresolved_drifts]
    returns the drifts it returned before except the one resolved, newest
    first; a drift id that does not exist changes nothing. *)
Theorem resolve_drift_leaves_unresolved (s : Session) (drift_id : Z)
    (source_type : option SourceType) :
  (forall j, CheckpointSpec.fault_at s j = None) ->
  let s1 := (resolve_drift drift_id s).2 in
  (resolve_drift drift_id s).1
  = Ok (bool_decide (drift_id ∈ map SchemaDrift.id (schema_drift s))) /\
  (drift_id ∉ map SchemaDrift.id (schema_drift s) -> schema_drift s1 = schema_drift s) /\
  exists before after,
    (get_unresolved_drifts source_type s).1 = Ok before /\
    (get_unresolved_drifts source_type s1).1 = Ok after /\
    Sorted newer_first after /\
    forall r, r ∈ after <-> r ∈ before /\ SchemaDrift.id r <> drift_id.
Proof.
  intros Hf s1. subst s1.
  pose proof (Hf 0%nat) as H0. pose proof (Hf 1%nat) as H1. pose proof (Hf 2%nat) as H2.
  unfold CheckpointSpec.fault_at in H0, H1, H2. simpl in H0, H1, H2.
  unfold resolve_drift, get_unresolved_drifts, bind, db_statement, get, utcnow, modify,
    ret, clock_read. simpl. rewrite H0. simpl.
  destruct (List.find _ (schema_drift s)) as [drift|] eqn:Efind; simpl.
  - rewrite H1. simpl. rewrite H2. simpl.
    pose proof Efind as Hsome. apply List.find_some in Hsome as [Hin Hid].
    apply bool_decide_eq_true in Hid. apply list_elem_of_In in Hin.
    assert (drift_id ∈ map SchemaDrift.id (schema_drift s)) as Hmem.
    { rewrite <- Hid. by apply list_elem_of_fmap_2. }
    split; [by rewrite bool_decide_eq_true_2|]. split; [done|].
    eexists _, _. split; [reflexivity|]. split; [reflexivity|].
    split; [apply Sorted_merge_sort, newer_first_total|].
    intros r. rewrite !merge_sort_Permutation. rewrite Hid.
    destruct source_type as [st|].
    + rewrite !(list_elem_of_filter (fun d => SchemaDrift.source_type d = st)).
      rewrite unresolved_after_resolve by done. tauto.
    + by apply unresolved_after_resolve.
  - pose proof Efind as Hnone. apply find_id_none in Hnone.
    split; [by rewrite bool_decide_eq_false_2|]. split; [done|].
    rewrite H1. simpl.
    eexists _, _. split; [reflexivity|]. split; [reflexivity|].
    split; [apply Sorted_merge_sort, newer_first_total|].
    intros r. split; [|tauto]. intros Hr. split; [done|].
    rewrite merge_sort_Permutation in Hr.
    assert (r ∈ schema_drift s) as Hrows.
    { destruct source_type; repeat (apply list_elem_of_filter in Hr as [_ Hr]); done. }
    intros Heq. apply Hnone. rewrite <- Heq. by apply list_elem_of_fmap_2.
Qed.


(** *** Closed instances *)

Lemma detect_drift_conforming_witness :
  detect_drift (H := example_runtime) (__init__ None) API record_conforming = [].
Proof.
  apply (detect_drift_conforming (H := example_runtime) (__init__ None) API record_conforming).
  - vm_compute. reflexivity.
  - intros field ty Hf. apply elem_of_map_to_list in Hf. vm_compute map_to_list in Hf.
    repeat (apply elem_of_cons in Hf as [Hf | Hf]; [by simplify_eq|]).
    by apply elem_of_nil in Hf.
Defined.

(** A value [None] under an expected field. *)
Example detect_drift_none_value :
  detect_drift (H := example_runtime) (__init__ None) API
    (<["author" := PyNone]> record_conforming)
  = [mkDrift "author" "type_change" (Some "str") (Some "null") 1%Q None].
Proof. vm_compute. reflexivity. Qed.

Lemma detect_drift_case_rename_witness :
  (exists e',
     e' ∈ dom (default ∅ (schemas (__init__ None) !! SourceType_value API)) /\
     @str_lower example_runtime "Title" = @str_lower example_runtime e' /\
     mkDrift "Title" "renamed_field"
       (default ∅ (schemas (__init__ None) !! SourceType_value API) !! e')
       (Some "str") 1%Q (Some "Test")
     ∈ detect_drift (H := example_runtime) (__init__ None) API record_capital_title) /\
  ("title" ∉ dom record_capital_title ->
   forall d, d ∈ detect_drift (H := example_runtime) (__init__ None) API record_capital_title ->
     field_name d <> "title").
Proof.
  apply (detect_drift_case_rename (H := example_runtime) (__init__ None) API
           record_capital_title "Title" "title").
  - vm_compute. discriminate.
  - apply (bool_decide_unpack _). vm_compute. exact I.
  - apply (bool_decide_unpack _). vm_compute. exact I.
  - apply (bool_decide_unpack _). vm_compute. exact I.
  - reflexivity.
Defined.

Lemma resolve_drift_leaves_unresolved_witness :
  let s1 := (resolve_drift 1 s_two_drifts).2 in
  (resolve_drift 1 s_two_drifts).1
  = Ok (bool_decide (1 ∈ map SchemaDrift.id (schema_drift s_two_drifts))) /\
  (1 ∉ map SchemaDrift.id (schema_drift s_two_drifts) ->
   schema_drift s1 = schema_drift s_two_drifts) /\
  exists before after,
    (get_unresolved_drifts None s_two_drifts).1 = Ok before /\
    (get_unresolved_drifts None s1).1 = Ok after /\
    Sorted newer_first after /\
    forall r, r ∈ after <-> r ∈ before /\ SchemaDrift.id r <> 1.
Proof.
  exact (resolve_drift_leaves_unresolved s_two_drifts 1 None (fun _ => eq_refl)).
Defined.

(** The newest drift first. *)
Example get_unresolved_drifts_order :
  match (get_unresolved_drifts None s_two_drifts).1 with
  | Ok drifts => map SchemaDrift.field_name drifts
  | Raise _ => []
  end = ["tags"; "mkw"].
Proof. vm_compute. reflexivity. Qed.

End DriftDetailProofs.
(** ** The extractor driver *)

Module DriverProofs.
Import SchemaDriftDetector BaseExtractor ETLOrchestrator.
Import CheckpointSpec CheckpointProofs DriverSpec.

(** *** What the loop leaves alone *)

Lemma same_meta_refl s : same_meta s s.
Proof. by repeat split. Qed.

Lemma same_meta_trans s1 s2 s3 : same_meta s1 s2 -> same_meta s2 s3 -> same_meta s1 s3.
Proof. unfold same_meta. intros (?&?&?&?) (?&?&?&?). repeat split; congruence. Qed.

Lemma same_meta_with_faults f s : same_meta s (with_faults f s).
Proof. by repeat split. Qed.

Lemma get_checkpoint_meta st s : same_meta s (CheckpointManager.get_checkpoint st s).2.
Proof.
  unfold CheckpointManager.get_checkpoint, try_except, bind, db_statement, get, ret, raise.
  destruct (faults s (statements s)); by repeat split.
Qed.

Lemma should_process_meta st sid s : same_meta s (should_process st sid s).2.
Proof.
  unfold should_process, CheckpointManager.get_last_source_id, bind.
  pose proof (get_checkpoint_meta st s) as Hm.
  destruct (CheckpointManager.get_checkpoint st s) as [[c|e] s1]; simpl in *; [|done].
  unfold ret. destruct c as [c|]; simpl; [|done]. by destruct (ETLCheckpoint.last_source_id c).
Qed.

Lemma insert_drifts_meta st drifts : forall s, same_meta s (insert_drifts st drifts s).2.
Proof.
  induction drifts as [|d drifts IH]; intros s; simpl; [apply same_meta_refl|].
  unfold bind, utcnow, get, modify, ret, clock_read. simpl.
  lazymatch goal with |- context [insert_drifts st drifts ?s1] =>
    pose proof (IH s1) as Hm; destruct (insert_drifts st drifts s1) as [[rows|e] s2]
  end; simpl in *; (eapply same_meta_trans; [|exact Hm]; by repeat split).
Qed.

Lemma record_drifts_meta st drifts s : same_meta s (record_drifts st drifts s).2.
Proof.
  unfold record_drifts. destruct drifts as [|d drifts]; [apply same_meta_refl|].
  remember (d :: drifts) as l eqn:Hl. clear Hl.
  unfold try_except, bind, db_statement, ret.
  destruct (faults s (statements s)); [by repeat split|].
  pose proof (insert_drifts_meta st l (set_statements (S (statements s)) s)) as Hm.
  destruct (insert_drifts st l _) as [[rows|e] s2]; simpl in *;
    (eapply same_meta_trans; [|exact Hm]; by repeat split).
Qed.

Lemma update_checkpoint_runs st lsid off md s :
  etl_runs (CheckpointManager.update_checkpoint st lsid off md s).2 = etl_runs s.
Proof.
  unfold CheckpointManager.update_checkpoint, CheckpointManager.get_checkpoint,
    CheckpointManager.commit_new, CheckpointManager.commit_changed,
    CheckpointManager.refresh, try_except, bind, db_statement, utcnow, get, modify,
    ret, raise, clock_read. simpl.
  destruct (faults s (statements s)); simpl; [done|].
  destruct (List.find _ _) as [c|]; simpl.
  - destruct lsid, off, md; simpl;
      destruct (faults s (S (statements s))); simpl; try done;
      destruct (faults s (S (S (statements s)))); done.
  - destruct (faults s (S (statements s))); simpl; try done.
    destruct (faults s (S (S (statements s)))); done.
Qed.

(** *** Statements that fail *)


Lemma get_checkpoint_raised st s e s' :
  CheckpointManager.get_checkpoint st s = (Raise e, s') ->
  faults s (pred (statements s')) <> None /\ same_meta s s'.
Proof.
  unfold CheckpointManager.get_checkpoint, try_except, bind, db_statement, get, ret, raise.
  destruct (faults s (statements s)) eqn:E; intros [= <- <-]; simpl.
  split; [by rewrite E | by repeat split].
Qed.

(** [start_run]: the row is appended unless the commit fails; the refresh
    may fail after it. *)
Lemma start_run_spec st md s :
  let r := ETLRunTracker.start_run st md s in
  etl_checkpoints r.2 = etl_checkpoints s /\
  etl_checkpoints_seq r.2 = etl_checkpoints_seq s /\
  match r.1 with
  | Ok run0 =>
      etl_runs r.2 = etl_runs s ++ [run0] /\
      ETLRun.status run0 = RUNNING /\
      ETLRun.error_message run0 = None /\
      ETLRun.error_traceback run0 = None /\
      row_counters run0 = mkCounters 0 0 0 0 0
  | Raise e => faults s (pred (statements r.2)) <> None
  end.
Proof.
  unfold ETLRunTracker.start_run, bind, uuid4, utcnow, db_statement, get, modify, ret,
    clock_read. simpl.
  destruct (faults s (statements s)) eqn:E1; simpl; [by rewrite E1|].
  destruct (faults s (S (statements s))) eqn:E2; simpl; [by rewrite E2|].
  done.
Qed.


(** Out of range, the wrapped generator is the original one. *)
Lemma failing_extract_identity K evs : forall fin c,
  K <= c \/ c + count_yields evs < K ->
  failing_extract K c evs fin = (mkExtraction evs fin, c + count_yields evs).
Proof.
  induction evs as [|ev evs IH]; intros fin c Hrange; simpl.
  - by rewrite Z.add_0_r.
  - destruct ev as [raw_data| |]; simpl in *.
    + destruct (Z.eqb_spec (c + 1) K) as [Heq|Hne].
      { exfalso. assert (0 <= count_yields evs); [|lia].
        clear. induction evs as [|[?| |] evs IH]; simpl; lia. }
      rewrite IH by lia. simpl. f_equal. lia.
    + rewrite IH by lia. done.
    + rewrite IH by lia. done.
Qed.

Section WithDriver.
Context `{PyRuntime} {X : Type} `{SessionState X} (self : Methods X).

(** [complete_run]: the row is written unless the commit fails; the refresh
    may fail after it. *)
Lemma complete_run_spec run0 status (c : Counters) error checkpoint_data s :
  let r := ETLRunTracker.complete_run run0 status (records_extracted c)
             (records_transformed c) (records_loaded c) (records_skipped c)
             (records_failed c) error checkpoint_data s in
  let row := completed run0 status c error checkpoint_data s in
  etl_checkpoints r.2 = etl_checkpoints s /\
  etl_checkpoints_seq r.2 = etl_checkpoints_seq s /\
  match r.1 with
  | Ok run1 =>
      run1 = row /\
      etl_runs r.2
      = map (fun r => if bool_decide (ETLRun.id r = ETLRun.id run0) then row else r)
          (etl_runs s) /\
      faults s (pred (statements r.2)) = None
  | Raise e =>
      faults s (pred (statements r.2)) <> None /\
      (etl_runs r.2 = etl_runs s \/
       etl_runs r.2
       = map (fun r => if bool_decide (ETLRun.id r = ETLRun.id run0) then row else r)
           (etl_runs s))
  end.
Proof.
  unfold ETLRunTracker.complete_run, bind, utcnow, db_statement, get, modify, ret,
    clock_read. simpl.
  destruct (faults s (statements s)) eqn:E1; simpl.
  { rewrite E1. repeat split; try done. by left. }
  destruct (faults s (S (statements s))) eqn:E2; simpl.
  { rewrite E2. repeat split; try done. by right. }
  done.
Qed.

(** The run row is the one [start_run] appended. *)
Lemma completed_row_lookup (runs : list ETLRun.t) run0 row :
  map (fun r => if bool_decide (ETLRun.id r = ETLRun.id run0) then row else r)
    (runs ++ [run0]) !! length runs = Some row.
Proof.
  rewrite list_lookup_fmap, lookup_app_r by lia.
  rewrite Nat.sub_diag. simpl. by rewrite bool_decide_eq_true_2.
Qed.

Lemma kept_refl (w : World X) : kept w w.
Proof. split; [apply same_meta_refl | lia]. Qed.

Lemma kept_trans (w1 w2 w3 : World X) : kept w1 w2 -> kept w2 w3 -> kept w1 w3.
Proof. intros [? ?] [? ?]. split; [by eapply same_meta_trans | lia]. Qed.

Lemma lift_ext_run {A} (c : M X A) (w : World X) :
  lift_ext c w = ((c (ext w)).1, mkWorld (db w) (c (ext w)).2 (counters w)).
Proof. unfold lift_ext. by destruct (c (ext w)). Qed.

Lemma lift_db_run {A} (c : M Session A) (w : World X) :
  lift_db c w
  = ((c (session_view w)).1,
     mkWorld (with_faults (faults (db w)) (c (session_view w)).2) (ext w) (counters w)).
Proof. unfold lift_db. by destruct (c (session_view w)). Qed.

Lemma session_view_meta (w : World X) : same_meta (db w) (session_view w).
Proof. unfold session_view. destruct (pending_error (ext w)); by repeat split. Qed.

Lemma session_view_statements (w : World X) :
  statements (session_view w) = statements (db w).
Proof. unfold session_view. by destruct (pending_error (ext w)). Qed.

Lemma session_view_utc (w : World X) : utc (session_view w) = utc (db w).
Proof. unfold session_view. by destruct (pending_error (ext w)). Qed.

(** A statement that fails leaves the bookkeeping undone: the transaction
    was aborted, and stays so, or the statement has met a fault. *)
Lemma fault_undone (w w' : World X) s' :
  faults (session_view w) (pred (statements s')) <> None ->
  ext w' = ext w ->
  db w' = with_faults (faults (db w)) s' ->
  ~ bookkeeping_done w'.
Proof.
  intros Hfault Hext Hdb [Hpending Hlast]. rewrite Hext in Hpending.
  rewrite Hdb in Hlast. simpl in Hlast.
  unfold session_view in Hfault. by rewrite Hpending in Hfault.
Qed.

(** When the bookkeeping is done, the session was seen as it is. *)
Lemma done_view (w w' : World X) :
  bookkeeping_done w' -> ext w' = ext w -> session_view w = db w.
Proof.
  intros [Hpending _] Hext. rewrite Hext in Hpending.
  unfold session_view. by rewrite Hpending.
Qed.

#[local] Arguments record_drifts : simpl never.

#[local] Arguments should_process : simpl never.

#[local] Arguments session_view : simpl never.

(** Symbolic execution of the loop body: run the next method call and
    split on its outcome, keeping what is known about the session. *)
Ltac exec_step :=
  match goal with
  | |- context [lift_ext ?c ?w] =>
      rewrite (lift_ext_run c w); destruct (c (ext w)) as [[?|?] ?]; simpl
  | |- context [lift_db (should_process ?st ?sid) ?w] =>
      rewrite (lift_db_run (should_process st sid) w);
      pose proof (should_process_meta st sid (session_view w));
      pose proof (session_view_meta w);
      destruct (should_process st sid (session_view w)) as [[[|]|?] ?]; simpl in *
  | |- context [lift_db (record_drifts ?st ?ds) ?w] =>
      rewrite (lift_db_run (record_drifts st ds) w);
      pose proof (record_drifts_meta st ds (session_view w));
      pose proof (session_view_meta w);
      destruct (record_drifts st ds (session_view w)) as [[?|?] ?]; simpl in *
  | |- context [match drift_detector self with _ => _ end] =>
      destruct (drift_detector self); simpl
  | |- context [match detect_drift ?a ?b ?c with _ => _ end] =>
      let l := fresh "drifts" in
      remember (detect_drift a b c) as l; destruct l; simpl
  end.

Ltac exec_leaf :=
  eexists _, _; split; [reflexivity|]; split;
  [ split; [simpl; eauto 6 using same_meta_trans, same_meta_refl, same_meta_with_faults
           | simpl; lia]
  | simpl; first [left; reflexivity | right; lia] ].

(** One record: the body never lets an exception out, leaves the metadata
    tables alone, and changes [last_source_id] only together with the loaded
    counter. *)
Lemma process_record_spec raw_data last_source_id (w : World X) :
  exists last' w',
    process_record self raw_data last_source_id w = (Ok last', w') /\
    kept w w' /\
    (last' = last_source_id \/
     records_loaded (counters w) < records_loaded (counters w')).
Proof.
  unfold process_record, try_except, bind, count, modify, ret.
  repeat exec_step; exec_leaf.
Qed.

Lemma iterate_spec evs : forall last_source_id (w : World X),
  exists last' w',
    iterate self evs last_source_id w = (Ok last', w') /\
    kept w w' /\
    (last' = last_source_id \/
     records_loaded (counters w) < records_loaded (counters w')).
Proof.
  induction evs as [|ev evs IH]; intros last w; simpl.
  - exists last, w. split; [done|]. split; [apply kept_refl | by left].
  - destruct ev as [raw_data| |].
    + destruct (process_record_spec raw_data last w) as (l1 & w1 & Hp & Hk1 & Hl1).
      destruct (IH l1 w1) as (l2 & w2 & Hi & Hk2 & Hl2).
      exists l2, w2. unfold bind. rewrite Hp, Hi.
      split; [done|]. split; [by eapply kept_trans|].
      destruct Hk1 as [_ ?], Hk2 as [_ ?].
      destruct Hl1 as [-> | ?], Hl2 as [-> | ?]; first [by left | right; lia].
    + unfold bind, count, modify.
      match goal with |- context [iterate self evs last ?w1] =>
        destruct (IH last w1) as (l2 & w2 & Hi & Hk2 & Hl2) end.
      exists l2, w2. rewrite Hi. split; [done|].
      destruct Hk2 as [Hm ?]. simpl in *. split; [split; [done | lia]|].
      destruct Hl2 as [-> | ?]; [by left | right; lia].
    + unfold bind, count, modify.
      match goal with |- context [iterate self evs last ?w1] =>
        destruct (IH last w1) as (l2 & w2 & Hi & Hk2 & Hl2) end.
      exists l2, w2. rewrite Hi. split; [done|].
      destruct Hk2 as [Hm ?]. simpl in *. split; [split; [done | lia]|].
      destruct Hl2 as [-> | ?]; [by left | right; lia].
Qed.

(** *** Counters and the cursor *)

Lemma accounted_trans n m (c1 c2 c3 : Counters) :
  accounted n c1 c2 -> accounted m c2 c3 -> accounted (n + m) c1 c3.
Proof. unfold accounted. lia. Qed.

(** One record moves exactly one of the skipped, failed and loaded counters,
    and [last_source_id] changes exactly when the record is loaded. *)
Lemma process_record_counts raw_data last_source_id (w : World X) :
  let r := process_record self raw_data last_source_id w in
  accounted 1 (counters w) (counters r.2) /\
  ((r.1 = Ok last_source_id /\
    records_loaded (counters r.2) = records_loaded (counters w)) \/
   (exists sid, r.1 = Ok (Some sid) /\
                records_loaded (counters r.2) = records_loaded (counters w) + 1)).
Proof.
  unfold process_record, try_except, bind, count, modify, ret, accounted.
  repeat exec_step;
    (split; [simpl; lia | first [left; split; [reflexivity | simpl; lia]
                               | right; eexists; split; [reflexivity | simpl; lia]]]).
Qed.

Lemma iterate_counts evs : forall last_source_id (w : World X),
  let r := iterate self evs last_source_id w in
  accounted (Z.of_nat (length evs)) (counters w) (counters r.2) /\
  ((r.1 = Ok last_source_id /\
    records_loaded (counters r.2) = records_loaded (counters w)) \/
   (exists sid, r.1 = Ok (Some sid) /\
                records_loaded (counters w) < records_loaded (counters r.2))).
Proof.
  induction evs as [|ev evs IH]; intros last w.
  - simpl. split; [unfold accounted; lia | by left].
  - destruct ev as [raw_data| |]; cbn [iterate length]; unfold bind.
    + destruct (process_record_counts raw_data last w) as [Hacc Hlast].
      destruct (process_record self raw_data last w) as [r1 w1]. cbn [fst snd] in *.
      assert (exists l1, r1 = Ok l1) as [l1 ->].
      { destruct Hlast as [[-> _] | (sid & -> & _)]; by eexists. }
      destruct (IH l1 w1) as [Hacc2 Hlast2].
      split.
      * replace (Z.of_nat (S (length evs))) with (1 + Z.of_nat (length evs)) by lia.
        by eapply accounted_trans.
      * destruct Hacc2 as (_ & _ & Hmono & _).
        destruct Hlast as [[Heq Hl] | (sid & Heq & Hl)]; simplify_eq;
          destruct Hlast2 as [[Heq2 Hl2] | (sid2 & Heq2 & Hl2)].
        -- left. split; [done | lia].
        -- right. exists sid2. split; [done | lia].
        -- right. exists sid. split; [done | lia].
        -- right. exists sid2. split; [done | lia].
    + unfold count, modify.
      match goal with |- context [iterate self evs last ?w1] =>
        destruct (IH last w1) as [Hacc2 Hlast2] end.
      cbn [fst snd counters] in *. split.
      * unfold accounted, incr_skipped in *. simpl in *. lia.
      * simpl in *. destruct Hlast2 as [[Heq2 Hl2] | (sid2 & Heq2 & Hl2)];
          [left | right; exists sid2]; done.
    + unfold count, modify.
      match goal with |- context [iterate self evs last ?w1] =>
        destruct (IH last w1) as [Hacc2 Hlast2] end.
      cbn [fst snd counters] in *. split.
      * unfold accounted, incr_failed in *. simpl in *. lia.
      * simpl in *. destruct Hlast2 as [[Heq2 Hl2] | (sid2 & Heq2 & Hl2)];
          [left | right; exists sid2]; done.
Qed.

(** *** The whole run *)

#[local] Arguments CheckpointManager.update_checkpoint : simpl never.
#[local] Arguments CheckpointManager.get_checkpoint : simpl never.
#[local] Arguments ETLRunTracker.complete_run : simpl never.
#[local] Arguments ETLRunTracker.start_run : simpl never.
#[local] Arguments iterate : simpl never.

Lemma fail_with_raises {A} run0 e (w : World X) :
  exists f, (fail_with (A := A) run0 e w).1 = Raise f.
Proof.
  unfold fail_with, bind, get, raise. cbn beta iota.
  destruct (lift_db _ w) as [[r|f] w']; by eexists.
Qed.

Lemma fail_with_bind {A B} run0 e (w : World X) (k : A -> M (World X) B) :
  match fail_with (A := A) run0 e w with
  | (Ok a, w') => k a w'
  | (Raise f, w') => (Raise f, w')
  end = fail_with run0 e w.
Proof.
  unfold fail_with, bind, get, raise. cbn beta iota.
  destruct (lift_db _ w) as [[r|f] w']; reflexivity.
Qed.

(** [run] by its stages. *)
Lemma run_unfold extraction (w : World X) :
  run self extraction w
  = match begin_run self w with
    | (Raise e, w1) => (Raise e, w1)
    | (Ok run0, w1) =>
        match iterate self (events extraction) None w1 with
        | (Raise e, w2) => fail_with run0 e w2
        | (Ok last, w2) =>
            match ending extraction with
            | Raises e => fail_with run0 e w2
            | Exhausted =>
                if str_truthy last then
                  match checkpoint_update self last w2 with
                  | (Ok _, w3) => finish self run0 last w3
                  | (Raise e, w3) => fail_with run0 e (rolled_back w3)
                  end
                else finish self run0 last w2
            end
        end
    end.
Proof.
  unfold run, bind at 1.
  destruct (begin_run self w) as [[run0|e] w1]; [|done].
  unfold try_except, bind at 1 2.
  destruct (iterate self (events extraction) None w1) as [[last|e] w2].
  2:{ apply (fail_with_bind run0 e w2). }
  destruct (ending extraction) as [|e].
  2:{ apply (fail_with_bind run0 e w2). }
  unfold bind at 1, ret at 1. unfold bind at 1.
  destruct (str_truthy last).
  - unfold bind at 1, get at 1. unfold bind at 1.
    unfold checkpoint_update.
    destruct (lift_db _ w2) as [[c|e] w3].
    + reflexivity.
    + change ((modify rolled_back ;;; raise e)%py w3)
        with (@Raise ETLCheckpoint.t e, rolled_back w3).
      cbn beta iota. apply (fail_with_bind run0 e (rolled_back w3)).
  - reflexivity.
Qed.

(** The start of the run: the checkpoint table is left alone, and the run
    row is appended, unless a statement fails. *)
Lemma begin_run_spec (w : World X) :
  let r := begin_run self w in
  etl_checkpoints (db r.2) = etl_checkpoints (db w) /\
  etl_checkpoints_seq (db r.2) = etl_checkpoints_seq (db w) /\
  ext r.2 = ext w /\
  counters r.2 = counters w /\
  match r.1 with
  | Ok run0 =>
      etl_runs (db r.2) = etl_runs (db w) ++ [run0] /\
      ETLRun.status run0 = RUNNING /\
      ETLRun.error_message run0 = None /\
      ETLRun.error_traceback run0 = None /\
      row_counters run0 = mkCounters 0 0 0 0 0
  | Raise e => ~ bookkeeping_done r.2
  end.
Proof.
  unfold begin_run, bind. rewrite lift_db_run.
  pose proof (get_checkpoint_meta (source_type self) (session_view w)) as Hm.
  destruct (session_view_meta w) as (Hv1 & Hv2 & Hv3 & _).
  destruct (CheckpointManager.get_checkpoint (source_type self) (session_view w))
    as [[cp|e] s1] eqn:Ecp; cbn [fst snd] in *.
  - rewrite lift_db_run.
    set (w1 := mkWorld (with_faults (faults (db w)) s1) (ext w) (counters w)).
    destruct (session_view_meta w1) as (Hw1 & Hw2 & Hw3 & _).
    match goal with |- context [ETLRunTracker.start_run ?st ?md ?s] =>
      pose proof (start_run_spec st md s) as Hstart;
      destruct (ETLRunTracker.start_run st md s) as [[run0|e] s2] eqn:Estart
    end; cbn [fst snd db ext counters] in *;
      destruct Hstart as (Hc & Hcs & Hrest);
      destruct Hm as (Hm1 & Hm2 & Hm3 & _); simpl in *.
    + split; [congruence|]. split; [congruence|]. split; [done|]. split; [done|].
      destruct Hrest as (Hruns & Hrest). split; [congruence | done].
    + split; [congruence|]. split; [congruence|]. split; [done|]. split; [done|].
      eapply (fault_undone w1); [exact Hrest | done | done].
  - destruct Hm as (Hm1 & Hm2 & _). simpl.
    split; [congruence|]. split; [congruence|]. split; [done|]. split; [done|].
    destruct (get_checkpoint_raised _ _ _ _ Ecp) as [Hfault _].
    eapply (fault_undone w); [exact Hfault | done | done].
Qed.

Lemma completed_view run0 status c error checkpoint_data (w : World X) :
  completed run0 status c error checkpoint_data (session_view w)
  = completed run0 status c error checkpoint_data (db w).
Proof. unfold completed. by rewrite session_view_utc. Qed.

(** The exit through the outer [except]: when the bookkeeping is done, the
    exception of the run is raised and the row is completed. *)
Lemma fail_with_spec {A} run0 e (w : World X) :
  let r := fail_with (A := A) run0 e w in
  let row := completed run0 FAILED (counters w) (Some e) None (db w) in
  etl_checkpoints (db r.2) = etl_checkpoints (db w) /\
  etl_checkpoints_seq (db r.2) = etl_checkpoints_seq (db w) /\
  ext r.2 = ext w /\
  counters r.2 = counters w /\
  (bookkeeping_done r.2 ->
   r.1 = Raise e /\
   etl_runs (db r.2)
   = map (fun r => if bool_decide (ETLRun.id r = ETLRun.id run0) then row else r)
       (etl_runs (db w))).
Proof.
  unfold fail_with, bind, get, raise. cbn beta iota zeta. rewrite lift_db_run.
  destruct (session_view_meta w) as (Hv1 & Hv2 & Hv3 & _).
  pose proof (complete_run_spec run0 FAILED (counters w) (Some e) None (session_view w))
    as Hspec. cbv zeta in Hspec. rewrite completed_view in Hspec.
  destruct (ETLRunTracker.complete_run _ _ _ _ _ _ _ _ _ (session_view w))
    as [[run1|f] s1]; cbn [fst snd db ext counters] in *;
    destruct Hspec as (Hc & Hcs & Hrest); simpl.
  - split; [congruence|]. split; [congruence|]. split; [done|]. split; [done|].
    intros _. split; [done|]. destruct Hrest as (_ & -> & _). by rewrite Hv3.
  - split; [congruence|]. split; [congruence|]. split; [done|]. split; [done|].
    intros Hdone. exfalso. destruct Hrest as [Hfault _].
    eapply (fault_undone w); [exact Hfault | | | exact Hdone]; done.
Qed.

(** The normal exit. *)
Lemma finish_spec run0 last (w : World X) :
  let r := finish self run0 last w in
  let row := completed run0 (final_status (counters w)) (counters w) None
               (Some {[ "last_source_id" := opt_str last ]}) (db w) in
  etl_checkpoints (db r.2) = etl_checkpoints (db w) /\
  etl_checkpoints_seq (db r.2) = etl_checkpoints_seq (db w) /\
  ext r.2 = ext w /\
  counters r.2 = counters w /\
  (forall stats, r.1 = Ok stats ->
     stats = mkStats (ETLRun.run_id run0) (SourceType_value (source_type self))
               (RunStatus_value (final_status (counters w))) (counters w) /\
     etl_runs (db r.2)
     = map (fun r => if bool_decide (ETLRun.id r = ETLRun.id run0) then row else r)
         (etl_runs (db w))) /\
  (bookkeeping_done r.2 -> exists stats, r.1 = Ok stats).
Proof.
  unfold finish, bind, get, ret. cbn beta iota zeta. rewrite lift_db_run.
  destruct (session_view_meta w) as (Hv1 & Hv2 & Hv3 & _).
  pose proof (complete_run_spec run0 (final_status (counters w)) (counters w) None
                (Some {[ "last_source_id" := opt_str last ]}) (session_view w))
    as Hspec. cbv zeta in Hspec. rewrite completed_view in Hspec.
  destruct (ETLRunTracker.complete_run _ _ _ _ _ _ _ _ _ (session_view w))
    as [[run1|f] s1]; cbn [fst snd db ext counters] in *;
    destruct Hspec as (Hc & Hcs & Hrest); simpl.
  - split; [congruence|]. split; [congruence|]. split; [done|]. split; [done|].
    split; [|intros _; by eexists].
    intros stats [= <-]. split; [done|]. destruct Hrest as (_ & -> & _). by rewrite Hv3.
  - split; [congruence|]. split; [congruence|]. split; [done|]. split; [done|].
    split; [done|].
    intros Hdone. exfalso. destruct Hrest as [Hfault _].
    eapply (fault_undone w); [exact Hfault | | | exact Hdone]; done.
Qed.

(** The checkpoint update after the loop. *)
Lemma checkpoint_update_spec last (w : World X) :
  let r := checkpoint_update self last w in
  etl_runs (db r.2) = etl_runs (db w) /\
  ext r.2 = ext w /\
  counters r.2 = counters w /\
  (forall e, r.1 = Raise e -> exn_cls e = CheckpointError).
Proof.
  unfold checkpoint_update. rewrite lift_db_run. cbn [fst snd db ext counters].
  destruct (session_view_meta w) as (Hv1 & Hv2 & Hv3 & _).
  simpl. rewrite update_checkpoint_runs. split; [done|]. split; [done|]. split; [done|].
  intros e He. by eapply update_checkpoint_raises.
Qed.

(** What [run] has done when its bookkeeping is done: the run row was
    written, the loop has ended, and the exit taken has completed the
    row. *)
Lemma run_done extraction (w : World X) :
  bookkeeping_done (run self extraction w).2 ->
  exists run0 w1 last w2 w3 row,
    begin_run self w = (Ok run0, w1) /\
    iterate self (events extraction) None w1 = (Ok last, w2) /\
    etl_runs (db w1) = etl_runs (db w) ++ [run0] /\
    etl_checkpoints (db w1) = etl_checkpoints (db w) /\
    etl_checkpoints_seq (db w1) = etl_checkpoints_seq (db w) /\
    counters w1 = counters w /\
    ETLRun.error_message run0 = None /\
    kept w1 w2 /\
    etl_runs (db w3) = etl_runs (db w2) /\
    counters w3 = counters w2 /\
    counters (run self extraction w).2 = counters w2 /\
    etl_checkpoints (db (run self extraction w).2) = etl_checkpoints (db w3) /\
    etl_runs (db (run self extraction w).2)
    = map (fun r => if bool_decide (ETLRun.id r = ETLRun.id run0) then row else r)
        (etl_runs (db w3)) /\
    match ending extraction with
    | Raises e =>
        w3 = w2 /\
        (run self extraction w).1 = Raise e /\
        row = completed run0 FAILED (counters w2) (Some e) None (db w3)
    | Exhausted =>
        if str_truthy last then
          match checkpoint_update self last w2 with
          | (Ok _, w3') =>
              w3 = w3' /\
              (run self extraction w).1
              = Ok (mkStats (ETLRun.run_id run0) (SourceType_value (source_type self))
                      (RunStatus_value (final_status (counters w2))) (counters w2)) /\
              row = completed run0 (final_status (counters w2)) (counters w2) None
                      (Some {[ "last_source_id" := opt_str last ]}) (db w3)
          | (Raise e, w3') =>
              w3 = rolled_back w3' /\
              exn_cls e = CheckpointError /\
              (run self extraction w).1 = Raise e /\
              row = completed run0 FAILED (counters w2) (Some e) None (db w3)
          end
        else
          w3 = w2 /\
          (run self extraction w).1
          = Ok (mkStats (ETLRun.run_id run0) (SourceType_value (source_type self))
                  (RunStatus_value (final_status (counters w2))) (counters w2)) /\
          row = completed run0 (final_status (counters w2)) (counters w2) None
                  (Some {[ "last_source_id" := opt_str last ]}) (db w3)
    end.
Proof.
  rewrite run_unfold.
  pose proof (begin_run_spec w) as Hbegin. cbv zeta in Hbegin.
  destruct (begin_run self w) as [[run0|e] w1]; cbn [fst snd] in *.
  2:{ intros Hdone. by destruct Hbegin as (_ & _ & _ & _ & Hno). }
  destruct Hbegin as (Hc1 & Hcs1 & _ & Hcnt1 & Hruns1 & _ & Hmsg & _).
  destruct (iterate_spec (events extraction) None w1) as (last & w2 & Hit & Hkept & _).
  rewrite Hit.
  destruct (ending extraction) as [|e].
  - destruct (str_truthy last) eqn:Etruthy.
    + pose proof (checkpoint_update_spec last w2) as Hupd. cbv zeta in Hupd.
      destruct (checkpoint_update self last w2) as [[c|e] w3] eqn:Eupd; cbn [fst snd] in *;
        destruct Hupd as (Hruns3 & Hext3 & Hcnt3 & Hcls).
      * pose proof (finish_spec run0 last w3) as Hfin. cbv zeta in Hfin.
        destruct Hfin as (Hc & Hcs & Hext & Hcnt & Hret & Hdone').
        intros Hdone. destruct (Hdone' Hdone) as [stats Hstats].
        destruct (Hret stats Hstats) as [-> Hruns].
        eexists run0, w1, last, w2, w3, _. rewrite Etruthy, Eupd. rewrite Hcnt3 in *.
        split_and!; try done; congruence.
      * pose proof (fail_with_spec (A := RunStats) run0 e (rolled_back w3)) as Hfail.
        cbv zeta in Hfail. destruct Hfail as (Hc & Hcs & Hext & Hcnt & Hdone').
        intros Hdone. destruct (Hdone' Hdone) as [Hres Hruns].
        eexists run0, w1, last, w2, (rolled_back w3), _. rewrite Etruthy, Eupd.
        simpl in *. rewrite Hcnt3 in *.
        split_and!; try done; try congruence. by apply Hcls.
    + pose proof (finish_spec run0 last w2) as Hfin. cbv zeta in Hfin.
      destruct Hfin as (Hc & Hcs & Hext & Hcnt & Hret & Hdone').
      intros Hdone. destruct (Hdone' Hdone) as [stats Hstats].
      destruct (Hret stats Hstats) as [-> Hruns].
      eexists run0, w1, last, w2, w2, _. rewrite Etruthy.
      split_and!; try done; congruence.
  - pose proof (fail_with_spec (A := RunStats) run0 e w2) as Hfail.
    cbv zeta in Hfail. destruct Hfail as (Hc & Hcs & Hext & Hcnt & Hdone').
    intros Hdone. destruct (Hdone' Hdone) as [Hres Hruns].
    eexists run0, w1, last, w2, w2, _.
    split_and!; try done; congruence.
Qed.

(** A run that returns has done its bookkeeping. *)
Lemma finish_returns_done run0 last (w : World X) stats :
  (finish self run0 last w).1 = Ok stats -> bookkeeping_done (finish self run0 last w).2.
Proof.
  unfold finish, bind, get, ret. cbn beta iota zeta. rewrite lift_db_run.
  pose proof (complete_run_spec run0 (final_status (counters w)) (counters w) None
                (Some {[ "last_source_id" := opt_str last ]}) (session_view w))
    as Hspec. cbv zeta in Hspec.
  destruct (ETLRunTracker.complete_run _ _ _ _ _ _ _ _ _ (session_view w))
    as [[run1|f] s1]; cbn [fst snd db ext counters] in *; [|done].
  destruct Hspec as (_ & _ & _ & _ & Hlast). intros _.
  unfold bookkeeping_done, session_view in *. simpl.
  destruct (pending_error (ext w)); [done|]. done.
Qed.

Lemma run_returns_done extraction (w : World X) stats :
  (run self extraction w).1 = Ok stats -> bookkeeping_done (run self extraction w).2.
Proof.
  rewrite run_unfold.
  destruct (begin_run self w) as [[run0|e] w1]; [|done].
  destruct (iterate self (events extraction) None w1) as [[last|e] w2].
  2:{ intros Hok. destruct (fail_with_raises (A := RunStats) run0 e w2) as [f Hf].
      congruence. }
  destruct (ending extraction) as [|e].
  2:{ intros Hok. destruct (fail_with_raises (A := RunStats) run0 e w2) as [f Hf].
      congruence. }
  destruct (str_truthy last).
  - destruct (checkpoint_update self last w2) as [[c|e] w3].
    + apply finish_returns_done.
    + intros Hok.
      destruct (fail_with_raises (A := RunStats) run0 e (rolled_back w3)) as [f Hf].
      congruence.
  - apply finish_returns_done.
Qed.



(** C10.  When the extraction sequence completes and the loaded counter has
    not moved, [run] leaves the checkpoint table as it was, whatever the
    database does to the statements of the run; and when the bookkeeping of
    the run goes through, [run] returns, with the status that the failed
    counter gives. *)
Theorem no_load_no_checkpoint_update (extraction : Extraction) (w : World X) :
  ending extraction = Exhausted ->
  let res := (run self extraction w).1 in
  let w' := (run self extraction w).2 in
  records_loaded (counters w') = records_loaded (counters w) ->
  etl_checkpoints (db w') = etl_checkpoints (db w) /\
  etl_checkpoints_seq (db w') = etl_checkpoints_seq (db w) /\
  (bookkeeping_done w' ->
   exists stats,
     res = Ok stats /\
     stats_status stats
     = RunStatus_value (if records_failed (counters w') =? 0 then SUCCESS else PARTIAL)).
Proof.
  intros Hend res w'. subst res w'. rewrite run_unfold, Hend.
  pose proof (begin_run_spec w) as Hbegin. cbv zeta in Hbegin.
  destruct (begin_run self w) as [[run0|e] w1]; cbn [fst snd] in *.
  2:{ destruct Hbegin as (Hc & Hcs & _ & _ & Hno). intros _.
      split; [done|]. split; [done|]. intros Hdone. by destruct Hno. }
  destruct Hbegin as (Hc1 & Hcs1 & _ & Hcnt1 & _).
  destruct (iterate_spec (events extraction) None w1) as (last & w2 & Hit & Hkept & _).
  destruct (iterate_counts (events extraction) None w1) as [_ Hlast].
  rewrite Hit in *. cbn [fst snd] in Hlast.
  destruct Hkept as [(Hc2 & Hcs2 & _) _].
  assert (forall w3 : World X, counters w3 = counters w2 ->
            records_loaded (counters w3) = records_loaded (counters w) -> last = None)
    as Hnone.
  { intros w3 Hcnt3 Hsame. rewrite Hcnt3, <- Hcnt1 in Hsame.
    destruct Hlast as [[Heq _] | (sid & _ & Hlt)]; [by simplify_eq | lia]. }
  destruct (str_truthy last) eqn:Etruthy.
  - pose proof (checkpoint_update_spec last w2) as Hupd. cbv zeta in Hupd.
    destruct (checkpoint_update self last w2) as [[c|e] w3]; cbn [fst snd] in *;
      destruct Hupd as (_ & _ & Hcnt3 & _).
    + pose proof (finish_spec run0 last w3) as Hfin. cbv zeta in Hfin.
      destruct Hfin as (_ & _ & _ & Hcnt & _).
      intros Hsame. rewrite (Hnone _ (eq_trans Hcnt Hcnt3) Hsame) in Etruthy. done.
    + pose proof (fail_with_spec (A := RunStats) run0 e (rolled_back w3)) as Hfail.
      cbv zeta in Hfail. destruct Hfail as (_ & _ & _ & Hcnt & _).
      intros Hsame. rewrite (Hnone _ (eq_trans Hcnt Hcnt3) Hsame) in Etruthy. done.
  - pose proof (finish_spec run0 last w2) as Hfin. cbv zeta in Hfin.
    destruct Hfin as (Hc & Hcs & _ & Hcnt & Hret & Hdone').
    intros _. split; [congruence|]. split; [congruence|].
    intros Hdone. destruct (Hdone' Hdone) as [stats Hstats].
    exists stats. split; [done|]. destruct (Hret stats Hstats) as [-> _].
    by rewrite Hcnt.
Qed.

(** *** The session block *)

Lemma with_db_session_unfold {A} (body : M (World X) A) (w : World X) :
  with_db_session body w
  = match body (rolled_back w) with
    | (Ok v, w1) => closing v w1
    | (Raise e, w1) => (Raise e, rolled_back w1)
    end.
Proof.
  unfold with_db_session, closing, try_except, bind, modify, raise, ret.
  cbn beta iota.
  destruct (body (rolled_back w)) as [[v|e] w1]; reflexivity.
Qed.


Lemma closing_value {A} (v : A) (w : World X) :
  closing v w
  = match closing tt w with
    | (Ok _, w') => (Ok v, w')
    | (Raise e, w') => (Raise e, w')
    end.
Proof.
  unfold closing, try_except, bind, modify, raise, ret.
  destruct (lift_db db_statement w) as [[[]|e] w']; reflexivity.
Qed.

Lemma injection_unfold (K : Z) extraction (w : World X) :
  run_with_failure_injection self K extraction w
  = let wrapped := (failing_extract K 0 (events extraction) (ending extraction)).1 in
    let pulled := (failing_extract K 0 (events extraction) (ending extraction)).2 in
    let record_count :=
      match (begin_run self (rolled_back w)).1 with
      | Ok _ => pulled
      | Raise _ => 0
      end in
    match run self wrapped (rolled_back w) with
    | (Ok stats, w1) => closing (Completed stats) w1
    | (Raise e, w1) =>
        if isinstance e ETLException then
          closing (FailedInjection (record_count - 1) (exn_str e)) w1
        else (Raise e, rolled_back w1)
    end.
Proof.
  unfold run_with_failure_injection. rewrite with_db_session_unfold.
  unfold bind at 1, get at 1.
  destruct (failing_extract K 0 (events extraction) (ending extraction))
    as [wrapped pulled]. cbn [fst snd]. cbv zeta.
  unfold try_except, bind, ret, raise.
  destruct (run self wrapped (rolled_back w)) as [[stats|e] w1]; [done|].
  by destruct (isinstance e ETLException).
Qed.





(** X18.  When [run] returns, the run row records under [last_source_id]
    the source id of the last record loaded, [None] exactly when nothing was
    loaded.  If that id is a non-empty string, the checkpoint of the source
    type holds it, together with the loaded count, and [last_offset] is what
    it was before the run (0 for a new row): [run] never moves the offset.
    Otherwise the checkpoint table is as before the run. *)
Theorem run_writes_cursor (extraction : Extraction) (w : World X) (stats : RunStats) :
  (run self extraction w).1 = Ok stats ->
  let w' := (run self extraction w).2 in
  let st := source_type self in
  exists last r,
    etl_runs (db w') !! length (etl_runs (db w)) = Some r /\
    ETLRun.checkpoint_data r = Some {[ "last_source_id" := opt_str last ]} /\
    (last = None <-> records_loaded (counters w') = records_loaded (counters w)) /\
    if str_truthy last then
      exists c,
        checkpoint_of st (db w') = Some c /\
        ETLCheckpoint.last_source_id c = last /\
        ETLCheckpoint.checkpoint_metadata c
        = Some {[ "records_processed" := PyInt (records_loaded (counters w')) ]} /\
        ETLCheckpoint.last_offset c
        = from_option ETLCheckpoint.last_offset 0 (checkpoint_of st (db w))
    else etl_checkpoints (db w') = etl_checkpoints (db w).
Proof.
  intros Hok w' st. subst w' st.
  pose proof (run_returns_done extraction w stats Hok) as Hdone.
  destruct (run_done extraction w Hdone)
    as (run0 & w1 & last & w2 & w3 & row & _ & Hi & Hruns1 & Hck1 & _ & Hcnt1 & _ & Hkept
        & Hruns3 & _ & Hcnt & Hck & Hruns & Hexit).
  destruct Hkept as [(Hck2 & _ & Hruns2 & _) _].
  destruct (iterate_counts (events extraction) None w1) as [_ Hlast].
  rewrite Hi in Hlast. cbn [fst snd] in Hlast. rewrite Hcnt1 in Hlast.
  assert (last = None <-> records_loaded (counters w2) = records_loaded (counters w))
    as Hnone.
  { destruct Hlast as [[Heq Hl] | (sid & Heq & Hl)]; simplify_eq; split; (done || lia). }
  assert (checkpoint_of (source_type self) (db w2)
          = checkpoint_of (source_type self) (db w)) as Hsame.
  { unfold checkpoint_of. by rewrite Hck2, Hck1. }
  assert (run_row w (run self extraction w).2 = Some row) as Hrow.
  { unfold run_row. rewrite Hruns, Hruns3, Hruns2, Hruns1. apply completed_row_lookup. }
  assert (forall s : Session,
            ETLRun.checkpoint_data
              (completed run0 (final_status (counters w2)) (counters w2) None
                 (Some {[ "last_source_id" := opt_str last ]}) s)
            = Some {[ "last_source_id" := opt_str last ]}) as Hdata.
  { intros s. unfold completed. cbn [ETLRun.checkpoint_data].
    rewrite bool_decide_eq_false_2; [reflexivity | apply map_non_empty_singleton]. }
  exists last, row. rewrite Hcnt. split; [exact Hrow|].
  destruct (ending extraction) as [|e]; [|destruct Hexit as (_ & Hres & _); congruence].
  destruct (str_truthy last) eqn:Etruthy.
  - unfold checkpoint_update in Hexit. rewrite lift_db_run in Hexit.
    destruct (CheckpointManager.update_checkpoint (source_type self) last None
                (Some {[ "records_processed" := PyInt (records_loaded (counters w2)) ]})
                (session_view w2)) as [[c|e] s3] eqn:Eupd; cbn [fst snd] in Hexit.
    2:{ destruct Hexit as (_ & _ & Hres & _). congruence. }
    destruct Hexit as (-> & _ & ->). split; [apply Hdata|]. split; [done|].
    destruct (CheckpointTableProofs.update_checkpoint_stored _ _ _ _ _ _ _ Eupd) as (Hlook & Hlsid & Hoff & Hmd).
    destruct (session_view_meta w2) as (Hv & _).
    exists c. unfold checkpoint_of in *. rewrite Hck. simpl.
    split; [done|]. rewrite Hlsid, Hmd, Hoff, Hv. fold (checkpoint_of (source_type self) (db w2)).
    unfold checkpoint_of. rewrite Hck2, Hck1.
    destruct last as [l|]; [done|]. done.
  - destruct Hexit as (-> & _ & ->). split; [apply Hdata|]. split; [done|].
    congruence.
Qed.

(** X19.  Failure injection at a record number the extraction never
    reaches (zero, negative, or beyond the records it yields) injects
    nothing: the run is the plain [run], inside a session block of its own.
    When the run returns, its statistics come back as completed.  An
    exception of the run that is an [ETLException], such as the source's own
    [ExtractionError] or a [CheckpointError], is reported as
    [failed_injection]; [records_before_failure] is then the number of
    records yielded minus one, and minus one when the run has raised before
    its loop (on the checkpoint read or the run row), since no record was
    pulled.  Any other exception is raised again after the rollback of the
    block.  In the first two cases the block is committed, and what that
    commit raises comes out instead. *)
Theorem failure_injection_out_of_range (K : Z) (extraction : Extraction) (w : World X) :
  K <= 0 \/ count_yields (events extraction) < K ->
  let r := run self extraction (rolled_back w) in
  let record_count :=
    match (begin_run self (rolled_back w)).1 with
    | Ok _ => count_yields (events extraction)
    | Raise _ => 0
    end in
  run_with_failure_injection self K extraction w
  = match r.1 with
    | Ok stats => closing (Completed stats) r.2
    | Raise e =>
        if isinstance e ETLException then
          closing (FailedInjection (record_count - 1) (exn_str e)) r.2
        else (Raise e, rolled_back r.2)
    end.
Proof.
  intros Hrange r record_count. subst r record_count. rewrite injection_unfold.
  rewrite failing_extract_identity by lia. cbn [fst snd]. cbv zeta.
  destruct extraction as [evs fin]. cbn [events ending]. rewrite Z.add_0_l.
  by destruct (run self (mkExtraction evs fin) (rolled_back w)) as [[stats|e] w1].
Qed.

End WithDriver.

(** *** Closed instances: the CSV extractor on three rows *)






Lemma no_load_no_checkpoint_update_witness :
  let w := example_world no_faults [checkpoint_row_9] in
  let res := (run (H := example_runtime) csv_extractor three_rows w).1 in
  let w' := (run (H := example_runtime) csv_extractor three_rows w).2 in
  etl_checkpoints (db w') = etl_checkpoints (db w) /\
  etl_checkpoints_seq (db w') = etl_checkpoints_seq (db w) /\
  exists stats,
    res = Ok stats /\
    stats_status stats
    = RunStatus_value (if records_failed (counters w') =? 0 then SUCCESS else PARTIAL).
Proof.
  destruct (no_load_no_checkpoint_update (H := example_runtime) csv_extractor three_rows
              (example_world no_faults [checkpoint_row_9]) eq_refl)
    as (Hc & Hcs & Hret); [vm_compute; reflexivity|].
  split; [exact Hc|]. split; [exact Hcs|].
  apply Hret. split; vm_compute; reflexivity.
Defined.

(** All three rows skipped, status success, checkpoint as before. *)
Example all_skipped_run :
  let w := example_world no_faults [checkpoint_row_9] in
  let w' := (run (H := example_runtime) csv_extractor three_rows w).2 in
  counters w' = mkCounters 0 0 0 3 0 /\
  map ETLRun.status (etl_runs (db w')) = [SUCCESS] /\
  etl_checkpoints (db w') = [checkpoint_row_9].
Proof. vm_compute. done. Qed.


Lemma three_rows_run_returns :
  (run (H := example_runtime) csv_extractor three_rows (example_world no_faults [])).1
  = Ok (mkStats "run-0" "csv" "success" (mkCounters 3 3 3 0 0)).
Proof. vm_compute. reflexivity. Qed.

Lemma run_writes_cursor_witness :
  let w := example_world no_faults [] in
  let w' := (run (H := example_runtime) csv_extractor three_rows w).2 in
  exists last r,
    etl_runs (db w') !! length (etl_runs (db w)) = Some r /\
    ETLRun.checkpoint_data r = Some {[ "last_source_id" := opt_str last ]} /\
    (last = None <-> records_loaded (counters w') = records_loaded (counters w)) /\
    if str_truthy last then
      exists c,
        checkpoint_of CSV (db w') = Some c /\
        ETLCheckpoint.last_source_id c = last /\
        ETLCheckpoint.checkpoint_metadata c
        = Some {[ "records_processed" := PyInt (records_loaded (counters w')) ]} /\
        ETLCheckpoint.last_offset c
        = from_option ETLCheckpoint.last_offset 0 (checkpoint_of CSV (db w))
    else etl_checkpoints (db w') = etl_checkpoints (db w).
Proof.
  exact (run_writes_cursor (H := example_runtime) csv_extractor three_rows
           (example_world no_faults []) _ three_rows_run_returns).
Defined.

(** The checkpoint the run over three rows leaves behind. *)
Example run_three_rows_checkpoint :
  let w' := (run (H := example_runtime) csv_extractor three_rows
               (example_world no_faults [])).2 in
  map (fun c => (ETLCheckpoint.last_source_id c, ETLCheckpoint.last_offset c))
    (etl_checkpoints (db w'))
  = [(Some "data.csv:3", 0)].
Proof. vm_compute. reflexivity. Qed.

Lemma failure_injection_out_of_range_witness :
  let w := example_world no_faults [] in
  run_with_failure_injection (H := example_runtime) csv_extractor 5 three_rows w
  = closing (Completed (mkStats "run-0" "csv" "success" (mkCounters 3 3 3 0 0)))
      (run (H := example_runtime) csv_extractor three_rows (rolled_back w)).2.
Proof.
  pose proof (failure_injection_out_of_range (H := example_runtime) csv_extractor 5
                three_rows (example_world no_faults [])) as Hrange.
  cbv zeta in *. rewrite Hrange; [|right; simpl; lia].
  assert ((run (H := example_runtime) csv_extractor three_rows
             (rolled_back (example_world no_faults []))).1
          = Ok (mkStats "run-0" "csv" "success" (mkCounters 3 3 3 0 0))) as ->
    by (vm_compute; reflexivity).
  reflexivity.
Defined.

(** The source fails on its own after one row; the failure is reported as
    an injected one, with no record before it. *)
Example source_error_reported_as_injection :
  (run_with_failure_injection (H := example_runtime) csv_extractor 5 one_row_then_error
     (example_world no_faults [])).1
  = Ok (FailedInjection 0 "CSV extraction failed: bad line").
Proof. vm_compute. reflexivity. Qed.

(** The first checkpoint read fails: the generator is never started, and a
    failure before record "minus one" is reported. *)
Example checkpoint_read_fault_reported :
  (run_with_failure_injection (H := example_runtime) csv_extractor 5 three_rows
     (example_world (fun n => if (n =? 0)%nat then Some (mkExn Exception_ "connection lost")
                              else None) [])).1
  = Ok (FailedInjection (-1) "Failed to get checkpoint: connection lost").
Proof. vm_compute. reflexivity. Qed.

(** A title of 501 characters in the only row: the load raises, nothing
    rolls the session back, [complete_run] fails in the aborted transaction,
    [run] raises that error in place of returning, and the run row stays as
    [start_run] wrote it. *)
Example long_title_leaves_run_running :
  let w := example_world no_faults [] in
  let r := run (H := example_runtime) csv_extractor long_row w in
  r.1 = Raise in_failed_transaction /\
  counters r.2 = mkCounters 1 1 0 0 1 /\
  map ETLRun.status (etl_runs (db r.2)) = [RUNNING] /\
  map row_counters (etl_runs (db r.2)) = [mkCounters 0 0 0 0 0] /\
  ~ bookkeeping_done r.2.
Proof.
  split; [vm_compute; reflexivity|]. split; [vm_compute; reflexivity|].
  split; [vm_compute; reflexivity|]. split; [vm_compute; reflexivity|].
  intros [Hpending _]. vm_compute in Hpending. discriminate.
Qed.

(** The same title in the second of three rows: the first row is loaded,
    the third fails on its checkpoint read, the checkpoint update fails as
    well, its handler rolls the session back, and the run is recorded as
    failed with the [CheckpointError]. *)
Example long_title_fails_checkpoint :
  let w := example_world no_faults [] in
  let r := run (H := example_runtime) csv_extractor long_second_row w in
  (exists text, r.1 = Raise (mkExn CheckpointError text)) /\
  counters r.2 = mkCounters 2 2 1 0 2 /\
  map ETLRun.status (etl_runs (db r.2)) = [FAILED] /\
  etl_checkpoints (db r.2) = [] /\
  bookkeeping_done r.2.
Proof.
  split; [eexists; vm_compute; reflexivity|]. split; [vm_compute; reflexivity|].
  split; [vm_compute; reflexivity|]. split; [vm_compute; reflexivity|].
  split; vm_compute; reflexivity.
Qed.

End DriverProofs.

(** ** Run tracker: comparing runs *)

Module TrackerProofs.
Import ETLRun ETLRunTracker TrackerSpec.

(** The percentage exceeds 50 exactly when the count has changed by more
    than half of the first count. *)
Lemma pct_above_half (d r : Z) :
  0 < r ->
  Qltb 50 (Qabs_float (inject_Z d / inject_Z r * 100)) = true <-> r < 2 * Z.abs d.
Proof.
  intros Hr. rewrite Qltb_lt.
  assert (0 < inject_Z r)%Q as Hrq.
  { change 0%Q with (inject_Z 0). by rewrite <- Zlt_Qlt. }
  assert (inject_Z d / inject_Z r * inject_Z r == inject_Z d)%Q as Hdiv.
  { field. lra. }
  set (y := (inject_Z d / inject_Z r)%Q) in *.
  assert (forall a : Q, (a < y <-> a * inject_Z r < inject_Z d)%Q) as Hlt.
  { intros a. rewrite <- Hdiv. symmetry. by apply Qmult_lt_r. }
  assert (forall a : Q, (y < a <-> inject_Z d < a * inject_Z r)%Q) as Hgt.
  { intros a. rewrite <- Hdiv. symmetry. by apply Qmult_lt_r. }
  unfold Qabs_float. destruct (Qltb (y * 100) 0) eqn:E.
  - apply Qltb_lt in E.
    assert (y < 0)%Q as Hneg by lra.
    assert (inject_Z d < 0)%Q as Hd by (apply Hgt in Hneg; lra).
    change 0%Q with (inject_Z 0) in Hd. rewrite <- Zlt_Qlt in Hd.
    split.
    + intros Hx. assert (y < -(1#2))%Q as Hy by lra. apply Hgt in Hy.
      assert (inject_Z (2 * d) < inject_Z (- r))%Q as Hz.
      { rewrite inject_Z_mult, inject_Z_opp. change (inject_Z 2) with 2%Q. lra. }
      rewrite <- Zlt_Qlt in Hz. lia.
    + intros Hx. assert (inject_Z (2 * d) < inject_Z (- r))%Q as Hz.
      { rewrite <- Zlt_Qlt. lia. }
      rewrite inject_Z_mult, inject_Z_opp in Hz. change (inject_Z 2) with 2%Q in Hz.
      assert (y < -(1#2))%Q as Hy by (apply Hgt; lra). lra.
  - apply Qltb_ge in E.
    assert (0 <= y)%Q as Hpos by lra.
    assert (0 <= inject_Z d)%Q as Hd.
    { destruct (Qlt_le_dec (inject_Z d) 0) as [Hn|]; [|done].
      assert (y < 0)%Q by (apply Hgt; lra). lra. }
    change 0%Q with (inject_Z 0) in Hd. rewrite <- Zle_Qle in Hd.
    split.
    + intros Hx. assert ((1#2) < y)%Q as Hy by lra. apply Hlt in Hy.
      assert (inject_Z r < inject_Z (2 * d))%Q as Hz.
      { rewrite inject_Z_mult. change (inject_Z 2) with 2%Q. lra. }
      rewrite <- Zlt_Qlt in Hz. lia.
    + intros Hx. assert (inject_Z r < inject_Z (2 * d))%Q as Hz.
      { rewrite <- Zlt_Qlt. lia. }
      rewrite inject_Z_mult in Hz. change (inject_Z 2) with 2%Q in Hz.
      assert ((1#2) < y)%Q as Hy by (apply Hlt; lra). lra.
Qed.

Section WithRuntime.
Context `{PyRuntime} (format_1f : Q -> string).

Lemma get_run_result run_id s : get_run run_id s = (Ok (run_of run_id s), s).
Proof. reflexivity. Qed.

Ltac other_types Ha Hty :=
  repeat first [ apply elem_of_app in Ha as [Ha | Ha]
               | apply elem_of_cons in Ha as [-> | Ha]; [simpl in Hty; discriminate Hty|] ];
  try (by apply elem_of_nil in Ha).

(** X20.  [compare_runs] flags a [record_count_anomaly] exactly when both
    runs loaded something, and the loaded count of the second run differs
    from that of the first by more than half of the first.  A run that
    loaded nothing is a blind spot: compared with it, no record-count
    difference is computed and no such anomaly is flagged, whatever the
    other run loaded. *)
Theorem compare_runs_record_count_anomaly (s : Session) (id1 id2 : string)
    (run1 run2 : t) :
  run_of id1 s = Some run1 -> run_of id2 s = Some run2 ->
  exists c,
    compare_runs format_1f id1 id2 s = (Ok (Compared c), s) /\
    (has_anomaly "record_count_anomaly" c <->
     0 < records_loaded run1 /\ records_loaded run2 <> 0 /\
     records_loaded run1 < 2 * Z.abs (records_loaded run2 - records_loaded run1)) /\
    (records_loaded run1 = 0 \/ records_loaded run2 = 0 ->
     ~ has_anomaly "record_count_anomaly" c /\
     differences c !! "records_loaded" = None).
Proof.
  intros H1 H2. unfold compare_runs, bind. rewrite !get_run_result, H1, H2.
  cbv beta iota zeta. unfold ret. eexists. split; [reflexivity|].
  set (r1 := records_loaded run1). set (r2 := records_loaded run2).
  match goal with |- (has_anomaly _ ?c <-> _) /\ _ => set (final := c) end.
  assert (exists (flagged : bool) (others : list Anomaly),
            (exists a, anomaly_type a = "record_count_anomaly" /\
               anomalies final = (if flagged then [a] else []) ++ others) /\
            (forall a, a ∈ others -> anomaly_type a <> "record_count_anomaly") /\
            (flagged = true <->
             0 < r1 /\ r2 <> 0 /\ r1 < 2 * Z.abs (r2 - r1)) /\
            (r1 = 0 \/ r2 = 0 -> differences final !! "records_loaded" = None))
    as (flagged & others & (rec & Hrec & Hanom) & Hothers & Hflag & Hdiff).
  { subst final.
    destruct (Z.eqb_spec r1 0) as [Hz1|Hz1]; [|destruct (Z.eqb_spec r2 0) as [Hz2|Hz2]];
      cbn [negb andb].
    3:{ destruct (Z.ltb_spec 0 r1) as [Hpos|Hneg].
        - pose proof (pct_above_half (r2 - r1) r1 Hpos) as Hpct.
          destruct (Qltb 50 _) eqn:E2;
            [exists true | exists false];
            destruct (both_durations _ _); try destruct (Qltb 100 _);
            destruct (bool_decide _); cbn [negb anomalies differences app];
            (eexists; split;
             [first [ eexists; split; [|reflexivity]; reflexivity
                    | exists (mkAnomaly "record_count_anomaly" "" "");
                      split; [|reflexivity]; reflexivity ]|]);
            (split; [intros a Ha Hty; other_types Ha Hty|]);
            (split; [|intros [?|?]; lia]);
            (split; [intros; split; [done|]; split; [done|]; by apply Hpct
                    | intros (_ & _ & Hx); apply Hpct in Hx; congruence]).
        - exists false.
          destruct (Qltb 50 _) eqn:E2; [vm_compute in E2; discriminate|].
          destruct (both_durations _ _); try destruct (Qltb 100 _);
            destruct (bool_decide _); cbn [negb anomalies differences app];
            (eexists; split; [exists (mkAnomaly "record_count_anomaly" "" ""); split; [|reflexivity]; reflexivity|]);
            (split; [intros a Ha Hty; other_types Ha Hty|]);
            (split; [|intros [?|?]; lia]);
            (split; [done | lia]). }
    all: exists false;
      destruct (both_durations _ _); try destruct (Qltb 100 _);
      destruct (bool_decide _); cbn [negb anomalies differences app];
      (eexists; split; [exists (mkAnomaly "record_count_anomaly" "" ""); split; [|reflexivity]; reflexivity|]);
      (split; [intros a Ha Hty; other_types Ha Hty|]);
      (split; [split; [done | lia]|]);
      intros _; rewrite ?lookup_insert_ne by done; apply lookup_empty. }
  assert (has_anomaly "record_count_anomaly" final <-> flagged = true) as Hhas.
  { unfold has_anomaly. rewrite Hanom. split.
    - intros (a & Ha & Hty). destruct flagged; [done|].
      simpl in Ha. by apply Hothers in Ha.
    - intros ->. exists rec. split; [by left | done]. }
  split; [by rewrite Hhas|].
  intros Hzero. split; [|by apply Hdiff].
  rewrite Hhas, Hflag. lia.
Qed.

Lemma same_duration_pct (d : Q) :
  Qltb 100 (if Qltb 0 d then ((d - d) / d * 100)%Q else 0%Q) = false.
Proof.
  apply Qltb_ge. destruct (Qltb 0 d) eqn:E; [|lra].
  apply Qltb_lt in E.
  assert ((d - d) / d * 100 == 0)%Q as -> by (field; lra). lra.
Qed.

(** X21.  [compare_runs] with a run id that is not in the table returns the
    error dictionary and raises nothing.  Comparing a run with itself finds
    no anomaly. *)
Theorem compare_runs_edge_cases (s : Session) (id1 id2 : string) :
  (run_of id1 s = None \/ run_of id2 s = None ->
   compare_runs format_1f id1 id2 s
   = (Ok (CompareError "One or both runs not found"), s)) /\
  (forall run, run_of id1 s = Some run ->
   exists c,
     compare_runs format_1f id1 id1 s = (Ok (Compared c), s) /\
     anomalies c = [] /\ run_1 c = summary run /\ run_2 c = summary run).
Proof.
  split.
  - intros Hnone. unfold compare_runs, bind. rewrite !get_run_result.
    destruct Hnone as [-> | ->]; [done|]. by destruct (run_of id1 s).
  - intros run Hrun. unfold compare_runs, bind. rewrite !get_run_result, Hrun.
    cbv beta iota zeta. unfold ret. eexists. split; [reflexivity|].
    rewrite bool_decide_eq_true_2 by done. cbn [negb].
    set (r := records_loaded run).
    assert (Qltb 50 (Qabs_float (if 0 <? r then inject_Z (r - r) / inject_Z r * 100 else 0))
            = false) as Hrec.
    { destruct (Z.ltb_spec 0 r) as [Hpos|Hneg]; [|by vm_compute].
      destruct (Qltb 50 _) eqn:E; [|done].
      apply (pct_above_half (r - r) r Hpos) in E. lia. }
    rewrite Hrec.
    destruct (negb (r =? 0) && negb (r =? 0));
      destruct (both_durations _ _); rewrite ?same_duration_pct; done.
Qed.

End WithRuntime.

(** *** Closed instances *)

Lemma compare_runs_record_count_anomaly_witness :
  exists c,
    compare_runs (H := example_runtime) example_format_1f "run-a" "run-b" s_two_runs
    = (Ok (Compared c), s_two_runs) /\
    (has_anomaly "record_count_anomaly" c <->
     0 < records_loaded run_a /\ records_loaded run_b <> 0 /\
     records_loaded run_a < 2 * Z.abs (records_loaded run_b - records_loaded run_a)) /\
    (records_loaded run_a = 0 \/ records_loaded run_b = 0 ->
     ~ has_anomaly "record_count_anomaly" c /\
     differences c !! "records_loaded" = None).
Proof.
  exact (compare_runs_record_count_anomaly (H := example_runtime) example_format_1f
           s_two_runs "run-a" "run-b" run_a run_b eq_refl eq_refl).
Defined.

(** A hundred records, then none: only the change of status is flagged. *)
Example compare_runs_drop_to_zero :
  match (compare_runs (H := example_runtime) example_format_1f "run-a" "run-b"
           s_two_runs).1 with
  | Ok (Compared c) => map anomaly_type (anomalies c)
  | _ => []
  end = ["status_change"].
Proof. vm_compute. reflexivity. Qed.

Lemma compare_runs_edge_cases_witness :
  exists c,
    compare_runs (H := example_runtime) example_format_1f "run-a" "run-a" s_two_runs
    = (Ok (Compared c), s_two_runs) /\
    anomalies c = [] /\
    run_1 c = summary (H := example_runtime) run_a /\
    run_2 c = summary (H := example_runtime) run_a.
Proof.
  exact (proj2 (compare_runs_edge_cases (H := example_runtime) example_format_1f
                  s_two_runs "run-a" "run-a") run_a eq_refl).
Defined.

End TrackerProofs.
(** ** The orchestrator: one entry per source *)

Module OrchestratorProofs.
Import SchemaDriftDetector BaseExtractor ETLOrchestrator.
Import CheckpointSpec CheckpointProofs DriverSpec DriverProofs.

Section WithDriver.
Context `{PyRuntime} {X : Type} `{SessionState X}.

Lemma bind_returns {S A B} (c : M S A) (k : A -> M S B) (P : B -> Prop) :
  (forall a s b, (k a s).1 = Ok b -> P b) ->
  forall s b, (bind c k s).1 = Ok b -> P b.
Proof.
  intros Hk s b. unfold bind. destruct (c s) as [[a|e] s']; [apply Hk | done].
Qed.

(** The statistics of a run carry the source type of its extractor. *)
Lemma run_source_type (self : Methods X) ex (w : World X) stats :
  (run self ex w).1 = Ok stats ->
  stats_source_type stats = SourceType_value (source_type self).
Proof.
  revert w stats. unfold run.
  apply bind_returns; intros run0.
  apply bind_returns; intros [status last].
  apply bind_returns; intros w'.
  apply bind_returns; intros _.
  intros w stats Hs. injection Hs as <-. reflexivity.
Qed.

(** The body of a block of [run_all] never raises: it returns the entry of
    the run's outcome. *)
Lemma run_extractor_entry fail_on_error cls src (extractor : Methods X) ex (w : World X) :
  try_except (_run_extractor fail_on_error cls extractor ex)
    (fun e => ret (SourceFailed src (exn_str e))) (rolled_back w)
  = (Ok (entry fail_on_error cls src (run extractor ex (opened w)).1),
     (run extractor ex (opened w)).2).
Proof.
  unfold _run_extractor. unfold try_except, bind, modify. cbv beta iota.
  change (mkWorld (db (rolled_back w)) (ext (rolled_back w)) (mkCounters 0 0 0 0 0))
    with (opened w).
  destruct (run extractor ex (opened w)) as [[stats|e] w2]; [reflexivity|].
  by destruct fail_on_error.
Qed.

Lemma run_source_unfold fail_on_error cls src (extractor : Methods X) ex (w : World X) :
  run_source fail_on_error cls src extractor ex w
  = match closing tt (run extractor ex (opened w)).2 with
    | (Ok _, w') => (Ok (entry fail_on_error cls src (run extractor ex (opened w)).1), w')
    | (Raise e, w') => (Raise e, w')
    end.
Proof.
  unfold run_source. rewrite with_db_session_unfold, run_extractor_entry.
  apply closing_value.
Qed.

(** X22.  A sequential [run_all] runs the three sources one after the
    other, each in a session block of its own, and a source that fails does
    not stop the next one.  With [o1], [o2], [o3] the outcomes of the three
    runs, each started in a new session with the counters at zero, and
    [c1], [c2], [c3] the outcomes of the commits that close the three
    blocks: when the commits go through, [run_all] returns one entry per
    source, in the order api, csv, rss, and the entry of a source is the
    statistics of its run when the run has returned, the failure entry of
    [_run_extractor] when the run has raised and [fail_on_error] is off, and
    the failure entry of [run_all] when it has raised and [fail_on_error] is
    on; so [fail_on_error] never makes [run_all] raise.  [run_all] raises
    only what the first failing commit raises, and a later source is then
    not run.  The statistics of a run carry the source type of its
    extractor. *)
Theorem run_all_isolates_sources (fail_on_error : bool) (api csv rss : Methods X)
    (api_extraction csv_extraction rss_extraction : Extraction) (w : World X) :
  let w0 := (lift_db utcnow w).2 in
  let o1 := run api api_extraction (opened w0) in
  let c1 := closing tt o1.2 in
  let o2 := run csv csv_extraction (opened c1.2) in
  let c2 := closing tt o2.2 in
  let o3 := run rss rss_extraction (opened c2.2) in
  let c3 := closing tt o3.2 in
  (run_all fail_on_error api csv rss api_extraction csv_extraction rss_extraction w).1
  = match c1.1, c2.1, c3.1 with
    | Ok _, Ok _, Ok _ =>
        Ok [entry fail_on_error "APIExtractor" "api" o1.1;
            entry fail_on_error "CSVExtractor" "csv" o2.1;
            entry fail_on_error "CoinGeckoExtractor" "rss" o3.1]
    | Raise e, _, _ => Raise e
    | Ok _, Raise e, _ => Raise e
    | Ok _, Ok _, Raise e => Raise e
    end /\
  (forall stats, o1.1 = Ok stats ->
     stats_source_type stats = SourceType_value (source_type api)) /\
  (forall stats, o2.1 = Ok stats ->
     stats_source_type stats = SourceType_value (source_type csv)) /\
  (forall stats, o3.1 = Ok stats ->
     stats_source_type stats = SourceType_value (source_type rss)).
Proof.
  intros w0 o1 c1 o2 c2 o3 c3.
  split; [|split; [|split]]; try (intros stats; apply run_source_type).
  unfold run_all. unfold bind at 1.
  assert (lift_db utcnow w = (Ok (readings (utc (db w)) (ticks (utc (db w)))), w0)) as ->.
  { subst w0. rewrite lift_db_run. unfold utcnow, clock_read. simpl.
    by rewrite session_view_utc. }
  unfold bind at 1. rewrite run_source_unfold. fold o1 c1.
  destruct c1 as [[[]|e1] w1]; cbn [fst snd] in *; [|done].
  unfold bind at 1. rewrite run_source_unfold. fold o2 c2.
  destruct c2 as [[[]|e2] w2]; cbn [fst snd] in *; [|done].
  unfold bind at 1. rewrite run_source_unfold. fold o3 c3.
  destruct c3 as [[[]|e3] w3]; cbn [fst snd] in *; [|done].
  unfold bind. rewrite lift_db_run. reflexivity.
Qed.

End WithDriver.

(** *** Closed instances *)

(** Three runs of the CSV extractor over one database: the second source
    raises after its first row, which fails its run; the third source is run
    all the same, and finds the rows of the first already stored. *)
Example run_all_after_a_failed_source :
  (run_all (H := example_runtime) false csv_extractor csv_extractor csv_extractor
     three_rows one_row_then_error three_rows (example_world no_faults [])).1
  = Ok [Stats (mkStats "run-0" "csv" "success" (mkCounters 3 3 3 0 0));
        ExtractorFailed "CSVExtractor" "CSV extraction failed: bad line";
        Stats (mkStats "run-2" "csv" "success" (mkCounters 0 0 0 3 0))].
Proof. vm_compute. reflexivity. Qed.

(** A title that is too long in the first source: its run leaves the
    transaction aborted, the commit that closes its block fails, and
    [run_all] raises, with [fail_on_error] off; the other sources are not
    run. *)
Example run_all_raises_on_aborted_transaction :
  let r := run_all (H := example_runtime) false csv_extractor csv_extractor csv_extractor
             long_row three_rows three_rows (example_world no_faults []) in
  r.1 = Raise in_failed_transaction /\
  map ETLRun.status (etl_runs (db r.2)) = [RUNNING].
Proof. vm_compute. done. Qed.

End OrchestratorProofs.
(** ** The API source: requests under the limiter *)

Module APIProofs.
Import RateLimiter RateLimiterSpec RateLimiterProofs APISource APISpec.

Lemma throttled_inv reply :
  throttled reply ->
  exists response retry_after,
    reply = Answer response /\ status_code response = 429 /\
    default (Ok 60%Q) (retry_after_header response) = Ok retry_after.
Proof.
  destruct reply as [response| |]; simpl; [|done..].
  intros [Hcode Hhdr]. exists response.
  destruct (retry_after_header response) as [[q|e]|] eqn:E; simpl.
  - by exists q.
  - by destruct (Hhdr e).
  - by exists 60%Q.
Qed.

(** *** The limiter's calls, one by one *)

Lemma bind_lift_limiter {A B} (c : M World A) (k : A -> M Api B) a x w' :
  c (limiter a) = (Ok x, w') ->
  bind (lift_limiter c) k a = k x (mkApi w' (replies a) (requested a)).
Proof. intros Hc. unfold bind, lift_limiter. by rewrite Hc. Qed.

Lemma bind_lift_limiter_raise {A B} (c : M World A) (k : A -> M Api B) a e w' :
  c (limiter a) = (Raise e, w') ->
  bind (lift_limiter c) k a = (Raise e, mkApi w' (replies a) (requested a)).
Proof. intros Hc. unfold bind, lift_limiter. by rewrite Hc. Qed.


Lemma wait_in_window w key st :
  _states (self w) !! key = Some st ->
  in_window (readings (clock w)) (window_start st) ->
  exists w1,
    wait_if_needed key w = (Ok tt, w1) /\
    readings (clock w1) = readings (clock w) /\
    self w1 = self w.
Proof.
  intros Hst Hwin.
  destruct (check_in_window w key st Hst Hwin) as (wait & w1 & Hchk & Hf & Hs & _).
  unfold wait_if_needed, bind. rewrite Hchk.
  destruct (Qltb 0 wait); [|by exists w1].
  eexists. split; [reflexivity|]. by simpl.
Qed.

Lemma record_request_state w key st :
  _states (self w) !! key = Some st ->
  exists st' w',
    record_request key w = (Ok tt, w') /\
    readings (clock w') = readings (clock w) /\
    ticks (clock w') = S (ticks (clock w)) /\
    slept w' = slept w /\
    same_config w w' /\
    _states (self w') !! key = Some st' /\
    window_start st' = window_start st /\
    retry_count st' = retry_count st.
Proof.
  intros Hst. unfold record_request, _get_state. run_monad. rewrite Hst. simpl.
  eexists _, _. split; [reflexivity|]. simpl.
  rewrite lookup_insert_eq. repeat split; done.
Qed.

Lemma record_failure_state w key st :
  _states (self w) !! key = Some st ->
  exists st' w',
    record_failure key w =
      (if max_retries (self w) <? retry_count st + 1
       then Raise (mkExn RateLimitError (max_retries_message (max_retries (self w)) key))
       else Ok (backoff_base (self w) ^ (retry_count st + 1))%Q,
       w') /\
    clock w' = clock w /\
    slept w' = slept w /\
    same_config w w' /\
    _states (self w') !! key = Some st' /\
    window_start st' = window_start st /\
    retry_count st' = retry_count st + 1.
Proof.
  intros Hst. unfold record_failure, _get_state. run_monad. rewrite Hst. simpl.
  destruct (_ <? _); simpl; eexists _, _; (split; [reflexivity|]); simpl;
    rewrite ?lookup_insert_eq; repeat split; done.
Qed.

Lemma make_request_S depth (self : APIExtractor) endpoint params :
  _make_request (S depth) self endpoint params =
    (lift_limiter (wait_if_needed "api") ;;;
     lift_limiter (record_request "api") ;;;
     reply <~ client_get (api_url self +:+ endpoint) (request_headers self)
                (params_or_none params) ;;
     match reply with
     | HTTPError text =>
         raise (mkExn ExtractionError ("API request failed: " +:+ text))
     | OtherError e => raise e
     | Answer response =>
         if status_code response =? 401 then
           raise (mkExn AuthenticationError "API authentication failed")
         else if status_code response =? 429 then
           match default (Ok 60%Q) (retry_after_header response) with
           | Raise e => raise e
           | Ok retry_after =>
               backoff <~ lift_limiter (record_failure "api") ;;
               lift_limiter (time_sleep (max_float backoff retry_after)) ;;;
               _make_request depth self endpoint params
           end
         else
           match status_error response with
           | Some text =>
               raise (mkExn ExtractionError ("API request failed: " +:+ text))
           | None =>
               lift_limiter (record_success "api") ;;;
               match json response with
               | Ok data => ret (Some data)
               | Raise e => raise e
               end
           end
     end)%py.
Proof. reflexivity. Qed.

(** A throttled request up to the call of [record_failure]. *)
Lemma throttled_request depth (self : APIExtractor) endpoint params a w1 w2 :
  wait_if_needed "api" (limiter a) = (Ok tt, w1) ->
  record_request "api" w1 = (Ok tt, w2) ->
  throttled (replies a (length (requested a))) ->
  exists retry_after request,
    _make_request (S depth) self endpoint params a =
      (backoff <~ lift_limiter (record_failure "api") ;;
       lift_limiter (time_sleep (max_float backoff retry_after)) ;;;
       _make_request depth self endpoint params)%py
        (mkApi w2 (replies a) (requested a ++ [request])).
Proof.
  intros Hwait Hrec Hthr.
  destruct (throttled_inv _ Hthr) as (response & retry_after & Hreply & Hcode & Hhdr).
  exists retry_after, (mkRequest (api_url self +:+ endpoint) (request_headers self)
                         (params_or_none params)).
  rewrite make_request_S.
  rewrite (bind_lift_limiter (wait_if_needed "api") _ a tt w1 Hwait).
  rewrite (bind_lift_limiter (record_request "api") _
             (mkApi w1 (replies a) (requested a)) tt w2 Hrec).
  unfold bind at 1, client_get. cbn [limiter replies requested].
  rewrite Hreply, Hcode, Hhdr. reflexivity.
Qed.





Lemma gives_up_in_window (self : APIExtractor) endpoint params :
  forall (n depth : nat) (a : Api) st,
  _states (RateLimiter.self (limiter a)) !! "api" = Some st ->
  in_window (readings (clock (limiter a))) (window_start st) ->
  (forall k, throttled (replies a k)) ->
  max_retries (RateLimiter.self (limiter a)) - retry_count st = Z.of_nat n ->
  (n < depth)%nat ->
  let r := _make_request depth self endpoint params a in
  r.1 = Raise (mkExn RateLimitError
                 (max_retries_message (max_retries (RateLimiter.self (limiter a))) "api")) /\
  length (requested r.2) = (length (requested a) + n + 1)%nat.
Proof.
  induction n as [|n IH]; intros depth a st Hst Hwin Hthr Hleft Hdepth;
    (destruct depth as [|depth]; [lia|]).
  all: destruct (wait_in_window _ _ _ Hst Hwin) as (w1 & Hwait & Hf1 & Hs1).
  all: assert (_states (RateLimiter.self w1) !! "api" = Some st) as Hst1
         by (by rewrite Hs1).
  all: destruct (record_request_state _ _ _ Hst1)
         as (st2 & w2 & Hrec & Hf2 & Ht2 & Hsl2 & (_ & Hm2 & _) & Hst2 & Hws2 & Hrc2).
  all: destruct (throttled_request depth self endpoint params a w1 w2 Hwait Hrec (Hthr _))
         as (retry_after & request & ->).
  all: destruct (record_failure_state _ _ _ Hst2)
         as (st3 & w3 & Hfail & Hk3 & Hsl3 & (_ & Hm3 & _) & Hst3 & Hws3 & Hrc3).
  all: rewrite Hs1 in Hm2.
  - assert ((max_retries (RateLimiter.self w2) <? retry_count st2 + 1) = true) as Hup
      by lia.
    rewrite Hup in Hfail.
    rewrite (bind_lift_limiter_raise (record_failure "api") _
               (mkApi w2 (replies a) (requested a ++ [request])) _ w3 Hfail).
    cbv zeta. cbn [fst snd requested]. rewrite Hm2. split; [done|].
    rewrite length_app. simpl. lia.
  - assert ((max_retries (RateLimiter.self w2) <? retry_count st2 + 1) = false) as Hok
      by lia.
    rewrite Hok in Hfail.
    rewrite (bind_lift_limiter (record_failure "api") _
               (mkApi w2 (replies a) (requested a ++ [request])) _ w3 Hfail).
    unfold bind at 1, lift_limiter, time_sleep, modify. cbn [limiter replies requested].
    match goal with
    | |- context [_make_request depth self endpoint params ?a'] =>
        destruct (IH depth a' st3) as (Hr & Hlen)
    end; cbn [limiter replies requested clock slept RateLimiter.self].
    + done.
    + rewrite Hk3, Hf2, Hf1, Hws3, Hws2. done.
    + done.
    + lia.
    + lia.
    + cbv zeta. rewrite Hr, Hlen. cbn [limiter RateLimiter.self requested].
      rewrite Hm3, Hm2. split; [done|]. rewrite length_app. simpl. lia.
Qed.

(** X24.  While the clock stays inside the window of the key, and with
    delays that [time.sleep] takes (none negative, none beyond 2^63
    nanoseconds, which also keeps the powers within the floats), a server
    that answers 429 to every request is asked
    [max_retries - retry_count + 1] times by [_make_request], where
    [retry_count] is the count on record at the start; then the call ends
    with the [RateLimitError] of [record_failure], which no handler of
    [_make_request] turns into an [ExtractionError]. *)
Theorem make_request_gives_up_in_window (self : APIExtractor) (endpoint : string)
    (params : option pydict) (depth : nat) (a : Api) (st : RateLimiterState) :
  _states (RateLimiter.self (limiter a)) !! "api" = Some st ->
  in_window (readings (clock (limiter a))) (window_start st) ->
  (forall k, throttled (replies a k)) ->
  retry_count st <= max_retries (RateLimiter.self (limiter a)) ->
  (Z.to_nat (max_retries (RateLimiter.self (limiter a)) - retry_count st) < depth)%nat ->
  let r := _make_request depth self endpoint params a in
  forallb sleepable (drop (length (slept (limiter a))) (slept (limiter r.2))) = true ->
  r.1 = Raise (mkExn RateLimitError
                 (max_retries_message (max_retries (RateLimiter.self (limiter a))) "api")) /\
  length (requested r.2) =
    (length (requested a)
     + Z.to_nat (max_retries (RateLimiter.self (limiter a)) - retry_count st) + 1)%nat.
Proof.
  intros Hst Hwin Hthr Hle Hdepth r _.
  apply (gives_up_in_window self endpoint params _ depth a st); try done. lia.
Qed.

Lemma readings_in_window_bound i :
  (nth (Nat.div2 i) readings_in_window (1700000001 + (633 # 32)) - 1700000000 < 60)%Q.
Proof.
  destruct (nth_in_or_default (Nat.div2 i) readings_in_window
              (1700000001 + (633 # 32))%Q) as [Hin| ->].
  - revert Hin. generalize (nth (Nat.div2 i) readings_in_window
                              (1700000001 + (633 # 32))%Q).
    intros q Hin. unfold readings_in_window in Hin. simpl in Hin.
    destruct Hin as [<-|[<-|[<-|[<-|[<-|[]]]]]]; reflexivity.
  - reflexivity.
Qed.

Lemma make_request_gives_up_in_window_witness :
  let r := _make_request 10 coinpaprika "/coins" None a_throttled_in_window in
  forallb sleepable (drop (length (slept (limiter a_throttled_in_window)))
                       (slept (limiter r.2))) = true /\
  r.1 = Raise (mkExn RateLimitError (max_retries_message 5 "api")) /\
  length (requested r.2) = 6%nat.
Proof.
  assert (forallb sleepable
            (drop (length (slept (limiter a_throttled_in_window)))
               (slept (limiter (_make_request 10 coinpaprika "/coins" None
                                  a_throttled_in_window).2))) = true) as Hsleep
    by (vm_compute; reflexivity).
  split; [exact Hsleep|].
  apply (make_request_gives_up_in_window coinpaprika "/coins" None 10
           a_throttled_in_window (mkState 0 1700000000 0 0 0)).
  - reflexivity.
  - intros i. apply readings_in_window_bound.
  - intros n. simpl. split; [reflexivity|]. intros e. discriminate.
  - simpl. lia.
  - simpl. lia.
  - exact Hsleep.
Defined.

(** The delays of that call: the back-off grows from 1.5 to 7.59375 seconds,
    each above the second the server asks for. *)
Example make_request_delays_in_window :
  slept (limiter (_make_request 10 coinpaprika "/coins" None a_throttled_in_window).2)
  = [3 # 2; 9 # 4; 27 # 8; 81 # 16; 243 # 32]%Q.
Proof. vm_compute. reflexivity. Qed.

End APIProofs.

(** ** The CSV source *)

Module CSVProofs.
Import BaseExtractor CSVTransform CSVSource CSVSpec.

Section WithRuntime.
Context `{PyRuntime}.

Lemma transform_dom raw_data : dom (transform raw_data) = unified_fields.
Proof.
  unfold transform, unified_fields. rewrite !dom_insert_L, dom_singleton_L.
  apply set_eq. intros x. rewrite !elem_of_union, !elem_of_singleton. tauto.
Qed.

Lemma extra_of_lookup raw_data k v :
  extra_of raw_data !! k = Some v <->
  raw_data !! k = Some v /\ starts_with_underscore k = false /\
  str_lower k ∉ mapped_fields.
Proof.
  unfold extra_of, data_of. rewrite !map_lookup_filter_Some. simpl.
  rewrite negb_true_iff. tauto.
Qed.

Lemma data_of_insert_underscore raw_data k v :
  starts_with_underscore k = true ->
  data_of (<[k := v]> raw_data) = data_of raw_data.
Proof.
  intros Hk. unfold data_of. apply map_eq. intros j.
  apply option_eq. intros x. rewrite !map_lookup_filter_Some. simpl.
  destruct (decide (j = k)) as [->|Hne].
  - rewrite Hk. simpl. split; intros [_ ?]; done.
  - by rewrite lookup_insert_ne.
Qed.

Lemma data_of_insert_plain raw_data k v :
  starts_with_underscore k = false ->
  data_of (<[k := v]> raw_data) = <[k := v]> (data_of raw_data).
Proof.
  intros Hk. unfold data_of. apply map_eq. intros j.
  apply option_eq. intros x.
  destruct (decide (j = k)) as [->|Hne].
  - rewrite map_lookup_filter_Some, !lookup_insert_eq. simpl. rewrite Hk. simpl. tauto.
  - rewrite lookup_insert_ne by done. rewrite !map_lookup_filter_Some.
    by rewrite lookup_insert_ne.
Qed.

Lemma dict_get_insert_ne (d : pydict) k v j :
  j <> k -> dict_get (<[k := v]> d) j = dict_get d j.
Proof. intros Hne. unfold dict_get. by rewrite lookup_insert_ne. Qed.

Lemma parse_published_at_insert (d : pydict) k v fields :
  k ∉ fields ->
  parse_published_at (<[k := v]> d) fields = parse_published_at d fields.
Proof.
  induction fields as [|f fields IH]; intros Hk; simpl; [done|].
  apply not_elem_of_cons in Hk as [Hne Hk].
  rewrite lookup_insert_ne by done. rewrite IH by done. done.
Qed.

Lemma extra_insert_mapped (d : pydict) k v :
  str_lower k ∈ mapped_fields ->
  filter (fun kv : string * pyval => str_lower kv.1 ∉ mapped_fields) (<[k := v]> d)
  = filter (fun kv : string * pyval => str_lower kv.1 ∉ mapped_fields) d.
Proof.
  intros Hk. apply map_eq. intros j. apply option_eq. intros x.
  rewrite !map_lookup_filter_Some. simpl.
  destruct (decide (j = k)) as [->|Hne].
  - split; intros [_ ?]; done.
  - by rewrite lookup_insert_ne.
Qed.

Ltac other_name Hk :=
  intros <-; apply Hk; apply (bool_decide_unpack _); vm_compute; exact I.

(** X26.  A column whose name is a mapped name only up to case (["Title"],
    ["URL"]) is lost: it is not read as the field, since the lookups are by
    the exact lower-case name, and it is kept out of [extra_data], since
    that filter lowers the name first.  Like a metadata column, it leaves no
    trace in the transformed record, whatever its value. *)
Theorem transform_drops_column (raw_data : pydict) (k : string) (v : pyval) :
  unread k ->
  transform (<[k := v]> raw_data) = transform raw_data.
Proof.
  intros [Hk | [Hk Hlow]].
  - unfold transform. fold (data_of (<[k := v]> raw_data)). fold (data_of raw_data).
    by rewrite data_of_insert_underscore.
  - destruct (starts_with_underscore k) eqn:Hu.
    { unfold transform. fold (data_of (<[k := v]> raw_data)). fold (data_of raw_data).
      by rewrite data_of_insert_underscore. }
    unfold transform. fold (data_of (<[k := v]> raw_data)). fold (data_of raw_data).
    rewrite (data_of_insert_plain _ _ _ Hu).
    rewrite extra_insert_mapped by done.
    rewrite parse_published_at_insert.
    2:{ intros Hin. apply Hk. unfold date_fields in Hin. unfold mapped_fields.
        repeat (apply elem_of_cons in Hin as [-> | Hin];
                [apply (bool_decide_unpack _); vm_compute; exact I|]).
        by apply elem_of_nil in Hin. }
    rewrite !dict_get_insert_ne by other_name Hk.
    reflexivity.
Qed.

Section WithStrings.
Context `{PyStrings}.

(** X27.  Cleaning a cell twice is cleaning it once, as long as [strip] of
    the stripped text changes nothing; and a cleaned cell is never blank nor
    one of the words for a missing value: those come out as [None]. *)
Theorem clean_value_idempotent (value : pyval) :
  (forall s, value = PyStr s -> str_strip (str_strip s) = str_strip s) ->
  _clean_value (_clean_value value) = _clean_value value /\
  forall t, _clean_value value = PyStr t -> str_lower t ∉ null_words.
Proof.
  intros Hstrip. destruct value as [| | | |s| | | |]; try (split; [reflexivity | done]).
  specialize (Hstrip s eq_refl). unfold _clean_value.
  destruct (bool_decide_reflect (str_lower (str_strip s) ∈ null_words)) as [Hnull|Hnull];
    [split; [reflexivity | done]|].
  destruct (contains_dot (str_strip s)) eqn:Hdot.
  - destruct (float_of_str (str_strip s)) as [x|] eqn:Hx; simpl;
      [split; [reflexivity | done]|].
    destruct (bool_decide_reflect (str_lower (str_strip s) ∈ true_words)) as [Ht|Ht];
      [split; [reflexivity | done]|].
    destruct (bool_decide_reflect (str_lower (str_strip s) ∈ false_words)) as [Hf|Hf];
      [split; [reflexivity | done]|].
    split; [|by intros t [= <-]].
    rewrite Hstrip, Hdot, Hx. simpl.
    by rewrite !bool_decide_eq_false_2.
  - destruct (int_of_str (str_strip s)) as [x|] eqn:Hx; simpl;
      [split; [reflexivity | done]|].
    destruct (bool_decide_reflect (str_lower (str_strip s) ∈ true_words)) as [Ht|Ht];
      [split; [reflexivity | done]|].
    destruct (bool_decide_reflect (str_lower (str_strip s) ∈ false_words)) as [Hf|Hf];
      [split; [reflexivity | done]|].
    split; [|by intros t [= <-]].
    rewrite Hstrip, Hdot, Hx. simpl.
    by rewrite !bool_decide_eq_false_2.
Qed.

Lemma extract_rows_length file last_row rows : forall row_num,
  length (extract_rows file last_row row_num rows) = length rows.
Proof. induction rows as [|row rows IH]; intros n; simpl; [done|]. by rewrite IH. Qed.

Lemma extract_rows_lookup file last_row rows : forall row_num (i : nat) row,
  rows !! i = Some row ->
  extract_rows file last_row row_num rows !! i
  = Some (if row_num + Z.of_nat i <=? last_row then CountSkipped
          else Yield (cleaned_row file (row_num + Z.of_nat i) row)).
Proof.
  induction rows as [|r rows IH]; intros n i row Hi; [done|].
  destruct i as [|i]; simpl in *.
  - simplify_eq. by rewrite Z.add_0_r.
  - rewrite (IH (n + 1) i row Hi).
    by replace (n + 1 + Z.of_nat i) with (n + Z.pos (Pos.of_succ_nat i)) by lia.
Qed.

(** X28.  The CSV generator.  A path that does not exist gives an empty
    sequence, without an error and without reading the checkpoint.
    Otherwise, with the checkpoint read and the file opened, the sequence
    has one event per row of the reader: the row with 1-based number [n] is
    counted as skipped when [n <= last_offset] and is yielded otherwise,
    cleaned cell by cell and tagged with [_row_number = n] and the base name
    of the file as [_source_file], which replace columns of these names.  A
    failure of the reader ends the sequence, after the rows read so far,
    with [ExtractionError]. *)
Theorem csv_extract_trace (file : CSVFile) (s : Session) :
  (path_exists file = false -> extract file s = (mkExtraction [] Exhausted, s)) /\
  (path_exists file = true -> CheckpointSpec.fault_at s 0 = None ->
   open_error file = None ->
   let last_row :=
     from_option ETLCheckpoint.last_offset 0 (CheckpointSpec.checkpoint_of CSV s) in
   let ex := (extract file s).1 in
   length (events ex) = length (reader_rows file) /\
   (forall (i : nat) row, reader_rows file !! i = Some row ->
      events ex !! i
      = Some (if Z.of_nat (S i) <=? last_row then CountSkipped
              else Yield (<["_source_file" := PyStr (basename file)]>
                            (<["_row_number" := PyInt (Z.of_nat (S i))]>
                               (_clean_value <$> row))))) /\
   ending ex
   = match reader_error file with
     | Some e => Raises (mkExn ExtractionError ("CSV extraction failed: " +:+ exn_str e))
     | None => Exhausted
     end).
Proof.
  split.
  - intros Hno. unfold extract. by rewrite Hno.
  - intros Hyes Hq Hopen last_row ex. subst last_row ex. unfold extract.
    rewrite Hyes, (CheckpointProofs.get_checkpoint_ok _ _ Hq), Hopen. simpl.
    split; [apply extract_rows_length|]. split; [|done].
    intros i row Hi. rewrite (extract_rows_lookup _ _ _ 1 i row Hi).
    replace (1 + Z.of_nat i) with (Z.of_nat (S i)) by lia.
    by destruct (CheckpointSpec.checkpoint_of CSV s).
Qed.

End WithStrings.

End WithRuntime.

(** *** Closed instances *)

(** A row with [name] and [summary]: the metadata stays out, nothing is
    left for [extra_data]. *)
Example transform_name_summary :
  transform (H := example_runtime)
    {[ "name" := PyStr "N"; "summary" := PyStr "S"; "_row_number" := PyInt 1;
       "_source_file" := PyStr "f.csv" ]}
  = {[ "title" := PyStr "N"; "description" := PyStr "S"; "content" := PyNone;
       "author" := PyNone; "category" := PyNone; "tags" := PyNone; "url" := PyNone;
       "published_at" := PyNone; "extra_data" := PyNone ]}.
Proof. vm_compute. reflexivity. Qed.

Lemma transform_drops_column_witness :
  transform (H := example_runtime) (<["Title" := PyStr "Lost"]> (DriverSpec.csv_row 1 "Alpha"))
  = transform (H := example_runtime) (DriverSpec.csv_row 1 "Alpha").
Proof.
  apply (transform_drops_column (H := example_runtime)).
  right. split.
  - apply (bool_decide_unpack _). vm_compute. exact I.
  - apply (bool_decide_unpack _). vm_compute. exact I.
Defined.

Lemma clean_value_idempotent_witness :
  _clean_value (H := example_runtime) (H0 := example_strings)
    (_clean_value (H := example_runtime) (H0 := example_strings) (PyStr "  Alpha "))
  = _clean_value (H := example_runtime) (H0 := example_strings) (PyStr "  Alpha ") /\
  forall t,
    _clean_value (H := example_runtime) (H0 := example_strings) (PyStr "  Alpha ") = PyStr t ->
    @str_lower example_runtime t ∉ null_words.
Proof.
  apply (clean_value_idempotent (H := example_runtime) (H0 := example_strings)).
  intros s [= <-]. reflexivity.
Defined.

(** Cells as the reader delivers them. *)
Example clean_value_cells :
  map (_clean_value (H := example_runtime) (H0 := example_strings))
    [PyStr " 42 "; PyStr "-7"; PyStr "1"; PyStr "N/A"; PyStr ""; PyStr "Yes";
     PyStr " Alpha "; PyNone]
  = [PyInt 42; PyInt (-7); PyInt 1; PyNone; PyNone; PyBool true; PyStr "Alpha"; PyNone].
Proof. vm_compute. reflexivity. Qed.

Lemma csv_extract_trace_witness :
  let ex := (extract (H := example_runtime) (H0 := example_strings) two_row_file
               s_offset_1).1 in
  length (events ex) = length (reader_rows two_row_file) /\
  (forall (i : nat) row, reader_rows two_row_file !! i = Some row ->
     events ex !! i
     = Some (if Z.of_nat (S i) <=? 1 then CountSkipped
             else Yield (<["_source_file" := PyStr "data.csv"]>
                           (<["_row_number" := PyInt (Z.of_nat (S i))]>
                              (_clean_value (H := example_runtime) (H0 := example_strings)
                                 <$> row))))) /\
  ending ex = Exhausted.
Proof.
  exact (proj2 (csv_extract_trace (H := example_runtime) (H0 := example_strings)
                  two_row_file s_offset_1) eq_refl eq_refl eq_refl).
Defined.

End CSVProofs.
